(** * RssBot / Evox: adaptive service routing and priority admission

    A shallow embedding of the routing core of the repository
    ([src/rssbot/models/service_registry.py],
    [src/rssbot/discovery/registry.py],
    [src/rssbot/discovery/cached_registry.py],
    [src/rssbot/discovery/proxy.py]) and of the admission layer
    ([evox/core/queue.py], [evox/core/scheduler.py]), followed by the
    properties of the design specification stated over that embedding.
    The health checker ([src/rssbot/discovery/health_checker.py]) and the
    sync of the registry with the scanner
    ([src/rssbot/discovery/scanner.py], [src/rssbot/core/config.py]) are
    embedded as well, and further properties of the code close the file.

    Vocabulary.  The specification speaks of the modes Local, Remote and
    Disabled; the code names them ROUTER, REST and DISABLED and labels
    them "router", "rest" and "disabled".  *)

From Stdlib Require Import ZArith String Ascii List Lia Permutation.
From stdpp Require Import base option strings list gmap pretty sorting.

Local Open Scope string_scope.

(** Python truthiness of a [str] and of an [Optional[str]]. *)
Definition truthy (s : string) : bool :=
  match s with EmptyString => false | String _ _ => true end.

Definition truthy_opt (o : option string) : bool :=
  match o with None => false | Some s => truthy s end.

(** Python's [x in [a, b, ...]] on strings. *)
Definition str_in (x : string) (l : list string) : bool :=
  existsb (String.eqb x) l.

(** ** src/rssbot/models/service_registry.py *)
Module Registry.

Inductive ConnectionMethod := ROUTER | REST | DISABLED.

Definition ConnectionMethod_eqb (a b : ConnectionMethod) : bool :=
  match a, b with
  | ROUTER, ROUTER | REST, REST | DISABLED, DISABLED => true
  | _, _ => false
  end.

(** [ConnectionMethod.X.value] *)
Definition value (m : ConnectionMethod) : string :=
  match m with
  | ROUTER => "router"
  | REST => "rest"
  | DISABLED => "disabled"
  end.

(** [ConnectionMethod(s)]: [None] stands for the [ValueError] the enum
    constructor raises on a string that is no member's value. *)
Definition of_value (s : string) : option ConnectionMethod :=
  if String.eqb s "router" then Some ROUTER
  else if String.eqb s "rest" then Some REST
  else if String.eqb s "disabled" then Some DISABLED
  else None.

(** Timestamps are seconds on an abstract clock. *)
Record RegisteredService := {
  name : string;
  connection_method : ConnectionMethod;
  rest_url : option string;
  is_active : bool;
  last_health_check : option nat;
  health_status : string;
  auto_discovered : bool;
  priority : Z;
  has_router : bool;
  router_path : option string
}.

Definition is_healthy (self : RegisteredService) : bool :=
  String.eqb (health_status self) "healthy" && is_active self.

Definition get_effective_connection_method
    (self : RegisteredService) : ConnectionMethod :=
  if negb (is_active self) then DISABLED
  else if ConnectionMethod_eqb (connection_method self) DISABLED then DISABLED
  else if ConnectionMethod_eqb (connection_method self) ROUTER
          && has_router self
          && str_in (health_status self) ["healthy"; "unknown"]
       then ROUTER
  else if truthy_opt (rest_url self)
          && str_in (health_status self) ["healthy"; "degraded"; "unknown"]
       then REST
  else DISABLED.

(** The record after [service.health_status = status;
    service.last_health_check = timestamp]. *)
Definition with_health (status : string) (timestamp : nat)
    (self : RegisteredService) : RegisteredService :=
  {| name := name self;
     connection_method := connection_method self;
     rest_url := rest_url self;
     is_active := is_active self;
     last_health_check := Some timestamp;
     health_status := status;
     auto_discovered := auto_discovered self;
     priority := priority self;
     has_router := has_router self;
     router_path := router_path self |}.

End Registry.

(** ** The reference policy of the specification (section 4.2)

    Written from the specification's four steps, over the specification's
    own vocabulary, to be compared with the code's method. *)
Module Policy.

Inductive Mode := Local | Remote | Disabled.

Definition mode_of (m : Registry.ConnectionMethod) : Mode :=
  match m with
  | Registry.ROUTER => Local
  | Registry.REST => Remote
  | Registry.DISABLED => Disabled
  end.

Definition is_Local (m : Mode) : bool :=
  match m with Local => true | _ => false end.

Definition is_Disabled (m : Mode) : bool :=
  match m with Disabled => true | _ => false end.

(** A remote address is set when the field holds a non-empty address. *)
Definition remote_address_set (r : Registry.RegisteredService) : bool :=
  match Registry.rest_url r with
  | Some (String _ _) => true
  | _ => false
  end.

Definition effective_mode_policy
    (is_active : bool) (preferred_mode : Mode) (has_local_target : bool)
    (remote_set : bool) (health_status : string) : Mode :=
  (* 1 *)
  if negb is_active || is_Disabled preferred_mode then Disabled
  (* 2 *)
  else if is_Local preferred_mode && has_local_target
          && (String.eqb health_status "healthy"
              || String.eqb health_status "unknown")
       then Local
  (* 3 *)
  else if remote_set
          && (String.eqb health_status "healthy"
              || String.eqb health_status "degraded"
              || String.eqb health_status "unknown")
       then Remote
  (* 4 *)
  else Disabled.

End Policy.

(** ** Exceptions, values and the world the services run in *)
Module Runtime.

(** Python values that cross a service boundary: [None] or a payload. *)
Inductive Value := VNone | VData (payload : string).

(** src/rssbot/core/exceptions.py, and the built-in and library
    exceptions the routing code raises or catches. *)
Inductive Exn :=
| ValueError (msg : string)
| AttributeError (msg : string)
| DiscoveryError (msg : string)
| ServiceError (msg : string) (service_name : option string)
| ServiceUnavailableError (service_name : string)
                          (attempted_methods : list string)
| ConnectionError (msg : string)
| HTTPStatusError (status_code : Z)
| HandlerError (msg : string).

Fixpoint join (sep : string) (l : list string) : string :=
  match l with
  | [] => EmptyString
  | [x] => x
  | x :: rest => x ++ sep ++ join sep rest
  end.

(** [ServiceUnavailableError.__init__]: the message it builds. *)
Definition unavailable_message (service_name : string)
    (attempted_methods : list string) : string :=
  let message := "Service '" ++ service_name ++ "' is unavailable" in
  match attempted_methods with
  | [] => message
  | _ => message ++ " (tried: " ++ join ", " attempted_methods ++ ")"
  end.

(** [str(e)].  The message of httpx's [HTTPStatusError] also names the
    reason phrase and the URL; it is shortened to the status code. *)
Definition str_exn (e : Exn) : string :=
  match e with
  | ValueError m | AttributeError m | DiscoveryError m
  | ServiceError m _ | ConnectionError m | HandlerError m => m
  | ServiceUnavailableError n a => unavailable_message n a
  | HTTPStatusError c => "HTTP status " ++ pretty c
  end.

Inductive Outcome (A : Type) :=
| Return (a : A)
| Raise (e : Exn).
Arguments Return {A} a.
Arguments Raise {A} e.

(** An in-process router module: its attributes, by name. *)
Definition Handler := list Value -> Outcome Value.

(** What an HTTP POST comes back with. *)
Inductive HttpOutcome :=
| TransportError (msg : string)
| Response (status_code : Z) (json : option Value).

(** Effects in program order. *)
Inductive Event :=
| Log (level msg : string)
| DbCommit (name status : string)
| RedisSetex (key : string) (ttl : nat) (val : string)
| RedisDelete (key : string)
| RouterCall (service method : string)
| RestPost (url : string).

(** The state shared by every caller.
    - [db]: the registered_services table keyed by its unique [name];
      [None] while no session factory is configured.
    - [redis]: the key space of the cache store, each value with the
      time at which it expires.
    - [redis_available]: the flag [_redis_available] set by
      [initialize]; [redis_up]: whether the store answers right now.
    - [router_cache]: [ServiceProxy._router_cache].
    - [importable], [http]: what [importlib.import_module] finds and
      what the network answers. *)
Record World := {
  db : option (gmap string Registry.RegisteredService);
  redis : gmap string (string * nat);
  redis_available : bool;
  redis_up : bool;
  clock : nat;
  router_cache : gmap string (gmap string Handler);
  importable : gmap string (gmap string Handler);
  http : string -> list Value -> HttpOutcome;
  trace : list Event
}.

Definition set_db (d : option (gmap string Registry.RegisteredService))
    (w : World) : World :=
  {| db := d; redis := redis w; redis_available := redis_available w;
     redis_up := redis_up w; clock := clock w;
     router_cache := router_cache w; importable := importable w;
     http := http w; trace := trace w |}.

Definition set_redis (r : gmap string (string * nat)) (w : World) : World :=
  {| db := db w; redis := r; redis_available := redis_available w;
     redis_up := redis_up w; clock := clock w;
     router_cache := router_cache w; importable := importable w;
     http := http w; trace := trace w |}.

Definition set_redis_available (b : bool) (w : World) : World :=
  {| db := db w; redis := redis w; redis_available := b;
     redis_up := redis_up w; clock := clock w;
     router_cache := router_cache w; importable := importable w;
     http := http w; trace := trace w |}.

Definition set_router_cache (c : gmap string (gmap string Handler))
    (w : World) : World :=
  {| db := db w; redis := redis w; redis_available := redis_available w;
     redis_up := redis_up w; clock := clock w;
     router_cache := c; importable := importable w;
     http := http w; trace := trace w |}.

Definition emit (e : Event) (w : World) : World :=
  {| db := db w; redis := redis w; redis_available := redis_available w;
     redis_up := redis_up w; clock := clock w;
     router_cache := router_cache w; importable := importable w;
     http := http w; trace := trace w ++ [e] |}.

(** What the environment does between two calls: time passes, the cache
    store goes away or comes back. *)
Definition environment (elapsed : nat) (up : bool) (w : World) : World :=
  {| db := db w; redis := redis w; redis_available := redis_available w;
     redis_up := up; clock := clock w + elapsed;
     router_cache := router_cache w; importable := importable w;
     http := http w; trace := trace w |}.

(** State and exceptions. *)
Definition M (A : Type) : Type := World -> Outcome A * World.

Definition ret {A} (a : A) : M A := fun w => (Return a, w).

Definition raise {A} (e : Exn) : M A := fun w => (Raise e, w).

Definition bind {A B} (m : M A) (k : A -> M B) : M B :=
  fun w =>
    match m w with
    | (Return a, w') => k a w'
    | (Raise e, w') => (Raise e, w')
    end.

(** [try: m  except Exception as e: h e] *)
Definition try_except {A} (m : M A) (h : Exn -> M A) : M A :=
  fun w =>
    match m w with
    | (Return a, w') => (Return a, w')
    | (Raise e, w') => h e w'
    end.

Definition get {A} (f : World -> A) : M A := fun w => (Return (f w), w).

Definition modify (f : World -> World) : M unit :=
  fun w => (Return tt, f w).

Definition log (level msg : string) : M unit := modify (emit (Log level msg)).

End Runtime.

Declare Scope py_scope.
Delimit Scope py_scope with py.
Notation "'do' x <- c1 ;; c2" := (Runtime.bind c1 (fun x => c2))
  (at level 10, x name, c1 at level 99, c2 at level 200) : py_scope.
Notation "'run' c1 ;; c2" := (Runtime.bind c1 (fun _ => c2))
  (at level 10, c1 at level 99, c2 at level 200) : py_scope.

(** ** The cache store (redis.asyncio), as far as the registry uses it

    Every command raises while the store does not answer.  The client
    object [_redis] exists whenever [_redis_available] is set, and the
    registry touches the store only under that flag. *)
Module Redis.
Import Runtime.
Local Open Scope py_scope.

Definition command {A} (k : M A) : M A :=
  fun w =>
    if redis_up w then k w
    else (Raise (ConnectionError "Error connecting to Redis"), w).

(** A key set to expire at [expires] is served up to that time, and is
    gone once the clock has passed it. *)
Definition live (now : nat) (entry : option (string * nat)) : option string :=
  match entry with
  | Some (v, expires) => if (now <=? expires)%nat then Some v else None
  | None => None
  end.

Definition GET (key : string) : M (option string) :=
  command (get (fun w => live (clock w) (redis w !! key))).

Definition SETEX (key : string) (ttl : nat) (val : string) : M unit :=
  command (modify (fun w =>
    emit (RedisSetex key ttl val)
         (set_redis (<[key := (val, (clock w + ttl)%nat)]> (redis w)) w))).

Definition DEL (key : string) : M unit :=
  command (modify (fun w =>
    emit (RedisDelete key) (set_redis (delete key (redis w)) w))).

Definition PING : M unit := command (ret tt).

End Redis.

(** ** src/rssbot/discovery/registry.py: [ServiceRegistryManager] *)
Module RegistryManager.
Import Runtime.
Local Open Scope py_scope.

(** [_get_session] *)
Definition _get_session : M (gmap string Registry.RegisteredService) :=
  fun w =>
    match db w with
    | None => (Raise (DiscoveryError
                        "Database session factory not configured"), w)
    | Some table => (Return table, w)
    end.

Definition get_service_by_name (name : string)
    : M (option Registry.RegisteredService) :=
  do table <- _get_session ;;
  ret (table !! name).

Definition update_health_status (name status : string)
    (timestamp : option nat) : M bool :=
  do table <- _get_session ;;
  match table !! name with
  | None => ret false
  | Some service =>
      do now <- get clock ;;
      let service' :=
        Registry.with_health status (default now timestamp) service in
      run modify (fun w =>
            emit (DbCommit name status)
                 (set_db (Some (<[name := service']> table)) w)) ;;
      ret true
  end.

End RegistryManager.

(** ** src/rssbot/discovery/cached_registry.py: [CachedServiceRegistry] *)
Module CachedRegistry.
Import Runtime.
Local Open Scope py_scope.

Definition CACHE_PREFIX : string := "rssbot:service:".
Definition CACHE_TTL : nat := 300.
Definition HEALTH_CACHE_TTL : nat := 60.

Definition method_key (service_name : string) : string :=
  CACHE_PREFIX ++ service_name ++ ":method".

Definition health_key (service_name : string) : string :=
  CACHE_PREFIX ++ service_name ++ ":health".

Definition dq : string := String (ascii_of_nat 34) EmptyString.

Definition quoted (s : string) : string := dq ++ s ++ dq.

(** [json.dumps({"status": status, "timestamp": timestamp.isoformat()})],
    the timestamp rendered as the clock's number. *)
Definition health_data (status : string) (timestamp : nat) : string :=
  "{" ++ quoted "status" ++ ": " ++ quoted status ++ ", "
      ++ quoted "timestamp" ++ ": " ++ quoted (pretty timestamp) ++ "}".

(** [initialize]: the availability flag is the result of the ping. *)
Definition initialize : M unit :=
  try_except
    (run Redis.PING ;;
     run modify (set_redis_available true) ;;
     log "info" "Redis cache initialized successfully")
    (fun e =>
       run log "warning"
             ("Redis unavailable, falling back to database: " ++ str_exn e) ;;
       modify (set_redis_available false)).

Definition _get_cached_connection_method (service_name : string)
    : M (option Registry.ConnectionMethod) :=
  let key := method_key service_name in
  do cached_value <- Redis.GET key ;;
  match cached_value with
  | Some bytes =>
      if truthy bytes then
        match Registry.of_value bytes with
        | Some method => ret (Some method)
        | None => run Redis.DEL key ;; ret None
        end
      else ret None
  | None => ret None
  end.

Definition _cache_connection_method (service_name : string)
    (method : Registry.ConnectionMethod) : M unit :=
  Redis.SETEX (method_key service_name) CACHE_TTL (Registry.value method).

Definition get_effective_connection_method (service_name : string)
    : M Registry.ConnectionMethod :=
  if negb (truthy service_name) then
    raise (ValueError "service_name must be a non-empty string")
  else
    do available <- get redis_available ;;
    do cached <-
      (if available then
         try_except (_get_cached_connection_method service_name)
           (fun e =>
              run log "warning"
                    ("Redis cache error for " ++ service_name ++ ": "
                     ++ str_exn e) ;;
              ret None)
       else ret None) ;;
    match cached with
    | Some method => ret method
    | None =>
        do service <- RegistryManager.get_service_by_name service_name ;;
        match service with
        | None =>
            run log "warning"
                  ("Service " ++ service_name
                   ++ " not found in registry, defaulting to REST") ;;
            ret Registry.REST
        | Some service =>
            let effective_method :=
              Registry.get_effective_connection_method service in
            run (if available then
                   try_except
                     (_cache_connection_method service_name effective_method)
                     (fun e =>
                        log "warning"
                          ("Failed to cache connection method for "
                           ++ service_name ++ ": " ++ str_exn e))
                 else ret tt) ;;
            ret effective_method
        end
    end.

Definition should_use_router (service_name : string) : M bool :=
  if negb (truthy service_name) then
    raise (ValueError "service_name must be a non-empty string")
  else
    do connection_method <- get_effective_connection_method service_name ;;
    ret (Registry.ConnectionMethod_eqb connection_method Registry.ROUTER).

Definition update_service_health_cached (service_name status : string)
    (timestamp : option nat) : M unit :=
  do now <- get clock ;;
  let timestamp := default now timestamp in
  run RegistryManager.update_health_status
        service_name status (Some timestamp) ;;
  do available <- get redis_available ;;
  if available then
    try_except
      (run Redis.SETEX (health_key service_name) HEALTH_CACHE_TTL
             (health_data status timestamp) ;;
       Redis.DEL (method_key service_name))
      (fun e =>
         log "warning"
           ("Failed to cache health for " ++ service_name ++ ": "
            ++ str_exn e))
  else ret tt.

End CachedRegistry.

(** ** src/rssbot/discovery/proxy.py: [ServiceProxy] *)
Module ServiceProxy.
Import Runtime.
Local Open Scope py_scope.

(** [s.rstrip('/')] *)
Fixpoint rstrip_slash (s : string) : string :=
  match s with
  | EmptyString => EmptyString
  | String c rest =>
      match rstrip_slash rest with
      | EmptyString =>
          if Ascii.eqb c "/" then EmptyString else String c EmptyString
      | kept => String c kept
      end
  end.

Definition _get_router_module (service : Registry.RegisteredService)
    : M (gmap string Handler) :=
  do cache <- get router_cache ;;
  match cache !! Registry.name service with
  | Some router_module => ret router_module
  | None =>
      match Registry.router_path service with
      | Some (String c p) =>
          let path := String c p in
          do modules <- get importable ;;
          match modules !! path with
          | Some router_module =>
              run modify (set_router_cache
                            (<[Registry.name service := router_module]> cache)) ;;
              ret router_module
          | None =>
              raise (ServiceError
                       ("Cannot import router for " ++ Registry.name service
                        ++ ": No module named '" ++ path ++ "'") None)
          end
      | _ =>
          raise (ServiceError
                   ("No router path configured for service "
                    ++ Registry.name service) None)
      end
  end.

(** A handler is run for its outcome; what it does to the shared state
    is outside this model. *)
Definition _call_via_router (service : Registry.RegisteredService)
    (method_name : string) (args : list Value) : M Value :=
  do router_module <- _get_router_module service ;;
  match router_module !! method_name with
  | Some method =>
      run modify (emit (RouterCall (Registry.name service) method_name)) ;;
      fun w => (method args, w)
  | None =>
      raise (AttributeError
               ("Method '" ++ method_name ++ "' not found on router for "
                ++ Registry.name service))
  end.

(** [response.raise_for_status()] of httpx returns on a 2xx status and
    raises otherwise; after it the function falls off its end and
    returns [None]. *)
Definition _call_via_rest (service : Registry.RegisteredService)
    (method_name : string) (args : list Value) : M Value :=
  match Registry.rest_url service with
  | None =>
      raise (AttributeError "'NoneType' object has no attribute 'rstrip'")
  | Some rest_url =>
      let endpoint_url := rstrip_slash rest_url ++ "/" ++ method_name in
      run modify (emit (RestPost endpoint_url)) ;;
      do response <- get (fun w => http w endpoint_url args) ;;
      match response with
      | TransportError msg => raise (ConnectionError msg)
      | Response status_code json =>
          if (status_code =? 200)%Z then
            match json with
            | Some body => ret body
            | None => raise (ValueError "Expecting value")
            end
          else if (status_code =? 404)%Z then
            raise (AttributeError
                     ("Method '" ++ method_name ++ "' not found on service "
                      ++ Registry.name service))
          else if ((200 <=? status_code) && (status_code <? 300))%Z then
            ret VNone
          else raise (HTTPStatusError status_code)
      end
  end.

(** [_execute_service_call], for the proxy of [service_name].  The
    cached registry is the process-wide instance whose state is the
    world. *)
Definition _execute_service_call (service_name method_name : string)
    (args : list Value) : M Value :=
  do service <- RegistryManager.get_service_by_name service_name ;;
  match service with
  | None => raise (ServiceUnavailableError service_name ["registry_lookup"])
  | Some service =>
      if negb (Registry.is_active service) then
        raise (ServiceUnavailableError service_name ["registry_lookup"])
      else
        do should_use_router <-
          CachedRegistry.should_use_router service_name ;;
        do effective_method <-
          CachedRegistry.get_effective_connection_method service_name ;;
        let attempted_methods : list string := [] in
        (* Try router method first *)
        do first <-
          (if should_use_router && Registry.has_router service then
             try_except
               (do result <- _call_via_router service method_name args ;;
                ret (inl result))
               (fun e =>
                  let attempted_methods := (attempted_methods ++ ["router"])%list in
                  run log "print"
                        ("Router call failed for " ++ service_name ++ "."
                         ++ method_name ++ ": " ++ str_exn e) ;;
                  do now <- get clock ;;
                  run CachedRegistry.update_service_health_cached
                        service_name "degraded" (Some now) ;;
                  ret (inr attempted_methods))
           else ret (inr attempted_methods)) ;;
        match first with
        | inl result => ret result
        | inr attempted_methods =>
            (* Try REST method *)
            do second <-
              (if truthy_opt (Registry.rest_url service)
                  && negb (Registry.ConnectionMethod_eqb
                             effective_method Registry.DISABLED) then
                 try_except
                   (do result <- _call_via_rest service method_name args ;;
                    ret (inl result))
                   (fun e =>
                      let attempted_methods :=
                        (attempted_methods ++ ["rest"])%list in
                      run log "print"
                            ("REST call failed for " ++ service_name ++ "."
                             ++ method_name ++ ": " ++ str_exn e) ;;
                      do now <- get clock ;;
                      run CachedRegistry.update_service_health_cached
                            service_name "down" (Some now) ;;
                      ret (inr attempted_methods))
               else ret (inr attempted_methods)) ;;
            match second with
            | inl result => ret result
            | inr attempted_methods =>
                (* All methods failed *)
                raise (ServiceUnavailableError service_name attempted_methods)
            end
        end
  end.

End ServiceProxy.

(** ** evox/core/queue.py: the priority-aware admission queue *)
Module Evox.

Inductive PriorityLevel := HIGH | MEDIUM | LOW.

(** [PriorityLevel.X.value] *)
Definition value (p : PriorityLevel) : string :=
  match p with HIGH => "high" | MEDIUM => "medium" | LOW => "low" end.

(** A dict with exactly the three priority levels as keys. *)
Record Lanes (X : Type) := { high : X; medium : X; low : X }.
Arguments high {X} _.
Arguments medium {X} _.
Arguments low {X} _.

Definition lane {X} (d : Lanes X) (p : PriorityLevel) : X :=
  match p with HIGH => high d | MEDIUM => medium d | LOW => low d end.

Definition set_lane {X} (p : PriorityLevel) (x : X) (d : Lanes X) : Lanes X :=
  match p with
  | HIGH => {| high := x; medium := medium d; low := low d |}
  | MEDIUM => {| high := high d; medium := x; low := low d |}
  | LOW => {| high := high d; medium := medium d; low := x |}
  end.

Inductive Exn :=
| RuntimeError (msg : string)
| TimeoutError
| ValueError (msg : string)
| Failure (msg : string).

Definition str_exn (e : Exn) : string :=
  match e with
  | RuntimeError m | ValueError m | Failure m => m
  | TimeoutError => EmptyString
  end.

Inductive Outcome (A : Type) :=
| Return (a : A)
| Raise (e : Exn).
Arguments Return {A} a.
Arguments Raise {A} e.

Record QueuedRequest := {
  id : string;
  priority : PriorityLevel;
  timestamp : nat;
  timeout : option nat
}.

Record ErrorEntry := {
  err_timestamp : nat;
  err_priority : string;
  err_error : string;
  err_context : string
}.

Record PriorityQueueStats := {
  queue_lengths : Lanes Z;
  admission_rejections : Lanes Z;
  processed_count : Lanes Z;
  errors : list ErrorEntry;
  last_updated : nat
}.

Definition increment_queue_length (now : nat) (p : PriorityLevel)
    (s : PriorityQueueStats) : PriorityQueueStats :=
  {| queue_lengths := set_lane p (lane (queue_lengths s) p + 1)%Z
                        (queue_lengths s);
     admission_rejections := admission_rejections s;
     processed_count := processed_count s;
     errors := errors s;
     last_updated := now |}.

Definition decrement_queue_length (now : nat) (p : PriorityLevel)
    (s : PriorityQueueStats) : PriorityQueueStats :=
  {| queue_lengths := set_lane p (Z.max 0 (lane (queue_lengths s) p - 1))
                        (queue_lengths s);
     admission_rejections := admission_rejections s;
     processed_count := processed_count s;
     errors := errors s;
     last_updated := now |}.

Definition increment_admission_rejection (now : nat) (p : PriorityLevel)
    (s : PriorityQueueStats) : PriorityQueueStats :=
  {| queue_lengths := queue_lengths s;
     admission_rejections :=
       set_lane p (lane (admission_rejections s) p + 1)%Z
         (admission_rejections s);
     processed_count := processed_count s;
     errors := errors s;
     last_updated := now |}.

Definition increment_processed (now : nat) (p : PriorityLevel)
    (s : PriorityQueueStats) : PriorityQueueStats :=
  {| queue_lengths := queue_lengths s;
     admission_rejections := admission_rejections s;
     processed_count :=
       set_lane p (lane (processed_count s) p + 1)%Z (processed_count s);
     errors := errors s;
     last_updated := now |}.

Definition add_error (now : nat) (p : PriorityLevel) (error : Exn)
    (context : string) (s : PriorityQueueStats) : PriorityQueueStats :=
  let appended :=
    (errors s ++ [ {| err_timestamp := now; err_priority := value p;
                      err_error := str_exn error;
                      err_context := context |} ])%list in
  {| queue_lengths := queue_lengths s;
     admission_rejections := admission_rejections s;
     processed_count := processed_count s;
     errors := if (100 <? length appended)%nat then tail appended
               else appended;
     last_updated := now |}.

(** [asyncio.Queue(maxsize)]: never full when [maxsize <= 0]. *)
Record AsyncioQueue := { maxsize : Z; items : list QueuedRequest }.

Definition qsize (q : AsyncioQueue) : Z := Z.of_nat (length (items q)).

Definition full (q : AsyncioQueue) : bool :=
  if (maxsize q <=? 0)%Z then false else (maxsize q <=? qsize q)%Z.

(** [put_nowait]: [None] stands for [asyncio.QueueFull]. *)
Definition put_nowait (item : QueuedRequest) (q : AsyncioQueue)
    : option AsyncioQueue :=
  if full q then None
  else Some {| maxsize := maxsize q; items := items q ++ [item] |}.

Record Config := { concurrency_limits_cfg : Lanes Z; queue_limits_cfg : Lanes Z }.

Definition default_config : Config :=
  {| concurrency_limits_cfg := {| high := 10; medium := 5; low := 2 |};
     queue_limits_cfg := {| high := 50; medium := 100; low := 200 |} |}%Z.

Record PriorityAwareQueue := {
  config : Config;
  queues : Lanes AsyncioQueue;
  active_workers : Lanes Z;
  concurrency_limits : Lanes Z;
  stats : PriorityQueueStats;
  _request_counter : nat;
  _running : bool
}.

(** [PriorityAwareQueue.__init__] *)
Definition init (now : nat) (cfg : Config) : PriorityAwareQueue :=
  let fresh (m : Z) := {| maxsize := m; items := [] |} in
  let zero := {| high := 0; medium := 0; low := 0 |}%Z in
  {| config := cfg;
     queues := {| high := fresh (high (queue_limits_cfg cfg));
                  medium := fresh (medium (queue_limits_cfg cfg));
                  low := fresh (low (queue_limits_cfg cfg)) |};
     active_workers := zero;
     concurrency_limits :=
       {| high := high (concurrency_limits_cfg cfg);
          medium := medium (concurrency_limits_cfg cfg);
          low := low (concurrency_limits_cfg cfg) |};
     stats := {| queue_lengths := zero; admission_rejections := zero;
                 processed_count := zero; errors := [];
                 last_updated := now |};
     _request_counter := 0;
     _running := true |}.

Definition with_queues (qs : Lanes AsyncioQueue) (self : PriorityAwareQueue)
    : PriorityAwareQueue :=
  {| config := config self; queues := qs;
     active_workers := active_workers self;
     concurrency_limits := concurrency_limits self;
     stats := stats self; _request_counter := _request_counter self;
     _running := _running self |}.

Definition with_active_workers (a : Lanes Z) (self : PriorityAwareQueue)
    : PriorityAwareQueue :=
  {| config := config self; queues := queues self;
     active_workers := a;
     concurrency_limits := concurrency_limits self;
     stats := stats self; _request_counter := _request_counter self;
     _running := _running self |}.

Definition with_stats (s : PriorityQueueStats) (self : PriorityAwareQueue)
    : PriorityAwareQueue :=
  {| config := config self; queues := queues self;
     active_workers := active_workers self;
     concurrency_limits := concurrency_limits self;
     stats := s; _request_counter := _request_counter self;
     _running := _running self |}.

Definition with_request_counter (n : nat) (self : PriorityAwareQueue)
    : PriorityAwareQueue :=
  {| config := config self; queues := queues self;
     active_workers := active_workers self;
     concurrency_limits := concurrency_limits self;
     stats := stats self; _request_counter := n;
     _running := _running self |}.

(** [_generate_request_id] *)
Definition _generate_request_id (now : nat) (self : PriorityAwareQueue)
    : string * PriorityAwareQueue :=
  let n := S (_request_counter self) in
  ("req_" ++ pretty now ++ "_" ++ pretty n, with_request_counter n self).

(** [submit], from its call to the admission decision: the request is
    put on its lane or rejected. *)
Definition enqueue (now : nat) (p : PriorityLevel) (timeout : option nat)
    (self : PriorityAwareQueue)
    : Outcome QueuedRequest * PriorityAwareQueue :=
  let '(request_id, self) := _generate_request_id now self in
  let request := {| id := request_id; priority := p; timestamp := now;
                    timeout := timeout |} in
  match put_nowait request (lane (queues self) p) with
  | Some q' =>
      let self := with_queues (set_lane p q' (queues self)) self in
      (Return request,
       with_stats (increment_queue_length now p (stats self)) self)
  | None =>
      (Raise (RuntimeError ("Queue full for priority " ++ value p
                            ++ ", request rejected")),
       with_stats (increment_admission_rejection now p (stats self)) self)
  end.

(** [_execute_request], up to the point where it awaits the function. *)
Definition begin_execute (now : nat) (request : QueuedRequest)
    (self : PriorityAwareQueue) : PriorityAwareQueue :=
  let p := priority request in
  let self :=
    with_active_workers
      (set_lane p (lane (active_workers self) p + 1)%Z (active_workers self))
      self in
  with_stats (increment_processed now p (stats self)) self.

(** What awaiting the function gives: [asyncio.wait_for] turns an
    overrun of a truthy timeout into [TimeoutError]. *)
Definition awaited (request : QueuedRequest) (elapsed : nat)
    (result : Outcome string) : Outcome string :=
  match timeout request with
  | Some (S t) => if (S t <? elapsed)%nat then Raise TimeoutError else result
  | _ => result
  end.

(** How long the caller has waited when the await ends: the timeout, when
    it has cut the function short. *)
Definition waited (request : QueuedRequest) (elapsed : nat) : nat :=
  match timeout request with
  | Some (S t) => if (S t <? elapsed)%nat then S t else elapsed
  | _ => elapsed
  end.

(** [_execute_request] from the function's completion on, followed by
    the [finally] of [submit]. *)
Definition finish_execute (now : nat) (request : QueuedRequest)
    (result : Outcome string) (self : PriorityAwareQueue)
    : Outcome string * PriorityAwareQueue :=
  let p := priority request in
  let self :=
    match result with
    | Raise e =>
        with_stats (add_error now p e ("Executing request " ++ id request)
                      (stats self)) self
    | Return _ => self
    end in
  let self :=
    with_active_workers
      (set_lane p (Z.max 0 (lane (active_workers self) p - 1))
         (active_workers self))
      self in
  (result, with_stats (decrement_queue_length now p (stats self)) self).

(** [submit] of a function that completes without being interleaved
    with another call. *)
Definition submit (now : nat) (p : PriorityLevel) (timeout : option nat)
    (elapsed : nat) (result : Outcome string) (self : PriorityAwareQueue)
    : Outcome string * PriorityAwareQueue :=
  match enqueue now p timeout self with
  | (Raise e, self) => (Raise e, self)
  | (Return request, self) =>
      finish_execute (now + waited request elapsed) request
        (awaited request elapsed result)
        (begin_execute now request self)
  end.

(** *** Interleaved callers

    A caller runs without interruption from its call of [submit] until
    it awaits its function, and again from the function's completion to
    the end of [submit].  [suspended] holds the requests whose callers
    are waiting for their function. *)
Record System := {
  queue : PriorityAwareQueue;
  suspended : list QueuedRequest;
  rejected : list Exn
}.

Inductive Step :=
| Submit (p : PriorityLevel) (timeout : option nat)
| Complete (index : nat) (elapsed : nat) (result : Outcome string).

Definition step (now : nat) (a : Step) (s : System) : System :=
  match a with
  | Submit p timeout =>
      match enqueue now p timeout (queue s) with
      | (Return request, q) =>
          {| queue := begin_execute now request q;
             suspended := suspended s ++ [request];
             rejected := rejected s |}
      | (Raise e, q) =>
          {| queue := q; suspended := suspended s;
             rejected := rejected s ++ [e] |}
      end
  | Complete index elapsed result =>
      match suspended s !! index with
      | Some request =>
          {| queue := snd (finish_execute now request
                             (awaited request elapsed result) (queue s));
             suspended := delete index (suspended s);
             rejected := rejected s |}
      | None => s
      end
  end.

(** One step per tick of the clock. *)
Fixpoint steps (now : nat) (l : list Step) (s : System) : System :=
  match l with
  | [] => s
  | a :: l => steps (S now) l (step now a s)
  end.

Definition start (now : nat) (cfg : Config) : System :=
  {| queue := init now cfg; suspended := []; rejected := [] |}.

(** The calls running on lane [p]. *)
Definition running (s : System) (p : PriorityLevel) : Z :=
  lane (active_workers (queue s)) p.

(** *** [PriorityAwareQueue.gather]

    [asyncio.gather(..., return_exceptions=True)]: one slot per request,
    in the order of the requests, an exception object in the slot of a
    request that raised.  [asyncio.Semaphore] refuses a negative value,
    and with value 0 no request ever gets past it. *)
Inductive Item :=
| ItemResult (v : string)
| ItemException (e : Exn)
| ItemErrorDict (error : string).

Inductive Run (A : Type) :=
| Done (a : A)
| Raised (e : Exn)
| Hangs.
Arguments Done {A} a.
Arguments Raised {A} e.
Arguments Hangs {A}.

Definition semaphore {A} (concurrency : Z) (tasks : nat) (k : Run A) : Run A :=
  if (concurrency <? 0)%Z then
    Raised (ValueError "Semaphore initial value must be >= 0")
  else if (concurrency =? 0)%Z && negb (tasks =? 0)%nat then Hangs
  else k.

Definition gather (requests : list (Outcome string)) (p : PriorityLevel)
    (concurrency : Z) : Run (list Item) :=
  semaphore concurrency (length requests)
    (Done (map (fun r => match r with
                         | Return v => ItemResult v
                         | Raise e => ItemException e
                         end) requests)).

End Evox.

(** ** evox/core/scheduler.py: [CallScheduler.parallel]

    A coroutine is given by what awaiting it yields.  [completion] is the
    order in which the event loop finishes the tasks, as indices into the
    argument list. *)
Module Scheduler.

Inductive Priority := HIGH | MEDIUM | LOW.

Inductive Policy := PARTIAL_OK | ALL_OR_NOTHING.

Inductive TaskState := Pending | Finished | Cancelled.

Definition is_finished (s : TaskState) : bool :=
  match s with Finished => true | _ => false end.

(** [asyncio.gather] without [return_exceptions]: the first exception raised by a task is
    propagated at once to the awaiting caller; gather cancels nothing. *)
Fixpoint gather_loop (coros : list (Evox.Outcome string))
    (completion : list nat) (states : list TaskState)
    : option Evox.Exn * list TaskState :=
  match completion with
  | [] => (None, states)
  | i :: rest =>
      match coros !! i with
      | Some (Evox.Raise e) => (Some e, <[i := Finished]> states)
      | Some (Evox.Return _) =>
          gather_loop coros rest (<[i := Finished]> states)
      | None => gather_loop coros rest states
      end
  end.

(** [for task in asyncio.as_completed(tasks)]: one appended entry per
    finished task, as they finish. *)
Fixpoint as_completed_loop (coros : list (Evox.Outcome string))
    (completion : list nat) (states : list TaskState)
    : list Evox.Item * list TaskState :=
  match completion with
  | [] => ([], states)
  | i :: rest =>
      match coros !! i with
      | Some outcome =>
          let '(results, states) :=
            as_completed_loop coros rest (<[i := Finished]> states) in
          (match outcome with
           | Evox.Return result => Evox.ItemResult result
           | Evox.Raise e => Evox.ItemErrorDict (Evox.str_exn e)
           end :: results, states)
      | None => as_completed_loop coros rest states
      end
  end.

Definition results_in_order (coros : list (Evox.Outcome string))
    : list Evox.Item :=
  map (fun c => match c with
                | Evox.Return v => Evox.ItemResult v
                | Evox.Raise e => Evox.ItemException e
                end) coros.

(** The call's outcome, and the state in which it leaves the tasks. *)
Definition parallel (coros : list (Evox.Outcome string))
    (priority : Priority) (policy : Policy) (concurrency : Z)
    (completion : list nat)
    : Evox.Run (list Evox.Item) * list TaskState :=
  let tasks := replicate (length coros) Pending in
  if (concurrency <? 0)%Z then
    (Evox.Raised (Evox.ValueError "Semaphore initial value must be >= 0"), [])
  else if (concurrency =? 0)%Z && negb (length coros =? 0)%nat then
    (Evox.Hangs, tasks)
  else
    match policy with
    | ALL_OR_NOTHING =>
        match gather_loop coros completion tasks with
        | (Some e, states) => (Evox.Raised e, states)
        | (None, states) =>
            if forallb is_finished states
            then (Evox.Done (results_in_order coros), states)
            else (Evox.Hangs, states)
        end
    | PARTIAL_OK =>
        let '(results, states) := as_completed_loop coros completion tasks in
        if forallb is_finished states then (Evox.Done results, states)
        else (Evox.Hangs, states)
    end.

End Scheduler.

(** ** src/rssbot/discovery/registry.py: [get_active_services]

    [get_active_services] selects the active rows ordered by priority and
    then by name; names are compared as byte strings here. *)
Module ActiveServices.
Import Runtime.
Local Open Scope py_scope.

Definition by_priority_then_name (a b : Registry.RegisteredService) : bool :=
  (Registry.priority a <? Registry.priority b)%Z
  || ((Registry.priority a =? Registry.priority b)%Z
      && String.leb (Registry.name a) (Registry.name b)).

Definition active_rows (table : gmap string Registry.RegisteredService)
    : list Registry.RegisteredService :=
  filter (fun service => Registry.is_active service = true)
         (map snd (map_to_list table)).

Definition get_active_services : M (list Registry.RegisteredService) :=
  do table <- RegistryManager._get_session ;;
  ret (@merge_sort _ (fun a b => by_priority_then_name a b = true)
         (fun a b => decide (by_priority_then_name a b = true))
         (active_rows table)).

End ActiveServices.

(** ** src/rssbot/discovery/health_checker.py: [HealthChecker]

    The checker reads the clock, asks the network and writes the registry
    through the registry manager.  [network url] is what a GET of [url]
    comes back with.  Lines printed are logged at level "print", without
    their pictographs. *)
Module HealthChecker.
Import Runtime.
Local Open Scope py_scope.

Record HealthStatus := {
  service_name : string;
  status : string;
  response_time : option nat;
  error_message : option string;
  timestamp : nat;
  method_used : string
}.

(** src/rssbot/core/exceptions.py: [HealthCheckError] *)
Inductive Failure := HealthCheckError (msg : string).

Definition str_failure (e : Failure) : string :=
  match e with HealthCheckError msg => msg end.

(** What [client.get] comes back with: [httpx.TimeoutException], another
    exception with its [str], or a response.  [json_status] is [None]
    where [response.json()] or [data.get] raises, and otherwise
    [data.get("status")] ([None] where it is no string). *)
Inductive Probe :=
| Timeout
| Failed (msg : string)
| Answer (status_code : Z) (json_status : option (option string)).

(** [_check_router_health]: nothing in the body of its [try] raises. *)
Definition _check_router_health (now : nat)
    (service : Registry.RegisteredService) : HealthStatus + Failure :=
  let start_time := now in
  let response_time := ((now - start_time) * 1000)%nat in
  inl {| service_name := Registry.name service;
         status := "healthy";
         response_time := Some response_time;
         error_message := None;
         timestamp := now;
         method_used := "router" |}.

Definition _check_rest_health (network : string -> Probe) (now : nat)
    (service : Registry.RegisteredService) (fallback : bool)
    : HealthStatus + Failure :=
  match Registry.rest_url service with
  | Some (String c u) =>
      let rest_url := String c u in
      let start_time := now in
      let health_url := ServiceProxy.rstrip_slash rest_url ++ "/health" in
      let method := "rest" ++ (if fallback then " (fallback)" else "") in
      match network health_url with
      | Answer status_code json_status =>
          let response_time := ((now - start_time) * 1000)%nat in
          let status :=
            if (status_code =? 200)%Z then
              match json_status with
              | Some (Some reported) =>
                  if String.eqb reported "healthy" then "healthy"
                  else "degraded"
              | Some None => "degraded"
              | None => "degraded"
              end
            else "degraded" in
          inl {| service_name := Registry.name service;
                 status := status;
                 response_time := Some response_time;
                 error_message := None;
                 timestamp := now;
                 method_used := method |}
      | Timeout =>
          inl {| service_name := Registry.name service;
                 status := "down";
                 response_time := None;
                 error_message := Some "Health check timeout";
                 timestamp := now;
                 method_used := method |}
      | Failed msg =>
          inl {| service_name := Registry.name service;
                 status := "down";
                 response_time := None;
                 error_message := Some msg;
                 timestamp := now;
                 method_used := method |}
      end
  | _ =>
      inr (HealthCheckError ("No REST URL configured for service "
                             ++ Registry.name service))
  end.

Definition check_service_health (network : string -> Probe) (now : nat)
    (service : Registry.RegisteredService) : HealthStatus + Failure :=
  let effective_method := Registry.get_effective_connection_method service in
  if Registry.ConnectionMethod_eqb effective_method Registry.DISABLED then
    inl {| service_name := Registry.name service;
           status := "down";
           response_time := None;
           error_message := Some "Service disabled";
           timestamp := now;
           method_used := "disabled" |}
  else if Registry.ConnectionMethod_eqb effective_method Registry.ROUTER then
    match _check_router_health now service with
    | inl result => inl result
    | inr e =>
        if truthy_opt (Registry.rest_url service)
        then _check_rest_health network now service true
        else inr e
    end
  else _check_rest_health network now service false.

(** One turn of the loop over [zip(services, health_results)]. *)
Definition record_result (service : Registry.RegisteredService)
    (result : HealthStatus + Failure) : M HealthStatus :=
  do health_status <-
    match result with
    | inr e =>
        do now <- get clock ;;
        ret {| service_name := Registry.name service;
               status := "down";
               response_time := None;
               error_message := Some (str_failure e);
               timestamp := now;
               method_used := "unknown" |}
    | inl health_status => ret health_status
    end ;;
  run RegistryManager.update_health_status (Registry.name service)
        (status health_status) (Some (timestamp health_status)) ;;
  run (if negb (String.eqb (Registry.health_status service)
                           (status health_status))
       then log "print"
              ("Service " ++ Registry.name service ++ ": "
               ++ Registry.health_status service ++ " -> "
               ++ status health_status)
       else ret tt) ;;
  ret health_status.

Fixpoint record_results
    (pairs : list (Registry.RegisteredService * (HealthStatus + Failure)))
    (results : gmap string HealthStatus) : M (gmap string HealthStatus) :=
  match pairs with
  | [] => ret results
  | (service, result) :: rest =>
      do health_status <- record_result service result ;;
      record_results rest (<[Registry.name service := health_status]> results)
  end.

(** [check_all_services]: the checks run under
    [asyncio.gather(return_exceptions=True)], which hands back every
    result or exception in the order of the services; a check reads the
    row it was given, the clock and the network, and writes nothing. *)
Definition check_all_services (network : string -> Probe)
    : M (gmap string HealthStatus) :=
  do services <- ActiveServices.get_active_services ;;
  match services with
  | [] => ret ∅
  | _ =>
      run log "print"
            ("Checking health of " ++ pretty (length services)
             ++ " services...") ;;
      do now <- get clock ;;
      let health_results := map (check_service_health network now) services in
      record_results (zip services health_results) ∅
  end.

End HealthChecker.

(** ** src/rssbot/core/config.py: the addresses of the services *)
Module Config.

Record Config := {
  db_service_port : Z;
  bot_service_port : Z;
  payment_service_port : Z;
  controller_service_port : Z;
  ai_service_port : Z;
  formatting_service_port : Z;
  channel_mgr_service_port : Z;
  user_service_port : Z;
  miniapp_service_port : Z;
  admin_service_port : Z
}.

(** The fields' defaults. *)
Definition defaults : Config :=
  {| db_service_port := 8001;
     bot_service_port := 8002;
     payment_service_port := 8003;
     controller_service_port := 8004;
     ai_service_port := 8005;
     formatting_service_port := 8006;
     channel_mgr_service_port := 8007;
     user_service_port := 8008;
     miniapp_service_port := 8009;
     admin_service_port := 8010 |}.

Definition get_service_port (self : Config) (service_name : string) : Z :=
  let port_map : gmap string Z :=
    list_to_map
      [("db_svc", db_service_port self);
       ("bot_svc", bot_service_port self);
       ("payment_svc", payment_service_port self);
       ("controller_svc", controller_service_port self);
       ("ai_svc", ai_service_port self);
       ("formatting_svc", formatting_service_port self);
       ("channel_mgr_svc", channel_mgr_service_port self);
       ("user_svc", user_service_port self);
       ("miniapp_svc", miniapp_service_port self);
       ("admin_svc", admin_service_port self)] in
  default 8000%Z (port_map !! service_name).

Definition get_service_url (self : Config) (service_name host : string)
    : string :=
  let port := get_service_port self service_name in
  "http://" ++ host ++ ":" ++ pretty port.

End Config.

(** ** src/rssbot/discovery/scanner.py: what the scanner reports *)
Module Scanner.

Record ServiceInfo := {
  name : string;
  display_name : string;
  description : option string;
  port : Z;
  has_router : bool;
  router_path : option string;
  main_path : string;
  folder_path : string
}.

End Scanner.

(** ** src/rssbot/discovery/registry.py: the sync with the scanner and
    the configuration of a service

    A row of registered_services with all its columns but the key [id],
    which the database assigns and the code never reads: [columns] holds
    the columns the routing code reads, the others stand beside them.  The
    table is keyed by the unique column [name].  One sync is one
    transaction, at the time [now]. *)
Module RegistrySync.

Record Row := {
  columns : Registry.RegisteredService;
  display_name : string;
  description : option string;
  port : option Z;
  created_at : nat;
  updated_at : nat
}.

Definition set_columns (c : Registry.RegisteredService) (row : Row) : Row :=
  {| columns := c; display_name := display_name row;
     description := description row; port := port row;
     created_at := created_at row; updated_at := updated_at row |}.

Definition set_display_name (v : string) (row : Row) : Row :=
  {| columns := columns row; display_name := v;
     description := description row; port := port row;
     created_at := created_at row; updated_at := updated_at row |}.

Definition set_description (v : option string) (row : Row) : Row :=
  {| columns := columns row; display_name := display_name row;
     description := v; port := port row;
     created_at := created_at row; updated_at := updated_at row |}.

Definition set_port (v : option Z) (row : Row) : Row :=
  {| columns := columns row; display_name := display_name row;
     description := description row; port := v;
     created_at := created_at row; updated_at := updated_at row |}.

Definition set_updated_at (v : nat) (row : Row) : Row :=
  {| columns := columns row; display_name := display_name row;
     description := description row; port := port row;
     created_at := created_at row; updated_at := v |}.

Definition set_has_router (v : bool) (c : Registry.RegisteredService)
    : Registry.RegisteredService :=
  {| Registry.name := Registry.name c;
     Registry.connection_method := Registry.connection_method c;
     Registry.rest_url := Registry.rest_url c;
     Registry.is_active := Registry.is_active c;
     Registry.last_health_check := Registry.last_health_check c;
     Registry.health_status := Registry.health_status c;
     Registry.auto_discovered := Registry.auto_discovered c;
     Registry.priority := Registry.priority c;
     Registry.has_router := v;
     Registry.router_path := Registry.router_path c |}.

Definition set_router_path (v : option string)
    (c : Registry.RegisteredService) : Registry.RegisteredService :=
  {| Registry.name := Registry.name c;
     Registry.connection_method := Registry.connection_method c;
     Registry.rest_url := Registry.rest_url c;
     Registry.is_active := Registry.is_active c;
     Registry.last_health_check := Registry.last_health_check c;
     Registry.health_status := Registry.health_status c;
     Registry.auto_discovered := Registry.auto_discovered c;
     Registry.priority := Registry.priority c;
     Registry.has_router := Registry.has_router c;
     Registry.router_path := v |}.

Definition set_rest_url (v : option string)
    (c : Registry.RegisteredService) : Registry.RegisteredService :=
  {| Registry.name := Registry.name c;
     Registry.connection_method := Registry.connection_method c;
     Registry.rest_url := v;
     Registry.is_active := Registry.is_active c;
     Registry.last_health_check := Registry.last_health_check c;
     Registry.health_status := Registry.health_status c;
     Registry.auto_discovered := Registry.auto_discovered c;
     Registry.priority := Registry.priority c;
     Registry.has_router := Registry.has_router c;
     Registry.router_path := Registry.router_path c |}.

Definition set_is_active (v : bool) (c : Registry.RegisteredService)
    : Registry.RegisteredService :=
  {| Registry.name := Registry.name c;
     Registry.connection_method := Registry.connection_method c;
     Registry.rest_url := Registry.rest_url c;
     Registry.is_active := v;
     Registry.last_health_check := Registry.last_health_check c;
     Registry.health_status := Registry.health_status c;
     Registry.auto_discovered := Registry.auto_discovered c;
     Registry.priority := Registry.priority c;
     Registry.has_router := Registry.has_router c;
     Registry.router_path := Registry.router_path c |}.

Definition set_connection_method (v : Registry.ConnectionMethod)
    (c : Registry.RegisteredService) : Registry.RegisteredService :=
  {| Registry.name := Registry.name c;
     Registry.connection_method := v;
     Registry.rest_url := Registry.rest_url c;
     Registry.is_active := Registry.is_active c;
     Registry.last_health_check := Registry.last_health_check c;
     Registry.health_status := Registry.health_status c;
     Registry.auto_discovered := Registry.auto_discovered c;
     Registry.priority := Registry.priority c;
     Registry.has_router := Registry.has_router c;
     Registry.router_path := Registry.router_path c |}.

Definition set_priority (v : Z) (c : Registry.RegisteredService)
    : Registry.RegisteredService :=
  {| Registry.name := Registry.name c;
     Registry.connection_method := Registry.connection_method c;
     Registry.rest_url := Registry.rest_url c;
     Registry.is_active := Registry.is_active c;
     Registry.last_health_check := Registry.last_health_check c;
     Registry.health_status := Registry.health_status c;
     Registry.auto_discovered := Registry.auto_discovered c;
     Registry.priority := v;
     Registry.has_router := Registry.has_router c;
     Registry.router_path := Registry.router_path c |}.

Definition set_auto_discovered (v : bool) (c : Registry.RegisteredService)
    : Registry.RegisteredService :=
  {| Registry.name := Registry.name c;
     Registry.connection_method := Registry.connection_method c;
     Registry.rest_url := Registry.rest_url c;
     Registry.is_active := Registry.is_active c;
     Registry.last_health_check := Registry.last_health_check c;
     Registry.health_status := Registry.health_status c;
     Registry.auto_discovered := v;
     Registry.priority := Registry.priority c;
     Registry.has_router := Registry.has_router c;
     Registry.router_path := Registry.router_path c |}.

(** [_create_service_from_discovery] *)
Definition _create_service_from_discovery (config : Config.Config)
    (now : nat) (service_info : Scanner.ServiceInfo) : Row :=
  {| columns :=
       {| Registry.name := Scanner.name service_info;
          Registry.connection_method :=
            if Scanner.has_router service_info
            then Registry.ROUTER else Registry.REST;
          Registry.rest_url :=
            Some (Config.get_service_url config (Scanner.name service_info)
                    "localhost");
          Registry.is_active := true;
          Registry.last_health_check := None;
          Registry.health_status := "unknown";
          Registry.auto_discovered := true;
          Registry.priority := 100;
          Registry.has_router := Scanner.has_router service_info;
          Registry.router_path := Scanner.router_path service_info |};
     display_name := Scanner.display_name service_info;
     description := Scanner.description service_info;
     port := Some (Scanner.port service_info);
     created_at := now;
     updated_at := now |}.

(** [_update_service_from_discovery]: the row after the assignments, and
    [updated_fields]. *)
Definition _update_service_from_discovery (config : Config.Config)
    (service : Row) (service_info : Scanner.ServiceInfo)
    : Row * list string :=
  let updated_fields : list string := [] in
  (* Update display name if not manually customized *)
  let '(service, updated_fields) :=
    if Registry.auto_discovered (columns service)
       && negb (String.eqb (display_name service)
                           (Scanner.display_name service_info))
    then (set_display_name (Scanner.display_name service_info) service,
          (updated_fields ++ ["display_name"])%list)
    else (service, updated_fields) in
  (* Update description *)
  let '(service, updated_fields) :=
    if negb (bool_decide (description service
                          = Scanner.description service_info))
    then (set_description (Scanner.description service_info) service,
          (updated_fields ++ ["description"])%list)
    else (service, updated_fields) in
  (* Update router availability *)
  let '(service, updated_fields) :=
    if negb (Bool.eqb (Registry.has_router (columns service))
                      (Scanner.has_router service_info))
    then (set_columns (set_has_router (Scanner.has_router service_info)
                         (columns service)) service,
          (updated_fields ++ ["has_router"])%list)
    else (service, updated_fields) in
  let '(service, updated_fields) :=
    if negb (bool_decide (Registry.router_path (columns service)
                          = Scanner.router_path service_info))
    then (set_columns (set_router_path (Scanner.router_path service_info)
                         (columns service)) service,
          (updated_fields ++ ["router_path"])%list)
    else (service, updated_fields) in
  (* Update port if service is auto-discovered *)
  let '(service, updated_fields) :=
    if Registry.auto_discovered (columns service)
       && negb (bool_decide (port service
                             = Some (Scanner.port service_info)))
    then (set_port (Some (Scanner.port service_info)) service,
          (updated_fields ++ ["port"])%list)
    else (service, updated_fields) in
  (* Update REST URL if not manually configured *)
  if Registry.auto_discovered (columns service) then
    let expected_url :=
      Config.get_service_url config (Scanner.name service_info)
        "localhost" in
    if negb (bool_decide (Registry.rest_url (columns service)
                          = Some expected_url))
    then (set_columns (set_rest_url (Some expected_url) (columns service))
            service,
          (updated_fields ++ ["rest_url"])%list)
    else (service, updated_fields)
  else (service, updated_fields).

(** The session of one sync: the rows loaded, changed in place, and the
    rows added. *)
Record Session := {
  existing_services : gmap string Row;
  added : list Row
}.

Record Summary := {
  total_discovered : nat;
  created : list string;
  updated : list (string * list string);
  marked_inactive : list string;
  reactivated : list string;
  total_registered : nat
}.

(** The first loop of [_sync_with_database], over the discovered
    services. *)
Fixpoint process_discovered (config : Config.Config) (now : nat)
    (discovered : list Scanner.ServiceInfo) (session : Session)
    (created : list string) (updated : list (string * list string))
    : Session * list string * list (string * list string) :=
  match discovered with
  | [] => (session, created, updated)
  | service_info :: rest =>
      let name := Scanner.name service_info in
      match existing_services session !! name with
      | Some service =>
          let '(service, updated_fields) :=
            _update_service_from_discovery config service service_info in
          match updated_fields with
          | [] =>
              process_discovered config now rest
                {| existing_services :=
                     <[name := service]> (existing_services session);
                   added := added session |}
                created updated
          | _ =>
              process_discovered config now rest
                {| existing_services :=
                     <[name := set_updated_at now service]>
                       (existing_services session);
                   added := added session |}
                created (updated ++ [(name, updated_fields)])%list
          end
      | None =>
          let service :=
            _create_service_from_discovery config now service_info in
          process_discovered config now rest
            {| existing_services := existing_services session;
               added := (added session ++ [service])%list |}
            (created ++ [name])%list updated
      end
  end.

(** The second loop, over the names that are registered and were not
    discovered.  Python leaves the order in which a set is gone through
    open; here it is the order of the keys of the table. *)
Fixpoint mark_missing (now : nat) (missing_services : list string)
    (existing : gmap string Row) (marked_inactive : list string)
    : gmap string Row * list string :=
  match missing_services with
  | [] => (existing, marked_inactive)
  | service_name :: rest =>
      match existing !! service_name with
      | Some service =>
          if Registry.is_active (columns service)
             && Registry.auto_discovered (columns service)
          then
            mark_missing now rest
              (<[service_name :=
                   set_updated_at now
                     (set_columns (set_is_active false (columns service))
                        service)]> existing)
              (marked_inactive ++ [service_name])%list
          else mark_missing now rest existing marked_inactive
      | None => mark_missing now rest existing marked_inactive
      end
  end.

(** The third loop, over the discovered services again. *)
Fixpoint reactivate (now : nat) (discovered : list Scanner.ServiceInfo)
    (existing : gmap string Row) (reactivated : list string)
    : gmap string Row * list string :=
  match discovered with
  | [] => (existing, reactivated)
  | service_info :: rest =>
      let name := Scanner.name service_info in
      match existing !! name with
      | Some service =>
          if negb (Registry.is_active (columns service))
             && Registry.auto_discovered (columns service)
          then
            reactivate now rest
              (<[name :=
                   set_updated_at now
                     (set_columns (set_is_active true (columns service))
                        service)]> existing)
              (reactivated ++ [name])%list
          else reactivate now rest existing reactivated
      | None => reactivate now rest existing reactivated
      end
  end.

Definition _sync_with_database (config : Config.Config) (now : nat)
    (table : gmap string Row) (discovered : list Scanner.ServiceInfo)
    : Session * Summary :=
  let existing_services := table in
  let discovered_names : gset string :=
    list_to_set (map Scanner.name discovered) in
  let existing_names : gset string := dom existing_services in
  let '(session, created, updated) :=
    process_discovered config now discovered
      {| existing_services := existing_services; added := [] |} [] [] in
  let missing_services :=
    filter (fun name => name ∉ discovered_names)
           (map fst (map_to_list table)) in
  let '(existing, marked_inactive) :=
    mark_missing now missing_services (RegistrySync.existing_services session)
      [] in
  let '(existing, reactivated) := reactivate now discovered existing [] in
  ({| RegistrySync.existing_services := existing; added := added session |},
   {| total_discovered := length discovered;
      created := created;
      updated := updated;
      marked_inactive := marked_inactive;
      reactivated := reactivated;
      total_registered := size (discovered_names ∪ existing_names) |}).

(** [session.commit()]: the rows changed in place are written, the rows
    added are inserted, and the unique index on [name] refuses two rows of
    one name, in which case nothing is written. *)
Definition commit (session : Session) : option (gmap string Row) :=
  if bool_decide (NoDup (map (fun row => Registry.name (columns row))
                             (added session)))
  then Some (foldl (fun table row =>
                      <[Registry.name (columns row) := row]> table)
                   (existing_services session) (added session))
  else None.

Inductive SyncOutcome :=
| DiscoveryError (msg : string)
| IntegrityError
| Synced (table : gmap string Row) (sync_results : Summary).

(** [sync_discovered_services], for what the scanner has discovered;
    [db] is [None] while no session factory is configured. *)
Definition sync_discovered_services (config : Config.Config) (now : nat)
    (db : option (gmap string Row)) (discovered : list Scanner.ServiceInfo)
    : SyncOutcome :=
  match db with
  | None => DiscoveryError "Database session factory not configured"
  | Some table =>
      let '(session, sync_results) :=
        _sync_with_database config now table discovered in
      match commit session with
      | Some table' => Synced table' sync_results
      | None => IntegrityError
      end
  end.

(** The keyword arguments of [update_service_config]: a value for each
    of the allowed fields that is given, and the names given that are not
    among the allowed fields. *)
Record Kwargs := {
  kw_connection_method : option Registry.ConnectionMethod;
  kw_rest_url : option (option string);
  kw_is_active : option bool;
  kw_priority : option Z;
  kw_display_name : option string;
  kw_description : option (option string);
  kw_others : list string
}.

Definition given {A} (v : option A) : bool :=
  match v with Some _ => true | None => false end.

Definition assign {A B} (v : option A) (set : A -> B -> B) (b : B) : B :=
  match v with Some a => set a b | None => b end.

(** The column [priority] is an INTEGER of SQLite, the database of the
    default configuration: a signed integer of 64 bits.  When the commit
    writes the columns that were assigned, the driver refuses any other
    [int] with an [OverflowError], and then nothing is written. *)
Definition fits_integer (v : Z) : bool :=
  ((- 2 ^ 63 <=? v) && (v <? 2 ^ 63))%Z.

Inductive ConfigOutcome :=
| ConfigDiscoveryError (msg : string)
| OverflowError (msg : string)
| Configured (table : gmap string Row) (updated : bool).

(** [update_service_config]: what is raised, or the table and what is
    returned. *)
Definition update_service_config (now : nat) (name : string)
    (kwargs : Kwargs) (db : option (gmap string Row)) : ConfigOutcome :=
  match db with
  | None => ConfigDiscoveryError "Database session factory not configured"
  | Some table =>
      match table !! name with
      | None => Configured table false
      | Some service =>
          let updated :=
            given (kw_connection_method kwargs)
            || given (kw_rest_url kwargs)
            || given (kw_is_active kwargs)
            || given (kw_priority kwargs)
            || given (kw_display_name kwargs)
            || given (kw_description kwargs) in
          if updated then
            let c := columns service in
            let c := assign (kw_connection_method kwargs)
                       set_connection_method c in
            let c := assign (kw_rest_url kwargs) set_rest_url c in
            let c := assign (kw_is_active kwargs) set_is_active c in
            let c := assign (kw_priority kwargs) set_priority c in
            let service := set_columns c service in
            let service := assign (kw_display_name kwargs)
                             set_display_name service in
            let service := assign (kw_description kwargs)
                             set_description service in
            let service := set_updated_at now service in
            (* Mark as manually configured *)
            let service :=
              set_columns (set_auto_discovered false (columns service))
                service in
            (* session.commit() *)
            if match kw_priority kwargs with
               | Some priority => fits_integer priority
               | None => true
               end
            then Configured (<[name := service]> table) true
            else OverflowError
                   "Python int too large to convert to SQLite INTEGER"
          else Configured table false
      end
  end.

End RegistrySync.

(** * Vocabulary of the properties *)

Section QueueVocabulary.
Import Evox.

(** The bound the specification asks of every reachable state. *)
Definition within_caps (s : System) : Prop :=
  forall p, (running s p <= lane (concurrency_limits (queue s)) p)%Z.

(** C6, as the specification states it: on a lane whose depth is at its
    cap, every further submit is refused. *)
Definition rejects_at_cap (s : System) (p : PriorityLevel) : Prop :=
  (maxsize (lane (queues (queue s)) p)
   <= qsize (lane (queues (queue s)) p))%Z ->
  forall now timeout elapsed result,
  exists e self',
    submit now p timeout elapsed result (queue s) = (Raise e, self').

(** A configuration whose Low lane has the queue limit 0. *)
Definition low_limit_zero : Config :=
  {| concurrency_limits_cfg := concurrency_limits_cfg default_config;
     queue_limits_cfg := {| high := 50; medium := 100; low := 0 |} |}%Z.

(** The Low lane of the default configuration, filled to its cap of 200. *)
Definition low_lane_full : Evox.System :=
  let s := Evox.start 0 Evox.default_config in
  let q := Evox.queue s in
  let request := {| Evox.id := "req_0_1"; Evox.priority := Evox.LOW;
                    Evox.timestamp := 0; Evox.timeout := None |} in
  {| Evox.queue :=
       Evox.with_queues
         (Evox.set_lane Evox.LOW
            {| Evox.maxsize := 200; Evox.items := replicate 200 request |}
            (Evox.queues q)) q;
     Evox.suspended := [];
     Evox.rejected := [] |}.

End QueueVocabulary.

Section FanOutVocabulary.
Import Scheduler.

Definition mark_all (done : list nat) (states : list TaskState)
    : list TaskState :=
  foldl (fun st i => <[i := Finished]> st) states done.

(** No task is left pending once the call has returned or raised. *)
Definition none_left_pending (states : list TaskState) : Prop :=
  forall i st, states !! i = Some st -> st <> Pending.

Definition succeeded (coros : list (Evox.Outcome string)) (j : nat) : Prop :=
  exists v, coros !! j = Some (Evox.Return v).

(** What PARTIAL_OK puts in the slot of an outcome. *)
Definition wrapped (c : Evox.Outcome string) : Evox.Item :=
  match c with
  | Evox.Return v => Evox.ItemResult v
  | Evox.Raise e => Evox.ItemErrorDict (Evox.str_exn e)
  end.

(** The outcomes, wrapped, in the order in which the tasks finished. *)
Definition in_completion_order (coros : list (Evox.Outcome string))
    (completion : list nat) : list Evox.Item :=
  omap (fun i => wrapped <$> coros !! i) completion.

(** C8, as the specification states it: when an operation of the batch
    fails, the call raises and leaves no sibling pending. *)
Definition all_or_nothing_cancels (coros : list (Evox.Outcome string))
    (concurrency : Z) (completion : list nat) : Prop :=
  (exists i e, coros !! i = Some (Evox.Raise e)) ->
  let r := Scheduler.parallel coros Scheduler.MEDIUM
             Scheduler.ALL_OR_NOTHING concurrency completion in
  (exists e, fst r = Evox.Raised e) /\ none_left_pending (snd r).

End FanOutVocabulary.

Section RoutingVocabulary.
Import Runtime.

(** The decision a live cache entry holds for [s], as the process sees it. *)
Definition cached_decision (w : World) (s : string)
    : option Registry.ConnectionMethod :=
  if redis_available w && redis_up w then
    match Redis.live (clock w) (redis w !! CachedRegistry.method_key s) with
    | Some bytes => if truthy bytes then Registry.of_value bytes else None
    | None => None
    end
  else None.

(** The decision computed from the registry alone. *)
Definition registry_decision (table : gmap string Registry.RegisteredService)
    (s : string) : Registry.ConnectionMethod :=
  match table !! s with
  | None => Registry.REST
  | Some service => Registry.get_effective_connection_method service
  end.

Definition decision (w : World)
    (table : gmap string Registry.RegisteredService) (s : string)
    : Registry.ConnectionMethod :=
  default (registry_decision table s) (cached_decision w s).

(** What a lookup leaves alone. *)
Record frame (w w' : World) : Prop := {
  frame_db : db w' = db w;
  frame_available : redis_available w' = redis_available w;
  frame_up : redis_up w' = redis_up w;
  frame_clock : clock w' = clock w;
  frame_router_cache : router_cache w' = router_cache w;
  frame_importable : importable w' = importable w;
  frame_http : http w' = http w
}.

(** The events a lookup may add. *)
Definition quiet (e : Event) : Prop :=
  match e with
  | Log _ _ | RedisSetex _ _ _ | RedisDelete _ => True
  | _ => False
  end.

(** The world a completed lookup of [s] leaves. *)
Definition after_lookup (s : string) (w : World) : World :=
  snd (CachedRegistry.get_effective_connection_method s w).

(** The events by which a health write reaches the cache store. *)
Definition cache_write_events (w : World) (s status : string)
    (timestamp : nat) : list Event :=
  if redis_available w then
    if redis_up w then
      [RedisSetex (CachedRegistry.health_key s)
         CachedRegistry.HEALTH_CACHE_TTL
         (CachedRegistry.health_data status timestamp);
       RedisDelete (CachedRegistry.method_key s)]
    else
      [Log "warning"
         ("Failed to cache health for " ++ s
          ++ ": Error connecting to Redis")]
  else [].

(** The events of a health write through the cache layer. *)
Definition health_write_events (w : World)
    (table : gmap string Registry.RegisteredService)
    (s status : string) (timestamp : nat) : list Event :=
  (match table !! s with
   | Some _ => [DbCommit s status]
   | None => []
   end
   ++ cache_write_events w s status timestamp)%list.

Definition is_router_call (e : Event) : Prop :=
  match e with RouterCall _ _ => True | _ => False end.

Definition endpoint (rest_url m : string) : string :=
  ServiceProxy.rstrip_slash rest_url ++ "/" ++ m.

Definition router_failed_message (s m : string) (e : Exn) : string :=
  "Router call failed for " ++ s ++ "." ++ m ++ ": " ++ str_exn e.

Definition rest_failed_message (s m : string) (e : Exn) : string :=
  "REST call failed for " ++ s ++ "." ++ m ++ ": " ++ str_exn e.

(** The world in which the alternate mode is tried after a failed
    attempt: the failure is printed and the health written. *)
Definition after_failure (s status message : string) (w : World) : World :=
  let w := emit (Log "print" message) w in
  snd (CachedRegistry.update_service_health_cached s status (Some (clock w)) w).

(** What a lookup computed from the registry alone gives. *)
Definition recomputed (w : World) (s : string)
    : Outcome Registry.ConnectionMethod :=
  if truthy s then
    match db w with
    | Some table => Return (registry_decision table s)
    | None => Raise (DiscoveryError "Database session factory not configured")
    end
  else Raise (ValueError "service_name must be a non-empty string").

(** C2, as the specification states it: once the health write for [s] has
    returned, no cached decision for [s] is visible any more, and every
    later lookup of [s] is a recomputation from the registry. *)
Definition health_write_invalidates (w : World) (s status : string)
    (timestamp : option nat) : Prop :=
  forall w1,
    CachedRegistry.update_service_health_cached s status timestamp w
    = (Return tt, w1) ->
    forall elapsed up,
      cached_decision (environment elapsed up w1) s = None
      /\ fst (CachedRegistry.get_effective_connection_method s
                (environment elapsed up w1))
         = recomputed w1 s.

(** C10, as the specification states it. *)
Definition lookup_never_raises_for_unknown (w : World) (s : string) : Prop :=
  forall table, db w = Some table -> table !! s = None ->
  exists method,
    fst (CachedRegistry.get_effective_connection_method s w) = Return method.

(** C9, as the specification states it: the call fails with the error of
    the missing method, and the Remote mode is not tried. *)
Definition unsupported_method_fails_fast (w : World) (s m : string)
    (args : list Value) : Prop :=
  let r := ServiceProxy._execute_service_call s m args w in
  (exists msg, fst r = Raise (AttributeError msg))
  /\ forall url, RestPost url ∉ trace (snd r).

(** A registered service with a router and a REST address. *)
Definition ai_svc : Registry.RegisteredService :=
  {| Registry.name := "ai_svc";
     Registry.connection_method := Registry.ROUTER;
     Registry.rest_url := Some "http://localhost:8005/";
     Registry.is_active := true;
     Registry.last_health_check := None;
     Registry.health_status := "healthy";
     Registry.auto_discovered := true;
     Registry.priority := 100;
     Registry.has_router := true;
     Registry.router_path := Some "services.ai_svc.router" |}.

(** Its router module: [summarize] raises, and there is no [translate]. *)
Definition ai_router : gmap string Handler :=
  {[ "summarize" := fun _ => Raise (HandlerError "model not loaded") ]}.

(** A world with [ai_svc] registered and its decision cached as "router",
    ten seconds into the life of the entry. *)
Definition world (up : bool) (answer : HttpOutcome) : World :=
  {| db := Some {[ "ai_svc" := ai_svc ]};
     redis := {[ CachedRegistry.method_key "ai_svc" := ("router", 300%nat) ]};
     redis_available := true;
     redis_up := up;
     clock := 10;
     router_cache := ∅;
     importable := {[ "services.ai_svc.router" := ai_router ]};
     http := fun _ _ => answer;
     trace := [] |}.

(** The health the registry holds for [s]. *)
Definition registered_health (w : Runtime.World) (s : string) : option string :=
  match Runtime.db w with
  | Some table => Registry.health_status <$> table !! s
  | None => None
  end.






End RoutingVocabulary.

(** * Vocabulary of the further properties *)

Section RegistryVocabulary.
Import Registry.

(** The health statuses under which a service can be reached at all. *)
Definition reachable_health (status : string) : bool :=
  str_in status ["healthy"; "degraded"; "unknown"].

End RegistryVocabulary.

Section QueueInvariantVocabulary.
Import Evox.

Definition priority_eqb (a b : PriorityLevel) : bool :=
  match a, b with
  | HIGH, HIGH | MEDIUM, MEDIUM | LOW, LOW => true
  | _, _ => false
  end.

(** The number of callers of lane [p] that are waiting for their
    function. *)
Definition waiting_at (p : PriorityLevel) (l : list QueuedRequest) : Z :=
  Z.of_nat (length (List.filter (fun r => priority_eqb (priority r) p) l)).

(** The state a fresh queue is in after the steps [l]. *)
Definition reached (now : nat) (cfg : Config) (l : list Step) : System :=
  steps now l (start now cfg).

(** What every step keeps. *)
Record queue_invariant (s : System) : Prop := {
  inv_queue_lengths : forall p,
    lane (queue_lengths (stats (queue s))) p = waiting_at p (suspended s);
  inv_active_workers : forall p,
    lane (active_workers (queue s)) p = waiting_at p (suspended s);
  inv_processed : forall p,
    lane (processed_count (stats (queue s))) p
    = qsize (lane (queues (queue s)) p);
  inv_waiting : forall p,
    (waiting_at p (suspended s) <= qsize (lane (queues (queue s)) p))%Z;
  inv_limit : forall p,
    (0 < maxsize (lane (queues (queue s)) p))%Z ->
    (qsize (lane (queues (queue s)) p)
     <= maxsize (lane (queues (queue s)) p))%Z;
  inv_maxsize : forall p,
    maxsize (lane (queues (queue s)) p)
    = lane (queue_limits_cfg (config (queue s))) p;
  inv_errors : (length (errors (stats (queue s))) <= 100)%nat
}.

End QueueInvariantVocabulary.

Section HealthCheckVocabulary.
Import Runtime.

(** Every row of the table is stored under its name. *)
Definition well_keyed (table : gmap string Registry.RegisteredService)
    : Prop :=
  forall k row, table !! k = Some row -> Registry.name row = k.

(** The status a check of [service] comes to. *)
Definition verdict (network : string -> HealthChecker.Probe) (now : nat)
    (service : Registry.RegisteredService) : string :=
  match HealthChecker.check_service_health network now service with
  | inl result => HealthChecker.status result
  | inr _ => "down"
  end.

(** The row a round of checks at time [now] leaves. *)
Definition checked (network : string -> HealthChecker.Probe) (now : nat)
    (row : Registry.RegisteredService) : Registry.RegisteredService :=
  if Registry.is_active row
  then Registry.with_health (verdict network now row) now row
  else row.

(** Events of the registry table and of the log. *)
Definition registry_event (e : Event) : Prop :=
  match e with
  | Log _ _ | DbCommit _ _ => True
  | _ => False
  end.

(** What a round of checks leaves alone. *)
Record beside_registry (w w' : World) : Prop := {
  beside_redis : redis w' = redis w;
  beside_available : redis_available w' = redis_available w;
  beside_up : redis_up w' = redis_up w;
  beside_clock : clock w' = clock w;
  beside_router_cache : router_cache w' = router_cache w;
  beside_importable : importable w' = importable w;
  beside_http : http w' = http w
}.

(** A network on which every endpoint reports itself healthy. *)
Definition all_healthy : string -> HealthChecker.Probe :=
  fun _ => HealthChecker.Answer 200 (Some (Some "healthy")).

End HealthCheckVocabulary.

Section SyncVocabulary.
Import RegistrySync.

(** What the scanner reports under the name [k]. *)
Definition info_for (k : string) (discovered : list Scanner.ServiceInfo)
    : option Scanner.ServiceInfo :=
  List.find (fun service_info => String.eqb (Scanner.name service_info) k)
            discovered.

(** A row after the first loop has met it with [service_info]. *)
Definition refreshed (config : Config.Config) (now : nat) (row : Row)
    (service_info : Scanner.ServiceInfo) : Row :=
  match _update_service_from_discovery config row service_info with
  | (row', []) => row'
  | (row', _) => set_updated_at now row'
  end.

(** A row after the second loop has met it. *)
Definition retired (now : nat) (row : Row) : Row :=
  if Registry.is_active (columns row)
     && Registry.auto_discovered (columns row)
  then set_updated_at now
         (set_columns (set_is_active false (columns row)) row)
  else row.

(** A row after the third loop has met it. *)
Definition revived (now : nat) (row : Row) : Row :=
  if negb (Registry.is_active (columns row))
     && Registry.auto_discovered (columns row)
  then set_updated_at now
         (set_columns (set_is_active true (columns row)) row)
  else row.

(** The row stored under [k] after a sync, from the row before it. *)
Definition synced_row (config : Config.Config) (now : nat)
    (discovered : list Scanner.ServiceInfo) (k : string)
    (before : option Row) : option Row :=
  match before with
  | Some row =>
      Some (match info_for k discovered with
            | Some service_info =>
                revived now (refreshed config now row service_info)
            | None => retired now row
            end)
  | None =>
      _create_service_from_discovery config now <$> info_for k discovered
  end.

(** A row that agrees with what the scanner reports about it. *)
Definition in_step (config : Config.Config) (row : Row)
    (service_info : Scanner.ServiceInfo) : Prop :=
  description row = Scanner.description service_info
  /\ Registry.has_router (columns row) = Scanner.has_router service_info
  /\ Registry.router_path (columns row) = Scanner.router_path service_info
  /\ (Registry.auto_discovered (columns row) = true ->
      display_name row = Scanner.display_name service_info
      /\ port row = Some (Scanner.port service_info)
      /\ Registry.rest_url (columns row)
         = Some (Config.get_service_url config (Scanner.name service_info)
                   "localhost")).

(** The table as the routing code reads it. *)
Definition routing_view (table : gmap string Row)
    : gmap string Registry.RegisteredService :=
  columns <$> table.

(** Two services as the scanner reports them. *)
Definition ai_info : Scanner.ServiceInfo :=
  {| Scanner.name := "ai_svc";
     Scanner.display_name := "AI Service";
     Scanner.description := Some "Summaries and translations";
     Scanner.port := 8005;
     Scanner.has_router := true;
     Scanner.router_path := Some "services.ai_svc.router";
     Scanner.main_path := "services.ai_svc.main";
     Scanner.folder_path := "services/ai_svc" |}.

Definition bot_info : Scanner.ServiceInfo :=
  {| Scanner.name := "bot_svc";
     Scanner.display_name := "Bot Service";
     Scanner.description := None;
     Scanner.port := 8002;
     Scanner.has_router := false;
     Scanner.router_path := None;
     Scanner.main_path := "services.bot_svc.main";
     Scanner.folder_path := "services/bot_svc" |}.

(** [ai_svc] as the scanner reported it before it had a router, and the
    row registered from that report. *)
Definition ai_info_before : Scanner.ServiceInfo :=
  {| Scanner.name := "ai_svc";
     Scanner.display_name := "AI";
     Scanner.description := None;
     Scanner.port := 8000;
     Scanner.has_router := false;
     Scanner.router_path := None;
     Scanner.main_path := "services.ai_svc.main";
     Scanner.folder_path := "services/ai_svc" |}.

Definition ai_row : Row :=
  _create_service_from_discovery Config.defaults 5 ai_info_before.

(** A row an operator has configured by hand. *)
Definition user_row : Row :=
  {| columns :=
       {| Registry.name := "user_svc";
          Registry.connection_method := Registry.REST;
          Registry.rest_url := Some "http://users.internal:9000";
          Registry.is_active := true;
          Registry.last_health_check := Some 7%nat;
          Registry.health_status := "healthy";
          Registry.auto_discovered := false;
          Registry.priority := 10;
          Registry.has_router := false;
          Registry.router_path := None |};
     display_name := "Users";
     description := None;
     port := Some 9000%Z;
     created_at := 1;
     updated_at := 2 |}.

End SyncVocabulary.

(** * Properties *)

(** C1: for every service record the effective connection method computed
    by the code is the four-step reference policy evaluated on the
    record's fields. *)
Theorem effective_method_refines_policy (r : Registry.RegisteredService) :
  Policy.mode_of (Registry.get_effective_connection_method r)
  = Policy.effective_mode_policy
      (Registry.is_active r)
      (Policy.mode_of (Registry.connection_method r))
      (Registry.has_router r)
      (Policy.remote_address_set r)
      (Registry.health_status r).
Proof.
  unfold Registry.get_effective_connection_method,
    Policy.effective_mode_policy, Policy.remote_address_set, truthy_opt,
    truthy, str_in.
  cbn [existsb].
  destruct (Registry.is_active r); cbn [negb orb]; [|reflexivity].
  destruct (Registry.connection_method r); cbn;
    destruct (Registry.has_router r); cbn;
    rewrite ?orb_false_r;
    destruct (Registry.rest_url r) as [[|c s]|]; cbn;
    repeat (match goal with
            | |- context [String.eqb ?a ?b] => destruct (String.eqb a b); cbn
            end); reflexivity.
Qed.

(** ** The admission queue *)
Section AdmissionQueue.
Import Evox.

Lemma lane_set_lane_eq {X} p (x : X) d : lane (set_lane p x d) p = x.
Proof. destruct p; reflexivity. Qed.

Lemma lane_set_lane_ne {X} p p' (x : X) d :
  p <> p' -> lane (set_lane p x d) p' = lane d p'.
Proof. destruct p, p'; intros H; try reflexivity; congruence. Qed.

Lemma full_at_cap (q : AsyncioQueue) :
  (0 < maxsize q)%Z -> (maxsize q <= qsize q)%Z -> full q = true.
Proof.
  intros Hpos Hcap. unfold full.
  destruct (Z.leb_spec (maxsize q) 0); [lia|].
  apply Z.leb_le. exact Hcap.
Qed.

(** A request put on a lane that is not full starts executing in the
    same step, whatever the lane's concurrency limit and however many
    calls are already running there. *)
Lemma submit_starts_at_once now p timeout (s : System) :
  full (lane (queues (queue s)) p) = false ->
  let s' := step now (Submit p timeout) s in
  running s' p = (running s p + 1)%Z
  /\ length (suspended s') = S (length (suspended s))
  /\ rejected s' = rejected s.
Proof.
  intros Hfull. unfold step, enqueue, _generate_request_id, put_nowait.
  cbn. rewrite Hfull. cbn. unfold running. cbn.
  rewrite lane_set_lane_eq, length_app. cbn.
  repeat split; lia.
Qed.

End AdmissionQueue.

(** C3 (the code departs from it): with the default configuration the Low
    lane has a concurrency cap of 2, yet three callers that submit at Low
    priority and wait for their functions are all executing at once: the
    running count is 3, none was rejected, none waits for a slot. *)
Theorem concurrency_cap_not_enforced :
  let s0 := Evox.start 0 Evox.default_config in
  let s3 := Evox.steps 0 [Evox.Submit Evox.LOW None;
                          Evox.Submit Evox.LOW None;
                          Evox.Submit Evox.LOW None] s0 in
  within_caps s0
  /\ Evox.lane (Evox.concurrency_limits (Evox.queue s3)) Evox.LOW = 2%Z
  /\ Evox.running s3 Evox.LOW = 3%Z
  /\ length (Evox.suspended s3) = 3%nat
  /\ Evox.rejected s3 = []
  /\ ~ within_caps s3.
Proof.
  cbv zeta. repeat split.
  - intros p. destruct p; vm_compute; discriminate.
  - intros H. specialize (H Evox.LOW). vm_compute in H. apply H. reflexivity.
Qed.

(** C6, counterexample: a lane whose queue limit is 0.  [asyncio.Queue]
    takes a [maxsize] of zero or less to mean no bound, so on a fresh
    queue, where the depth 0 of the Low lane is at its cap 0, a submit at
    Low priority is admitted: the function runs and its result is
    returned, and no rejection is counted. *)
Theorem zero_cap_lane_admits_submit :
  let s := Evox.start 0 low_limit_zero in
  let lane := Evox.lane (Evox.queues (Evox.queue s)) Evox.LOW in
  let r := Evox.submit 7 Evox.LOW None 0 (Evox.Return "done")
             (Evox.queue s) in
  Evox.maxsize lane = 0%Z
  /\ Evox.qsize lane = 0%Z
  /\ fst r = Evox.Return "done"
  /\ Evox.lane (Evox.admission_rejections (Evox.stats (snd r))) Evox.LOW
     = 0%Z
  /\ ~ rejects_at_cap s Evox.LOW.
Proof.
  cbv zeta. repeat split.
  intros H.
  destruct (H ltac:(vm_compute; discriminate) 7%nat None 0%nat
              (Evox.Return "done"))
    as (e & self' & Hsubmit).
  vm_compute in Hsubmit. discriminate.
Qed.

(** C6, amended: on a lane whose queue depth has reached its cap, the cap
    being positive, a further submit raises at once the error "Queue full
    for priority p, request rejected": the function is not run, no caller
    is left waiting, the lane's rejected-admission count grows by one and
    nothing else of the lane changes. *)
Theorem submit_at_cap_is_rejected
    (now : nat) (p : Evox.PriorityLevel) (timeout : option nat)
    (elapsed : nat) (result : Evox.Outcome string)
    (s : Evox.System) :
  let self := Evox.queue s in
  let cap := Evox.maxsize (Evox.lane (Evox.queues self) p) in
  (0 < cap)%Z ->
  (cap <= Evox.qsize (Evox.lane (Evox.queues self) p))%Z ->
  let error := Evox.RuntimeError
                 ("Queue full for priority " ++ Evox.value p
                  ++ ", request rejected") in
  exists self',
    Evox.submit now p timeout elapsed result self = (Evox.Raise error, self')
    /\ Evox.step now (Evox.Submit p timeout) s
       = {| Evox.queue := self';
            Evox.suspended := Evox.suspended s;
            Evox.rejected := Evox.rejected s ++ [error] |}
    /\ Evox.lane (Evox.admission_rejections (Evox.stats self')) p
       = (Evox.lane (Evox.admission_rejections (Evox.stats self)) p + 1)%Z
    /\ (forall p', p' <> p ->
          Evox.lane (Evox.admission_rejections (Evox.stats self')) p'
          = Evox.lane (Evox.admission_rejections (Evox.stats self)) p')
    /\ Evox.queues self' = Evox.queues self
    /\ Evox.active_workers self' = Evox.active_workers self
    /\ Evox.queue_lengths (Evox.stats self')
       = Evox.queue_lengths (Evox.stats self)
    /\ Evox.processed_count (Evox.stats self')
       = Evox.processed_count (Evox.stats self).
Proof.
  intros self cap Hpos Hcap error.
  pose proof (full_at_cap _ Hpos Hcap) as Hfull.
  unfold Evox.submit, Evox.step, Evox.enqueue, Evox._generate_request_id,
    Evox.put_nowait. cbn.
  fold self. rewrite Hfull.
  eexists. split; [reflexivity|]. split; [reflexivity|]. cbn.
  split; [apply lane_set_lane_eq|].
  split; [intros p' Hne; apply lane_set_lane_ne; congruence|].
  repeat split; reflexivity.
Qed.

Lemma submit_at_cap_is_rejected_witness :
  exists self',
    Evox.submit 7 Evox.LOW None 0 (Evox.Return "done")
      (Evox.queue low_lane_full)
    = (Evox.Raise (Evox.RuntimeError
                     "Queue full for priority low, request rejected"), self')
    /\ Evox.lane (Evox.admission_rejections (Evox.stats self')) Evox.LOW = 1%Z.
Proof.
  destruct (submit_at_cap_is_rejected 7 Evox.LOW None 0 (Evox.Return "done")
              low_lane_full) as (self' & Hs & _ & Hr & _).
  - vm_compute. reflexivity.
  - vm_compute. discriminate.
  - exists self'. split; [exact Hs|]. rewrite Hr. reflexivity.
Defined.

(** ** Fan-out *)
Section FanOut.
Import Scheduler.

Lemma mark_all_lookup_notin done : forall (states : list TaskState) j,
  j ∉ done -> mark_all done states !! j = states !! j.
Proof.
  unfold mark_all.
  induction done as [|i done IH]; intros states j Hj; [reflexivity|].
  cbn. rewrite IH by (intros ?; apply Hj; right; assumption).
  apply list_lookup_insert_ne. intros ->. apply Hj. left.
Qed.

Lemma insert_no_cancelled i (states : list TaskState) :
  Cancelled ∉ states -> Cancelled ∉ <[i := Finished]> states.
Proof.
  intros H Hin. apply list_elem_of_lookup in Hin as [j Hj].
  destruct (decide (i = j)) as [->|Hne].
  - destruct (decide (j < length states)%nat).
    + rewrite list_lookup_insert_eq in Hj by assumption. discriminate.
    + rewrite list_insert_ge in Hj by lia.
      apply H. apply list_elem_of_lookup. eauto.
  - rewrite list_lookup_insert_ne in Hj by assumption.
    apply H. apply list_elem_of_lookup. eauto.
Qed.

Lemma mark_all_no_cancelled done : forall (states : list TaskState),
  Cancelled ∉ states -> Cancelled ∉ mark_all done states.
Proof.
  unfold mark_all.
  induction done as [|i done IH]; intros states H; [exact H|].
  cbn. apply IH, insert_no_cancelled, H.
Qed.

Lemma replicate_pending_no_cancelled n : Cancelled ∉ replicate n Pending.
Proof. intros H. apply elem_of_replicate in H as [H _]. discriminate. Qed.

Lemma gather_loop_first_failure coros pre : forall k post e states,
  Forall (succeeded coros) pre ->
  coros !! k = Some (Evox.Raise e) ->
  gather_loop coros (pre ++ k :: post)%list states
  = (Some e, <[k := Finished]> (mark_all pre states)).
Proof.
  induction pre as [|j pre IH]; intros k post e states Hpre Hk; cbn.
  - rewrite Hk. reflexivity.
  - inversion Hpre as [|? ? [v Hv] Hrest]; subst.
    rewrite Hv. apply IH; assumption.
Qed.

Lemma first_failure_exists coros : forall completion : list nat,
  (forall j, j ∈ completion -> is_Some (coros !! j)) ->
  (exists j e, j ∈ completion /\ coros !! j = Some (Evox.Raise e)) ->
  exists pre k post e,
    completion = (pre ++ k :: post)%list
    /\ Forall (succeeded coros) pre
    /\ coros !! k = Some (Evox.Raise e).
Proof.
  induction completion as [|i completion IH]; intros Hdom (j & e & Hin & Hj).
  - inversion Hin.
  - destruct (coros !! i) as [[v|e']|] eqn:Hi.
    + destruct IH as (pre & k & post & e0 & -> & Hpre & Hk).
      * intros j' Hj'. apply Hdom. right. assumption.
      * exists j, e. split; [|assumption].
        apply elem_of_cons in Hin as [->|Hin]; [congruence|assumption].
      * exists (i :: pre), k, post, e0. repeat split; try assumption.
        constructor; [exists v; assumption|assumption].
    + exists [], i, completion, e'. repeat split; [constructor|assumption].
    + destruct (Hdom i) as [x Hx]; [left|congruence].
Qed.

End FanOut.

(** *** The order of the results *)
Section FanOutOrder.
Import Scheduler.

Lemma mark_all_length done : forall states : list TaskState,
  length (mark_all done states) = length states.
Proof.
  unfold mark_all.
  induction done as [|i done IH]; intros states; [reflexivity|].
  cbn. rewrite IH. apply length_insert.
Qed.

Lemma mark_all_lookup_in done : forall (states : list TaskState) j,
  j ∈ done -> (j < length states)%nat ->
  mark_all done states !! j = Some Finished.
Proof.
  induction done as [|i done IH]; intros states j Hin Hlt.
  - inversion Hin.
  - change (mark_all (i :: done) states)
      with (mark_all done (<[i := Finished]> states)).
    destruct (decide (j ∈ done)) as [Hd|Hd].
    + apply IH; [assumption|]. rewrite length_insert. assumption.
    + rewrite mark_all_lookup_notin by assumption.
      apply elem_of_cons in Hin as [->|Hin]; [|contradiction].
      apply list_lookup_insert_eq. assumption.
Qed.

Lemma as_completed_loop_spec coros : forall completion states,
  (forall j, j ∈ completion -> is_Some (coros !! j)) ->
  as_completed_loop coros completion states
  = (in_completion_order coros completion, mark_all completion states).
Proof.
  induction completion as [|i completion IH]; intros states Hdom;
    [reflexivity|].
  destruct (Hdom i) as [c Hc]; [left|].
  cbn. rewrite Hc. cbn.
  rewrite IH by (intros j Hj; apply Hdom; right; assumption).
  destruct c; reflexivity.
Qed.

Lemma in_completion_order_length coros completion :
  (forall j, j ∈ completion -> is_Some (coros !! j)) ->
  length (in_completion_order coros completion) = length completion.
Proof.
  unfold in_completion_order.
  induction completion as [|i completion IH]; intros Hdom; [reflexivity|].
  destruct (Hdom i) as [c Hc]; [left|].
  cbn. rewrite Hc. cbn. f_equal. apply IH.
  intros j Hj. apply Hdom. right. assumption.
Qed.

(** Under PARTIAL_OK the call returns one wrapped outcome per operation,
    in the order in which the operations finished. *)
Lemma partial_ok_follows_completion coros priority concurrency completion :
  (1 <= concurrency)%Z ->
  completion ≡ₚ seq 0 (length coros) ->
  fst (parallel coros priority PARTIAL_OK concurrency completion)
  = Evox.Done (in_completion_order coros completion)
  /\ length (in_completion_order coros completion) = length coros.
Proof.
  intros Hc Hperm.
  assert (Hdom : forall j, j ∈ completion -> is_Some (coros !! j)).
  { intros j Hj. rewrite Hperm in Hj. apply elem_of_seq in Hj.
    apply lookup_lt_is_Some. lia. }
  split.
  - unfold parallel.
    destruct (Z.ltb_spec concurrency 0); [lia|].
    destruct (Z.eqb_spec concurrency 0); [lia|]. cbn [andb].
    rewrite as_completed_loop_spec by assumption.
    replace (forallb is_finished
               (mark_all completion (replicate (length coros) Pending)))
      with true; [reflexivity|].
    symmetry. apply forallb_forall. intros st Hst.
    apply list_elem_of_In, list_elem_of_lookup in Hst as [j Hj].
    assert (Hlt : (j < length coros)%nat).
    { apply lookup_lt_Some in Hj.
      rewrite mark_all_length, length_replicate in Hj. exact Hj. }
    rewrite mark_all_lookup_in in Hj.
    + injection Hj as <-. reflexivity.
    + rewrite Hperm. apply elem_of_seq. lia.
    + rewrite length_replicate. exact Hlt.
  - rewrite in_completion_order_length by assumption.
    rewrite Hperm. apply length_seq.
Qed.

(** [PriorityAwareQueue.gather] returns one slot per request, in the order
    of the requests. *)
Lemma gather_keeps_request_order requests p concurrency :
  (1 <= concurrency)%Z ->
  exists items,
    Evox.gather requests p concurrency = Evox.Done items
    /\ length items = length requests
    /\ forall i r, requests !! i = Some r ->
         items !! i = Some (match r with
                            | Evox.Return v => Evox.ItemResult v
                            | Evox.Raise e => Evox.ItemException e
                            end).
Proof.
  intros Hc. unfold Evox.gather, Evox.semaphore.
  destruct (Z.ltb_spec concurrency 0); [lia|].
  destruct (Z.eqb_spec concurrency 0); [lia|]. cbn [andb].
  eexists. split; [reflexivity|]. split; [apply length_map|].
  intros i r Hr. rewrite list_lookup_fmap, Hr. reflexivity.
Qed.

End FanOutOrder.

(** C7 (the code departs from it): [CallScheduler.parallel] under
    PARTIAL_OK appends the outcomes as the tasks finish.  With operations
    [ok, fail, ok] of which the failing one finishes first, the returned
    list has its wrapped error in the first slot, not the second; the
    sibling [PriorityAwareQueue.gather] returns, for the same operations,
    one slot per operation in the order of the operations. *)
Theorem partial_ok_is_in_completion_order :
  let coros := [Evox.Return "first"; Evox.Raise (Evox.Failure "boom");
                Evox.Return "third"] in
  fst (Scheduler.parallel coros Scheduler.MEDIUM Scheduler.PARTIAL_OK 5
         [1; 0; 2]%nat)
  = Evox.Done [Evox.ItemErrorDict "boom"; Evox.ItemResult "first";
               Evox.ItemResult "third"]
  /\ Evox.gather coros Evox.MEDIUM 5
     = Evox.Done [Evox.ItemResult "first";
                  Evox.ItemException (Evox.Failure "boom");
                  Evox.ItemResult "third"].
Proof. split; reflexivity. Qed.

(** C8, counterexample: five operations of which the third fails first.
    The error propagates, and the four siblings are still pending: none
    has been cancelled. *)
Lemma all_or_nothing_leaves_siblings_running :
  let coros := [Evox.Return "a"; Evox.Return "b";
                Evox.Raise (Evox.Failure "boom");
                Evox.Return "d"; Evox.Return "e"] in
  Scheduler.parallel coros Scheduler.MEDIUM Scheduler.ALL_OR_NOTHING 5
    [2; 0; 1; 3; 4]%nat
  = (Evox.Raised (Evox.Failure "boom"),
     [Scheduler.Pending; Scheduler.Pending; Scheduler.Finished;
      Scheduler.Pending; Scheduler.Pending])
  /\ ~ all_or_nothing_cancels coros 5 [2; 0; 1; 3; 4]%nat.
Proof.
  split; [reflexivity|].
  intros H. destruct H as [_ H].
  - exists 2%nat, (Evox.Failure "boom"). reflexivity.
  - apply (H 0%nat Scheduler.Pending); reflexivity.
Qed.

(** C8, amended: under ALL_OR_NOTHING, with room for at least one
    operation at a time, a batch in which some operation fails raises the
    error of the operation that fails first in completion order, and
    returns no result list.  The operations that had not finished by then
    are left pending, and no operation is cancelled. *)
Theorem all_or_nothing_propagates_first_failure
    (coros : list (Evox.Outcome string)) (priority : Scheduler.Priority)
    (concurrency : Z) (completion : list nat) :
  (1 <= concurrency)%Z ->
  completion ≡ₚ seq 0 (length coros) ->
  (exists i e, coros !! i = Some (Evox.Raise e)) ->
  let r := Scheduler.parallel coros priority Scheduler.ALL_OR_NOTHING
             concurrency completion in
  exists pre k post e,
    completion = (pre ++ k :: post)%list
    /\ Forall (succeeded coros) pre
    /\ coros !! k = Some (Evox.Raise e)
    /\ fst r = Evox.Raised e
    /\ (forall j, j ∈ post -> snd r !! j = Some Scheduler.Pending)
    /\ Scheduler.Cancelled ∉ snd r.
Proof.
  intros Hc Hperm (i & e & Hi) r.
  assert (Hdom : forall j, j ∈ completion -> is_Some (coros !! j)).
  { intros j Hj. rewrite Hperm in Hj. apply elem_of_seq in Hj.
    apply lookup_lt_is_Some. lia. }
  destruct (first_failure_exists coros completion Hdom)
    as (pre & k & post & e0 & Hsplit & Hpre & Hk).
  { exists i, e. split; [|assumption].
    rewrite Hperm. apply elem_of_seq.
    apply lookup_lt_Some in Hi. lia. }
  exists pre, k, post, e0.
  assert (Hr : r = (Evox.Raised e0,
                    <[k := Scheduler.Finished]>
                      (mark_all pre (replicate (length coros)
                                       Scheduler.Pending)))).
  { subst r. unfold Scheduler.parallel.
    destruct (Z.ltb_spec concurrency 0); [lia|].
    destruct (Z.eqb_spec concurrency 0); [lia|]. cbn [andb].
    rewrite Hsplit, (gather_loop_first_failure coros pre k post e0)
      by assumption.
    reflexivity. }
  rewrite Hr. cbn [fst snd]. repeat split; try assumption.
  - intros j Hj.
    assert (Hnodup : NoDup (pre ++ k :: post)%list).
    { rewrite <- Hsplit, Hperm. apply NoDup_seq. }
    apply NoDup_app in Hnodup as (_ & Hdisj & Hpost).
    apply NoDup_cons in Hpost as [Hk_post _].
    rewrite list_lookup_insert_ne by (intros ->; contradiction).
    rewrite mark_all_lookup_notin.
    + apply lookup_replicate. split; [reflexivity|].
      assert (Hin : j ∈ completion)
        by (rewrite Hsplit; apply elem_of_app; right; right; assumption).
      rewrite Hperm in Hin. apply elem_of_seq in Hin. lia.
    + intros Hin. apply (Hdisj j Hin). right. assumption.
  - apply insert_no_cancelled, mark_all_no_cancelled,
      replicate_pending_no_cancelled.
Qed.

Lemma all_or_nothing_propagates_first_failure_witness :
  let coros := [Evox.Return "a"; Evox.Return "b";
                Evox.Raise (Evox.Failure "boom");
                Evox.Return "d"; Evox.Return "e"] in
  exists pre k post e,
    [0; 2; 1; 3; 4]%nat = (pre ++ k :: post)%list
    /\ Forall (succeeded coros) pre
    /\ coros !! k = Some (Evox.Raise e)
    /\ fst (Scheduler.parallel coros Scheduler.LOW Scheduler.ALL_OR_NOTHING
              3 [0; 2; 1; 3; 4]%nat) = Evox.Raised e
    /\ (forall j, j ∈ post ->
          snd (Scheduler.parallel coros Scheduler.LOW
                 Scheduler.ALL_OR_NOTHING 3 [0; 2; 1; 3; 4]%nat) !! j
          = Some Scheduler.Pending)
    /\ Scheduler.Cancelled
         ∉ snd (Scheduler.parallel coros Scheduler.LOW
                  Scheduler.ALL_OR_NOTHING 3 [0; 2; 1; 3; 4]%nat).
Proof.
  intros coros.
  apply (all_or_nothing_propagates_first_failure coros Scheduler.LOW 3
           [0; 2; 1; 3; 4]%nat).
  - lia.
  - cbn. rewrite (Permutation_swap 1%nat 2%nat [3; 4]%nat). reflexivity.
  - exists 2%nat, (Evox.Failure "boom"). reflexivity.
Defined.

(** ** Proof steps shared by the routing facts *)

(** Case analysis on the innermost scrutinee the goal is stuck on. *)
Ltac crunch :=
  repeat (cbn in *;
          match goal with
          | |- context [match ?x with _ => _ end] =>
              lazymatch x with
              | context [match _ with _ => _ end] => fail
              | _ => destruct x eqn:?
              end
          end); cbn in *.

Ltac unfold_monad :=
  unfold Runtime.try_except, Runtime.bind, Runtime.ret, Runtime.raise,
    Runtime.get, Runtime.modify, Runtime.log.

Ltac unfold_lookup :=
  unfold CachedRegistry.should_use_router,
    CachedRegistry.get_effective_connection_method,
    CachedRegistry._get_cached_connection_method,
    CachedRegistry._cache_connection_method,
    RegistryManager.get_service_by_name, RegistryManager._get_session,
    Redis.GET, Redis.SETEX, Redis.DEL, Redis.command;
  unfold_monad.

Ltac unfold_calls :=
  unfold ServiceProxy._call_via_router, ServiceProxy._get_router_module,
    ServiceProxy._call_via_rest;
  unfold_monad.

(** ** The cached registry *)
Section CachedRegistryFacts.
Import Runtime.

Lemma of_value_value m : Registry.of_value (Registry.value m) = Some m.
Proof. destruct m; reflexivity. Qed.

Lemma truthy_value m : truthy (Registry.value m) = true.
Proof. destruct m; reflexivity. Qed.

Lemma live_fresh c v n : Redis.live c (Some (v, (c + S n)%nat)) = Some v.
Proof.
  unfold Redis.live. destruct (Nat.leb_spec c (c + S n)); [reflexivity|lia].
Qed.

Lemma get_effective_frame s w :
  frame w (snd (CachedRegistry.get_effective_connection_method s w)).
Proof.
  unfold_lookup.
  destruct w as [d r a u c rc im h t].
  crunch; split; reflexivity.
Qed.

Lemma get_effective_fst s w table :
  truthy s = true -> db w = Some table ->
  fst (CachedRegistry.get_effective_connection_method s w)
  = Return (decision w table s).
Proof.
  intros Hs Hdb. unfold decision, cached_decision, registry_decision.
  unfold_lookup. rewrite Hs.
  destruct w as [d r a u c rc im h t]. cbn in Hdb. subst d.
  crunch; congruence.
Qed.

Lemma get_effective_redis_untouched s w :
  redis_available w = false \/ redis_up w = false ->
  redis (snd (CachedRegistry.get_effective_connection_method s w)) = redis w.
Proof.
  unfold_lookup. destruct w as [d r a u c rc im h t]. cbn.
  intros [->| ->]; crunch; reflexivity.
Qed.

Lemma get_effective_stable s w table :
  truthy s = true -> db w = Some table ->
  decision (snd (CachedRegistry.get_effective_connection_method s w)) table s
  = decision w table s.
Proof.
  intros Hs Hdb. unfold decision, cached_decision, registry_decision.
  unfold_lookup. rewrite Hs.
  destruct w as [d r a u c rc im h t]. cbn in Hdb. subst d.
  cbn. destruct a, u; cbn; try (destruct (table !! s); reflexivity).
  destruct (Redis.live c (r !! CachedRegistry.method_key s)) as [bytes|] eqn:Hlive;
    cbn.
  - destruct (truthy bytes) eqn:Hb; cbn.
    + destruct (Registry.of_value bytes) eqn:Hv; cbn.
      * rewrite Hlive, Hb, Hv. reflexivity.
      * destruct (table !! s) as [svc|]; cbn.
        -- rewrite lookup_insert_eq.
           change (c + CachedRegistry.CACHE_TTL)%nat with (c + S 299)%nat.
           rewrite live_fresh, truthy_value, of_value_value. reflexivity.
        -- rewrite lookup_delete_eq. reflexivity.
    + destruct (table !! s) as [svc|]; cbn.
      * rewrite lookup_insert_eq.
        change (c + CachedRegistry.CACHE_TTL)%nat with (c + S 299)%nat.
        rewrite live_fresh, truthy_value, of_value_value. reflexivity.
      * rewrite Hlive, Hb. reflexivity.
  - destruct (table !! s) as [svc|]; cbn.
    + rewrite lookup_insert_eq.
      change (c + CachedRegistry.CACHE_TTL)%nat with (c + S 299)%nat.
      rewrite live_fresh, truthy_value, of_value_value. reflexivity.
    + rewrite Hlive. reflexivity.
Qed.

Lemma get_effective_trace s w :
  exists new,
    trace (snd (CachedRegistry.get_effective_connection_method s w))
    = (trace w ++ new)%list
    /\ Forall quiet new.
Proof.
  unfold_lookup.
  destruct w as [d r a u c rc im h t].
  crunch;
    first [ exists []; rewrite app_nil_r; split; [reflexivity|constructor]
          | rewrite <- ?app_assoc; eexists; split; [reflexivity|];
            repeat constructor ].
Qed.

Lemma should_use_router_eq s w :
  CachedRegistry.should_use_router s w
  = match CachedRegistry.get_effective_connection_method s w with
    | (Return m, w') =>
        (Return (Registry.ConnectionMethod_eqb m Registry.ROUTER), w')
    | (Raise e, w') => (Raise e, w')
    end.
Proof.
  unfold CachedRegistry.should_use_router.
  destruct (truthy s) eqn:Hs; cbn.
  - reflexivity.
  - unfold CachedRegistry.get_effective_connection_method. rewrite Hs.
    reflexivity.
Qed.

Lemma ConnectionMethod_eqb_eq a b :
  Registry.ConnectionMethod_eqb a b = true <-> a = b.
Proof. destruct a, b; cbn; split; congruence. Qed.

(** The cached decision says "use the router" exactly when the name is
    valid and the decision is ROUTER. *)
Lemma should_use_router_true s w table :
  db w = Some table ->
  fst (CachedRegistry.should_use_router s w) = Return true ->
  truthy s = true /\ decision w table s = Registry.ROUTER.
Proof.
  intros Hdb H. rewrite should_use_router_eq in H.
  destruct (truthy s) eqn:Hs.
  - split; [reflexivity|].
    pose proof (get_effective_fst s w table Hs Hdb) as Hfst.
    destruct (CachedRegistry.get_effective_connection_method s w)
      as [[m|e] w']; cbn in *; [|discriminate].
    injection Hfst as <-. injection H as H.
    apply ConnectionMethod_eqb_eq. exact H.
  - unfold CachedRegistry.get_effective_connection_method in H.
    rewrite Hs in H. discriminate.
Qed.

Lemma get_effective_eq s w table :
  truthy s = true -> db w = Some table ->
  CachedRegistry.get_effective_connection_method s w
  = (Return (decision w table s), after_lookup s w).
Proof.
  intros Hs Hdb. pose proof (get_effective_fst s w table Hs Hdb) as H.
  unfold after_lookup.
  destruct (CachedRegistry.get_effective_connection_method s w).
  cbn in *. congruence.
Qed.

Lemma update_service_health_cached_spec s status ts w table :
  db w = Some table ->
  let timestamp := default (clock w) ts in
  let w' := snd (CachedRegistry.update_service_health_cached s status ts w) in
  fst (CachedRegistry.update_service_health_cached s status ts w) = Return tt
  /\ db w'
     = Some (match table !! s with
             | Some service =>
                 <[s := Registry.with_health status timestamp service]> table
             | None => table
             end)
  /\ redis w'
     = (if redis_available w && redis_up w then
          delete (CachedRegistry.method_key s)
            (<[CachedRegistry.health_key s :=
                 (CachedRegistry.health_data status timestamp,
                  (clock w + CachedRegistry.HEALTH_CACHE_TTL)%nat)]>
               (redis w))
        else redis w)
  /\ redis_available w' = redis_available w
  /\ redis_up w' = redis_up w
  /\ clock w' = clock w
  /\ router_cache w' = router_cache w
  /\ importable w' = importable w
  /\ http w' = http w
  /\ trace w'
     = (trace w ++ health_write_events w table s status timestamp)%list.
Proof.
  intros Hdb. unfold health_write_events.
  unfold CachedRegistry.update_service_health_cached,
    RegistryManager.update_health_status, RegistryManager._get_session,
    Redis.SETEX, Redis.DEL, Redis.command.
  unfold_monad.
  destruct w as [d r a u c rc im h t]. cbn in Hdb. subst d. cbn.
  destruct (table !! s) as [svc|]; cbn;
    destruct a, u; cbn; rewrite <- ?app_assoc, ?app_nil_r;
    repeat split; reflexivity.
Qed.

End CachedRegistryFacts.

(** ** The service proxy *)
Section ServiceProxyFacts.
Import Runtime.

(** The Local attempt reads the router cache and the importable modules,
    and nothing else of the world. *)
Lemma call_via_router_fst service m args w w' :
  router_cache w' = router_cache w -> importable w' = importable w ->
  fst (ServiceProxy._call_via_router service m args w')
  = fst (ServiceProxy._call_via_router service m args w).
Proof.
  unfold_calls.
  destruct w as [d r a u c rc im h t], w' as [d' r' a' u' c' rc' im' h' t'].
  cbn. intros -> ->. crunch; reflexivity.
Qed.

Lemma call_via_router_world service m args w :
  let w' := snd (ServiceProxy._call_via_router service m args w) in
  db w' = db w /\ redis w' = redis w
  /\ redis_available w' = redis_available w /\ redis_up w' = redis_up w
  /\ clock w' = clock w /\ http w' = http w
  /\ exists new, trace w' = (trace w ++ new)%list /\ Forall is_router_call new.
Proof.
  unfold_calls. destruct w as [d r a u c rc im h t].
  crunch; repeat split;
    first [ exists []; rewrite app_nil_r; split; [reflexivity|constructor]
          | eexists; split; [reflexivity|]; repeat constructor ].
Qed.

(** The Remote attempt reads what the network answers, and nothing else. *)
Lemma call_via_rest_fst service m args w w' :
  http w' = http w ->
  fst (ServiceProxy._call_via_rest service m args w')
  = fst (ServiceProxy._call_via_rest service m args w).
Proof.
  unfold_calls.
  destruct w as [d r a u c rc im h t], w' as [d' r' a' u' c' rc' im' h' t'].
  cbn. intros ->. crunch; reflexivity.
Qed.

Lemma call_via_rest_db service m args w :
  db (snd (ServiceProxy._call_via_rest service m args w)) = db w.
Proof.
  unfold_calls. destruct w as [d r a u c rc im h t]. crunch; reflexivity.
Qed.

Lemma call_via_rest_world service m args w rest_url :
  Registry.rest_url service = Some rest_url ->
  snd (ServiceProxy._call_via_rest service m args w)
  = emit (RestPost (endpoint rest_url m)) w.
Proof.
  intros Hurl. unfold_calls. rewrite Hurl. unfold endpoint.
  destruct w as [d r a u c rc im h t].
  crunch; reflexivity.
Qed.

Lemma get_service_by_name_eq s w table :
  db w = Some table ->
  RegistryManager.get_service_by_name s w = (Return (table !! s), w).
Proof.
  intros Hdb. unfold RegistryManager.get_service_by_name,
    RegistryManager._get_session, bind, ret. rewrite Hdb. reflexivity.
Qed.

Lemma after_lookup_frame s w : frame w (after_lookup s w).
Proof. apply get_effective_frame. Qed.

Lemma after_lookup_db s w : db (after_lookup s w) = db w.
Proof. apply after_lookup_frame. Qed.

End ServiceProxyFacts.

(** ** Facts about the health write and the failure path *)
Section RoutingFacts.
Import Runtime.

Lemma append_inj_l (a b c : string) : a ++ b = a ++ c -> b = c.
Proof. induction a as [|x a IH]; cbn; intros H; [exact H|]. injection H. exact IH. Qed.

Lemma method_key_ne_health_key s :
  CachedRegistry.method_key s <> CachedRegistry.health_key s.
Proof.
  unfold CachedRegistry.method_key, CachedRegistry.health_key.
  intros H. apply append_inj_l, append_inj_l in H. discriminate.
Qed.

Lemma frame_trans w1 w2 w3 : frame w1 w2 -> frame w2 w3 -> frame w1 w3.
Proof. intros [] []. split; congruence. Qed.

Lemma after_failure_spec s status message w table :
  db w = Some table ->
  let w' := after_failure s status message w in
  db w'
  = Some (match table !! s with
          | Some service =>
              <[s := Registry.with_health status (clock w) service]> table
          | None => table
          end)
  /\ redis w'
     = (if redis_available w && redis_up w then
          delete (CachedRegistry.method_key s)
            (<[CachedRegistry.health_key s :=
                 (CachedRegistry.health_data status (clock w),
                  (clock w + CachedRegistry.HEALTH_CACHE_TTL)%nat)]>
               (redis w))
        else redis w)
  /\ redis_available w' = redis_available w
  /\ redis_up w' = redis_up w
  /\ clock w' = clock w
  /\ http w' = http w
  /\ trace w'
     = (trace w ++ Log "print" message
          :: health_write_events w table s status (clock w))%list.
Proof.
  intros Hdb w'. subst w'. unfold after_failure.
  set (w0 := emit (Log "print" message) w).
  destruct (update_service_health_cached_spec s status (Some (clock w0)) w0
              table Hdb)
    as (_ & Hd & Hr & Ha & Hu & Hc & _ & _ & Hh & Ht).
  rewrite Hd, Hr, Ha, Hu, Hc, Hh, Ht. subst w0. cbn.
  rewrite <- app_assoc. repeat split; reflexivity.
Qed.



Lemma effective_of_down service timestamp :
  Registry.get_effective_connection_method
    (Registry.with_health "down" timestamp service)
  <> Registry.ROUTER.
Proof.
  unfold Registry.get_effective_connection_method. cbn.
  destruct (Registry.is_active service); cbn; [|discriminate].
  destruct (Registry.connection_method service); cbn;
    rewrite ?andb_false_r; discriminate.
Qed.

Lemma health_write_events_frame w w' table s status timestamp :
  redis_available w' = redis_available w -> redis_up w' = redis_up w ->
  health_write_events w' table s status timestamp
  = health_write_events w table s status timestamp.
Proof.
  unfold health_write_events, cache_write_events. intros -> ->. reflexivity.
Qed.

End RoutingFacts.

(** C2, counterexample: the cache store does not answer while the health
    of [ai_svc] is written as "down", so the write of the snapshot raises,
    the failure is logged and the entry "router" is left in the store.
    When the store answers again, one second later, the lookup returns
    the stale ROUTER, although the registry now gives DISABLED. *)
Lemma stale_router_after_cache_outage :
  let w0 := world false (Runtime.TransportError "unreachable") in
  let w1 := snd (CachedRegistry.update_service_health_cached
                   "ai_svc" "down" None w0) in
  CachedRegistry.update_service_health_cached "ai_svc" "down" None w0
  = (Runtime.Return tt, w1)
  /\ Runtime.redis w1 !! CachedRegistry.method_key "ai_svc"
     = Some ("router", 300%nat)
  /\ fst (CachedRegistry.get_effective_connection_method "ai_svc"
            (Runtime.environment 1 true w1))
     = Runtime.Return Registry.ROUTER
  /\ recomputed w1 "ai_svc" = Runtime.Return Registry.DISABLED
  /\ ~ health_write_invalidates w0 "ai_svc" "down" None.
Proof.
  cbv zeta.
  assert (H1 : CachedRegistry.update_service_health_cached "ai_svc" "down" None
                 (world false (Runtime.TransportError "unreachable"))
               = (Runtime.Return tt,
                  snd (CachedRegistry.update_service_health_cached
                         "ai_svc" "down" None
                         (world false (Runtime.TransportError "unreachable")))))
    by (vm_compute; reflexivity).
  assert (H3 : fst (CachedRegistry.get_effective_connection_method "ai_svc"
                      (Runtime.environment 1 true
                         (snd (CachedRegistry.update_service_health_cached
                                 "ai_svc" "down" None
                                 (world false
                                    (Runtime.TransportError "unreachable"))))))
               = Runtime.Return Registry.ROUTER)
    by (vm_compute; reflexivity).
  split; [exact H1|]. split; [vm_compute; reflexivity|].
  split; [exact H3|]. split; [vm_compute; reflexivity|].
  intros H. destruct (H _ H1 1%nat true) as [Hnone _].
  vm_compute in Hnone. discriminate.
Qed.

(** C2, amended: when the cache store answers during the health write for
    [s] (or the process runs without the cache), the write removes the
    cached effective-mode entry of [s]; whatever time passes and whether
    or not the store answers later, no cached decision for [s] is visible
    until a lookup recomputes it, every lookup of [s] gives what the
    registry gives, and after a write of "down" no lookup returns ROUTER.
    (When the store does not answer during the write, the failure is
    logged and an earlier entry lives on until its TTL runs out.) *)
Theorem health_write_invalidates_cached_mode
    (w w1 : Runtime.World) (s status : string) (timestamp : option nat) :
  Runtime.redis_available w = false \/ Runtime.redis_up w = true ->
  CachedRegistry.update_service_health_cached s status timestamp w
  = (Runtime.Return tt, w1) ->
  (Runtime.redis_available w = true ->
   Runtime.redis w1 !! CachedRegistry.method_key s = None)
  /\ health_write_invalidates w s status timestamp
  /\ (status = "down" ->
      forall elapsed up,
        fst (CachedRegistry.get_effective_connection_method s
               (Runtime.environment elapsed up w1))
        <> Runtime.Return Registry.ROUTER).
Proof.
  intros Hcache Hwrite.
  destruct (Runtime.db w) as [table|] eqn:Hdb.
  2:{ exfalso. revert Hwrite.
      unfold CachedRegistry.update_service_health_cached,
        RegistryManager.update_health_status, RegistryManager._get_session.
      unfold_monad. rewrite Hdb. discriminate. }
  destruct (update_service_health_cached_spec s status timestamp w table Hdb)
    as (_ & Hd & Hr & Ha & _).
  rewrite Hwrite in Hd, Hr, Ha. cbn [snd] in Hd, Hr, Ha.
  assert (Hgone : Runtime.redis_available w = true ->
                  Runtime.redis w1 !! CachedRegistry.method_key s = None).
  { intros Hav. rewrite Hr, Hav.
    destruct Hcache as [Hoff|Hup]; [congruence|].
    rewrite Hup. cbn. apply lookup_delete_eq. }
  assert (Hnone : forall elapsed up,
            cached_decision (Runtime.environment elapsed up w1) s = None).
  { intros elapsed up. unfold cached_decision. cbn. rewrite Ha.
    destruct (Runtime.redis_available w) eqn:Hav; [|reflexivity].
    rewrite (Hgone eq_refl). cbn. destruct up; reflexivity. }
  assert (Hlookup : forall elapsed up,
            fst (CachedRegistry.get_effective_connection_method s
                   (Runtime.environment elapsed up w1))
            = recomputed w1 s).
  { intros elapsed up. unfold recomputed. rewrite Hd.
    destruct (truthy s) eqn:Hs.
    - erewrite get_effective_fst; [|exact Hs|cbn; exact Hd].
      unfold decision. rewrite Hnone. reflexivity.
    - unfold CachedRegistry.get_effective_connection_method.
      rewrite Hs. reflexivity. }
  split; [exact Hgone|]. split.
  - intros w1' Hwrite'. rewrite Hwrite in Hwrite'.
    injection Hwrite' as <-. intros elapsed up. split; [apply Hnone|apply Hlookup].
  - intros -> elapsed up. rewrite Hlookup. unfold recomputed. rewrite Hd.
    destruct (truthy s); [|discriminate].
    unfold registry_decision.
    destruct (table !! s) as [service|] eqn:Hs.
    + rewrite lookup_insert_eq. intros [= H].
      revert H. apply effective_of_down.
    + rewrite Hs. discriminate.
Qed.

Lemma health_write_invalidates_cached_mode_witness :
  let w0 := world true (Runtime.TransportError "unreachable") in
  let w1 := snd (CachedRegistry.update_service_health_cached
                   "ai_svc" "down" None w0) in
  Runtime.redis w1 !! CachedRegistry.method_key "ai_svc" = None
  /\ health_write_invalidates w0 "ai_svc" "down" None
  /\ fst (CachedRegistry.get_effective_connection_method "ai_svc"
            (Runtime.environment 1 true w1))
     <> Runtime.Return Registry.ROUTER.
Proof.
  cbv zeta.
  destruct (health_write_invalidates_cached_mode
              (world true (Runtime.TransportError "unreachable"))
              (snd (CachedRegistry.update_service_health_cached
                      "ai_svc" "down" None
                      (world true (Runtime.TransportError "unreachable"))))
              "ai_svc" "down" None)
    as (Hgone & Hinv & Hdown).
  - right. reflexivity.
  - vm_compute. reflexivity.
  - split; [apply Hgone; reflexivity|].
    split; [exact Hinv|]. apply Hdown. reflexivity.
Defined.

(** C10, counterexample: the empty name is unknown to an empty registry,
    and its lookup raises [ValueError]. *)
Lemma empty_name_lookup_raises :
  let w := Runtime.set_db (Some ∅)
             (world true (Runtime.TransportError "unreachable")) in
  fst (CachedRegistry.get_effective_connection_method EmptyString w)
  = Runtime.Raise
      (Runtime.ValueError "service_name must be a non-empty string")
  /\ ~ lookup_never_raises_for_unknown w EmptyString.
Proof.
  cbv zeta. split; [reflexivity|].
  intros H. destruct (H ∅ eq_refl (lookup_empty _)) as [method Hm].
  discriminate.
Qed.

(** C10, amended: for every non-empty service name that is unknown to the
    registry the lookup does not raise, whether or not the cache store
    answers: it returns the decision of a live cache entry for the name
    if there is one, and otherwise logs a warning and returns REST. *)
Theorem unknown_service_defaults_to_rest
    (w : Runtime.World) (s : string)
    (table : gmap string Registry.RegisteredService) :
  s <> EmptyString ->
  Runtime.db w = Some table ->
  table !! s = None ->
  let r := CachedRegistry.get_effective_connection_method s w in
  fst r = Runtime.Return (default Registry.REST (cached_decision w s))
  /\ (cached_decision w s = None ->
      exists earlier,
        Runtime.trace (snd r)
        = (Runtime.trace w ++ earlier
           ++ [Runtime.Log "warning"
                 ("Service " ++ s
                  ++ " not found in registry, defaulting to REST")])%list).
Proof.
  intros Hne Hdb Hunknown r.
  assert (Hs : truthy s = true) by (destruct s; [congruence|reflexivity]).
  split.
  - subst r. rewrite (get_effective_fst s w table Hs Hdb).
    unfold decision, registry_decision. rewrite Hunknown. reflexivity.
  - subst r. unfold cached_decision. unfold_lookup. rewrite Hs.
    destruct w as [d rd a u c rc im h t]. cbn in Hdb. subst d. cbn.
    destruct a, u; cbn.
    + destruct (Redis.live c (rd !! CachedRegistry.method_key s))
        as [bytes|]; cbn.
      * destruct (truthy bytes); cbn.
        -- destruct (Registry.of_value bytes); cbn; [discriminate|].
           rewrite Hunknown. cbn. intros _. eexists [_].
           rewrite <- app_assoc. reflexivity.
        -- rewrite Hunknown. cbn. intros _. exists []. reflexivity.
      * rewrite Hunknown. cbn. intros _. exists []. reflexivity.
    + rewrite Hunknown. cbn. intros _. eexists [_].
      rewrite <- app_assoc. reflexivity.
    + rewrite Hunknown. cbn. intros _. exists []. reflexivity.
    + rewrite Hunknown. cbn. intros _. exists []. reflexivity.
Qed.

Lemma unknown_service_defaults_to_rest_witness :
  let w := world false (Runtime.TransportError "unreachable") in
  fst (CachedRegistry.get_effective_connection_method "ghost_svc" w)
  = Runtime.Return Registry.REST
  /\ Runtime.Log "warning"
       "Service ghost_svc not found in registry, defaulting to REST"
     ∈ Runtime.trace
         (snd (CachedRegistry.get_effective_connection_method "ghost_svc" w)).
Proof.
  cbv zeta.
  destruct (unknown_service_defaults_to_rest
              (world false (Runtime.TransportError "unreachable"))
              "ghost_svc" {[ "ai_svc" := ai_svc ]})
    as (Hret & Hlog).
  - discriminate.
  - reflexivity.
  - vm_compute. reflexivity.
  - split; [exact Hret|].
    destruct (Hlog eq_refl) as [earlier ->].
    rewrite !elem_of_app. right. right. left.
Defined.

(** ** Calls that the cached decision sends to the router

    A call [m(args)] through the proxy of [s], in a world where [s] is
    registered and active, has a router, and the cached decision is to
    use it. *)
Section RouterBranch.
Import Runtime.

Variables (s m : string) (args : list Value) (w : World).
Variable table : gmap string Registry.RegisteredService.
Variable service : Registry.RegisteredService.

Hypothesis registry_configured : db w = Some table.
Hypothesis registered : table !! s = Some service.
Hypothesis active : Registry.is_active service = true.
Hypothesis routed : fst (CachedRegistry.should_use_router s w) = Return true.
Hypothesis has_router : Registry.has_router service = true.

(** The world after the two lookups with which the call begins. *)
Let w2 : World := after_lookup s (after_lookup s w).

Lemma lookups_frame : frame w w2.
Proof.
  apply (frame_trans _ (after_lookup s w)); apply after_lookup_frame.
Qed.

(** [_execute_service_call] from the router attempt on. *)
Lemma execute_via_router :
  ServiceProxy._execute_service_call s m args w
  = match ServiceProxy._call_via_router service m args w2 with
    | (Return v, w3) => (Return v, w3)
    | (Raise e, w3) =>
        let w4 := after_failure s "degraded" (router_failed_message s m e) w3 in
        if truthy_opt (Registry.rest_url service) then
          match ServiceProxy._call_via_rest service m args w4 with
          | (Return v, w5) => (Return v, w5)
          | (Raise e', w5) =>
              (Raise (ServiceUnavailableError s ["router"; "rest"]),
               after_failure s "down" (rest_failed_message s m e') w5)
          end
        else (Raise (ServiceUnavailableError s ["router"]), w4)
    end.
Proof.
  destruct (should_use_router_true s w table registry_configured routed)
    as [Hname Hdec].
  unfold ServiceProxy._execute_service_call.
  unfold bind at 1.
  rewrite (get_service_by_name_eq s w table registry_configured),
    registered, active.
  cbn [negb].
  unfold bind at 1. rewrite should_use_router_eq.
  rewrite (get_effective_eq s w table Hname registry_configured), Hdec.
  cbn [Registry.ConnectionMethod_eqb].
  unfold bind at 1.
  assert (Hdb1 : db (after_lookup s w) = Some table)
    by (rewrite after_lookup_db; exact registry_configured).
  rewrite (get_effective_eq s _ table Hname Hdb1).
  unfold after_lookup at 1.
  rewrite (get_effective_stable s w table Hname registry_configured), Hdec.
  rewrite has_router. cbn [andb negb Registry.ConnectionMethod_eqb].
  fold (after_lookup s w). fold w2.
  assert (Hdb2 : db w2 = Some table)
    by (unfold w2; rewrite !after_lookup_db; exact registry_configured).
  unfold bind at 1. unfold try_except at 1. unfold bind at 1.
  pose proof (call_via_router_world service m args w2) as Hworld.
  destruct (ServiceProxy._call_via_router service m args w2) as [[v|e] w3].
  - reflexivity.
  - cbn in Hworld. destruct Hworld as (Hdb3 & _).
    rewrite Hdb2 in Hdb3.
    unfold ret at 1.
    unfold bind at 1, log at 1, modify at 1.
    unfold bind at 1, get at 1.
    unfold bind at 1.
    set (w3' := emit (Log "print"
                        ("Router call failed for " ++ s ++ "." ++ m ++ ": "
                         ++ str_exn e)) w3).
    assert (Hdb3' : db w3' = Some table) by exact Hdb3.
    destruct (update_service_health_cached_spec s "degraded"
                (Some (clock w3')) w3' table Hdb3')
      as (Hok & Hdb4 & _).
    unfold after_failure, router_failed_message. fold w3'.
    destruct (CachedRegistry.update_service_health_cached s "degraded"
                (Some (clock w3')) w3') as [r4 w4].
    cbn in Hok, Hdb4. subst r4. unfold ret at 1. cbn [snd].
    destruct (truthy_opt (Registry.rest_url service)); cbn [andb].
    + unfold bind at 1. unfold try_except at 1. unfold bind at 1.
      pose proof (call_via_rest_db service m args w4) as Hrest.
      destruct (ServiceProxy._call_via_rest service m args w4) as [[v|e'] w5];
        cbn in Hrest.
      * reflexivity.
      * unfold ret at 1.
        unfold bind at 1, log at 1, modify at 1.
        unfold bind at 1, get at 1.
        unfold bind at 1.
        set (w5' := emit (Log "print"
                            ("REST call failed for " ++ s ++ "." ++ m ++ ": "
                             ++ str_exn e')) w5).
        assert (Hdb5 : db w5' = Some
                  (<[s := Registry.with_health "degraded"
                            (default (clock w3') (Some (clock w3'))) service]>
                     table)).
        { subst w5'. cbn. rewrite Hrest. rewrite registered in Hdb4.
          exact Hdb4. }
        destruct (update_service_health_cached_spec s "down"
                    (Some (clock w5')) w5' _ Hdb5) as (Hok5 & _).
        unfold after_failure, rest_failed_message. fold w5'.
        destruct (CachedRegistry.update_service_health_cached s "down"
                    (Some (clock w5')) w5') as [r6 w6].
        cbn in Hok5. subst r6. reflexivity.
    + reflexivity.
Qed.


(** The router attempt gives in [w2] what it gives in [w]. *)
Lemma router_attempt_in_w2 :
  fst (ServiceProxy._call_via_router service m args w2)
  = fst (ServiceProxy._call_via_router service m args w).
Proof. apply call_via_router_fst; apply lookups_frame. Qed.

(** The world in which the Remote mode is tried after the Local attempt
    has failed. *)
Lemma local_failure_world e w3 :
  ServiceProxy._call_via_router service m args w2 = (Raise e, w3) ->
  let w4 := after_failure s "degraded" (router_failed_message s m e) w3 in
  db w4 = Some (<[s := Registry.with_health "degraded" (clock w) service]> table)
  /\ redis w4
     = (if redis_available w && redis_up w then
          delete (CachedRegistry.method_key s)
            (<[CachedRegistry.health_key s :=
                 (CachedRegistry.health_data "degraded" (clock w),
                  (clock w + CachedRegistry.HEALTH_CACHE_TTL)%nat)]>
               (redis w2))
        else redis w2)
  /\ http w4 = http w
  /\ exists lookups calls,
       trace w4
       = (trace w ++ (lookups ++ calls
                      ++ [Log "print" (router_failed_message s m e)])
          ++ health_write_events w table s "degraded" (clock w))%list
       /\ Forall quiet lookups /\ Forall is_router_call calls.
Proof.
  intros Hcall w4.
  destruct lookups_frame as [Fd Fa Fu Fc _ _ Fh].
  destruct (get_effective_trace s w) as (n1 & Ht1 & Hq1).
  destruct (get_effective_trace s (after_lookup s w)) as (n2 & Ht2 & Hq2).
  fold (after_lookup s w) in Ht1.
  fold (after_lookup s (after_lookup s w)) in Ht2. fold w2 in Ht2.
  pose proof (call_via_router_world service m args w2) as Hw.
  rewrite Hcall in Hw. cbn [snd] in Hw.
  destruct Hw as (Hd3 & Hr3 & Ha3 & Hu3 & Hc3 & Hh3 & calls & Ht3 & Hcalls).
  assert (Hdb3 : db w3 = Some table) by congruence.
  destruct (after_failure_spec s "degraded" (router_failed_message s m e)
              w3 table Hdb3)
    as (Hd4 & Hr4 & _ & _ & _ & Hh4 & Ht4).
  fold w4 in Hd4, Hr4, Hh4, Ht4.
  rewrite registered in Hd4.
  repeat split.
  - rewrite Hd4. congruence.
  - rewrite Hr4, Hr3, Ha3, Hu3, Hc3, Fa, Fu, Fc. reflexivity.
  - congruence.
  - exists (n1 ++ n2)%list, calls. split; [|split].
    + rewrite Ht4, Ht3, Ht2, Ht1, Hc3, Fc.
      rewrite (health_write_events_frame w w3) by congruence.
      rewrite <- !app_assoc. reflexivity.
    + apply Forall_app. split; assumption.
    + exact Hcalls.
Qed.



(** C4: when the cached decision sends a call to the router of an active
    service with a REST address, and both the router attempt and the REST
    attempt raise, the call raises [ServiceUnavailableError] whose
    attempted methods are exactly "router", "rest" (the labels of the
    Local and Remote modes); it returns no value. *)
Theorem both_modes_failing_raises_unavailable (e_local e_remote : Exn) :
  truthy_opt (Registry.rest_url service) = true ->
  fst (ServiceProxy._call_via_router service m args w) = Raise e_local ->
  fst (ServiceProxy._call_via_rest service m args w) = Raise e_remote ->
  fst (ServiceProxy._execute_service_call s m args w)
  = Raise (ServiceUnavailableError s ["router"; "rest"]).
Proof.
  intros Hurl Hlocal Hremote.
  rewrite execute_via_router. cbv zeta.
  rewrite <- router_attempt_in_w2 in Hlocal.
  destruct (ServiceProxy._call_via_router service m args w2)
    as [[v|e] w3] eqn:Hcall;
    cbn in Hlocal; [discriminate|].
  rewrite Hurl.
  destruct (local_failure_world e w3 Hcall) as (_ & _ & Hh4 & _).
  rewrite <- (call_via_rest_fst service m args w _ Hh4) in Hremote.
  destruct (ServiceProxy._call_via_rest service m args
              (after_failure s "degraded"
                 (router_failed_message s m e) w3)) as [[v|e'] w5];
    cbn in Hremote; [discriminate|].
  reflexivity.
Qed.


(** C9, amended: when the cached decision sends a call to the router of an
    active service whose router module has no attribute [m], the router
    attempt raises [AttributeError], and the proxy treats it as any other
    failure of the router: it writes the health "degraded" and, when the
    service has a REST address, sends the REST request; the call returns
    the answer of the REST attempt, or raises [ServiceUnavailableError]
    with the attempted methods, never the [AttributeError]. *)
Theorem missing_local_method_falls_back
    (router_module : gmap string Handler) :
  fst (ServiceProxy._get_router_module service w) = Return router_module ->
  router_module !! m = None ->
  let r := ServiceProxy._execute_service_call s m args w in
  fst (ServiceProxy._call_via_router service m args w)
  = Raise (AttributeError
             ("Method '" ++ m ++ "' not found on router for "
              ++ Registry.name service))
  /\ fst r
     = (if truthy_opt (Registry.rest_url service) then
          match fst (ServiceProxy._call_via_rest service m args w) with
          | Return v => Return v
          | Raise _ => Raise (ServiceUnavailableError s ["router"; "rest"])
          end
        else Raise (ServiceUnavailableError s ["router"]))
  /\ DbCommit s "degraded" ∈ trace (snd r)
  /\ (forall rest_url,
        Registry.rest_url service = Some rest_url -> truthy rest_url = true ->
        RestPost (endpoint rest_url m) ∈ trace (snd r)).
Proof.
  intros Hmodule Hmissing r.
  assert (Hlocal : fst (ServiceProxy._call_via_router service m args w)
                   = Raise (AttributeError
                              ("Method '" ++ m ++ "' not found on router for "
                               ++ Registry.name service))).
  { unfold ServiceProxy._call_via_router. unfold bind at 1.
    destruct (ServiceProxy._get_router_module service w) as [[md|e] w'];
      cbn in Hmodule; [|discriminate].
    injection Hmodule as ->. cbv beta iota.
    match goal with
    | |- context [match ?x with Some _ => _ | None => _ end] =>
        assert (Hx : x = None) by exact Hmissing; rewrite Hx
    end.
    reflexivity. }
  split; [exact Hlocal|].
  subst r. rewrite execute_via_router. cbv zeta.
  rewrite <- router_attempt_in_w2 in Hlocal.
  destruct (ServiceProxy._call_via_router service m args w2)
    as [[v0|e] w3] eqn:Hcall;
    cbn in Hlocal; [discriminate|].
  destruct (local_failure_world e w3 Hcall)
    as (Hd4 & _ & Hh4 & lookups & calls & Ht4 & _).
  set (w4 := after_failure s "degraded" (router_failed_message s m e) w3) in *.
  assert (Hcommit : DbCommit s "degraded" ∈ trace w4).
  { rewrite Ht4. unfold health_write_events. rewrite registered.
    rewrite !elem_of_app. right. right. left. constructor. }
  destruct (Registry.rest_url service) as [rest_url|] eqn:Hurl;
    cbn [truthy_opt].
  2:{ cbn [fst snd]. split; [reflexivity|]. split; [exact Hcommit|].
      intros ? [=]. }
  destruct (truthy rest_url) eqn:Hset.
  2:{ cbn [fst snd]. split; [reflexivity|]. split; [exact Hcommit|].
      intros ? [= <-]. congruence. }
  rewrite <- (call_via_rest_fst service m args w w4 Hh4).
  pose proof (call_via_rest_world service m args w4 rest_url Hurl) as Hw5.
  destruct (ServiceProxy._call_via_rest service m args w4) as [[v1|e'] w5];
    cbn [fst snd] in *; subst w5.
  - split; [reflexivity|]. split.
    + cbn. rewrite elem_of_app. left. exact Hcommit.
    + intros ? [= <-] _. cbn. rewrite elem_of_app. right. left.
  - split; [reflexivity|].
    set (w5 := emit (RestPost (endpoint rest_url m)) w4).
    assert (Hdb5 : db w5
                   = Some (<[s := Registry.with_health "degraded"
                                    (clock w) service]> table))
      by exact Hd4.
    destruct (after_failure_spec s "down" (rest_failed_message s m e') w5 _
                Hdb5) as (_ & _ & _ & _ & _ & _ & Ht6).
    rewrite Ht6. subst w5. cbn. split.
    + rewrite !elem_of_app. left. left. exact Hcommit.
    + intros ? [= <-] _. rewrite !elem_of_app. left. right. left.
Qed.

End RouterBranch.

Lemma both_modes_failing_raises_unavailable_witness :
  fst (ServiceProxy._execute_service_call "ai_svc" "summarize"
         [Runtime.VData "a long text"]
         (world true (Runtime.Response 503 None)))
  = Runtime.Raise
      (Runtime.ServiceUnavailableError "ai_svc" ["router"; "rest"]).
Proof.
  apply both_modes_failing_raises_unavailable
    with (table := {[ "ai_svc" := ai_svc ]}) (service := ai_svc)
         (e_local := Runtime.HandlerError "model not loaded")
         (e_remote := Runtime.HTTPStatusError 503);
    vm_compute; reflexivity.
Defined.



(** C9, counterexample: [ai_svc] has a router module without [translate]
    and a REST address that answers.  The call does not fail with the
    error of the missing method: the REST request is sent and its answer
    is returned. *)
Lemma missing_local_method_is_retried_via_rest :
  let w := world true
             (Runtime.Response 200 (Some (Runtime.VData "bonjour"))) in
  let r := ServiceProxy._execute_service_call "ai_svc" "translate"
             [Runtime.VData "hello"] w in
  fst (ServiceProxy._call_via_router ai_svc "translate"
         [Runtime.VData "hello"] w)
  = Runtime.Raise
      (Runtime.AttributeError
         "Method 'translate' not found on router for ai_svc")
  /\ fst r = Runtime.Return (Runtime.VData "bonjour")
  /\ Runtime.RestPost "http://localhost:8005/translate"
     ∈ Runtime.trace (snd r)
  /\ ~ unsupported_method_fails_fast w "ai_svc" "translate"
         [Runtime.VData "hello"].
Proof.
  cbv zeta. split; [vm_compute; reflexivity|].
  assert (Hr : fst (ServiceProxy._execute_service_call "ai_svc" "translate"
                      [Runtime.VData "hello"]
                      (world true
                         (Runtime.Response 200
                            (Some (Runtime.VData "bonjour")))))
               = Runtime.Return (Runtime.VData "bonjour"))
    by (vm_compute; reflexivity).
  split; [exact Hr|]. split.
  - apply list_elem_of_In. vm_compute. tauto.
  - intros [[msg Hmsg] _]. rewrite Hr in Hmsg. discriminate.
Qed.

Lemma missing_local_method_falls_back_witness :
  let w := world true (Runtime.Response 503 None) in
  fst (ServiceProxy._execute_service_call "ai_svc" "translate"
         [Runtime.VData "hello"] w)
  = Runtime.Raise
      (Runtime.ServiceUnavailableError "ai_svc" ["router"; "rest"])
  /\ Runtime.RestPost "http://localhost:8005/translate"
     ∈ Runtime.trace
         (snd (ServiceProxy._execute_service_call "ai_svc" "translate"
                 [Runtime.VData "hello"] w)).
Proof.
  cbv zeta.
  destruct (missing_local_method_falls_back "ai_svc" "translate"
              [Runtime.VData "hello"]
              (world true (Runtime.Response 503 None))
              {[ "ai_svc" := ai_svc ]} ai_svc)
    with (router_module := ai_router)
    as (_ & Hret & _ & Hpost);
    try (vm_compute; reflexivity).
  split; [exact Hret|].
  apply (Hpost "http://localhost:8005/"); reflexivity.
Defined.

(** * Further properties of the code *)

(** ** The effective connection method *)
Section EffectiveMethod.
Import Registry.

(** X1: a record that is inactive, or whose preferred method is DISABLED,
    or whose health status is none of "healthy", "degraded", "unknown"
    (for instance "down", or a misspelt status) has the effective method
    DISABLED, whatever its other fields. *)
Theorem unreachable_record_is_disabled (r : RegisteredService) :
  is_active r = false
  \/ connection_method r = DISABLED
  \/ reachable_health (health_status r) = false ->
  get_effective_connection_method r = DISABLED.
Proof.
  unfold get_effective_connection_method, reachable_health, str_in.
  cbn [existsb]. rewrite !orb_false_r.
  intros [H|[H|H]].
  - rewrite H. reflexivity.
  - rewrite H. destruct (is_active r); reflexivity.
  - apply orb_false_iff in H as [H1 H]. apply orb_false_iff in H as [H2 H3].
    rewrite H1, H2, H3. cbn. rewrite !andb_false_r.
    destruct (is_active r), (connection_method r); reflexivity.
Qed.

Lemma unreachable_record_is_disabled_witness :
  get_effective_connection_method
    (with_health "down" 7
       {| name := "ai_svc"; connection_method := ROUTER;
          rest_url := Some "http://localhost:8005"; is_active := true;
          last_health_check := None; health_status := "healthy";
          auto_discovered := true; priority := 100; has_router := true;
          router_path := Some "services.ai_svc.router" |})
  = DISABLED.
Proof.
  apply unreachable_record_is_disabled. right. right. reflexivity.
Defined.

(** X2: what an effective method tells about the record.  ROUTER is only
    given to an active record that prefers ROUTER, has a router and is
    healthy or of unknown health.  REST is only given to an active record
    with a non-empty REST address whose preference is not DISABLED and
    whose health is healthy, degraded or unknown; for a record that
    prefers ROUTER it means that the router is missing or that the health
    is degraded. *)
Theorem effective_method_sound (r : RegisteredService) :
  match get_effective_connection_method r with
  | ROUTER =>
      is_active r = true /\ connection_method r = ROUTER
      /\ has_router r = true
      /\ (health_status r = "healthy" \/ health_status r = "unknown")
  | REST =>
      is_active r = true /\ connection_method r <> DISABLED
      /\ truthy_opt (rest_url r) = true
      /\ reachable_health (health_status r) = true
      /\ (connection_method r = ROUTER ->
          has_router r = false \/ health_status r = "degraded")
  | DISABLED => True
  end.
Proof.
  unfold get_effective_connection_method, reachable_health, str_in.
  cbn [existsb]. rewrite !orb_false_r.
  destruct (is_active r); cbn [negb]; [|exact I].
  destruct (connection_method r) eqn:Hm; cbn [ConnectionMethod_eqb andb];
    [| |exact I].
  - destruct (has_router r); cbn [andb].
    + destruct (String.eqb_spec (health_status r) "healthy") as [Hh|Hh];
        [cbn; auto 10|].
      destruct (String.eqb_spec (health_status r) "unknown") as [Hu|Hu];
        [cbn; auto 10|].
      cbn [orb].
      destruct (truthy_opt (rest_url r)); cbn [andb]; [|exact I].
      destruct (String.eqb_spec (health_status r) "degraded") as [Hd|Hd];
        cbn; [|exact I].
      repeat split; auto; discriminate.
    + destruct (truthy_opt (rest_url r)); cbn [andb]; [|exact I].
      destruct ((health_status r =? "healthy")%string
                || ((health_status r =? "degraded")%string
                    || (health_status r =? "unknown")%string)) eqn:Hh;
        [|exact I].
      repeat split; auto; discriminate.
  - destruct (truthy_opt (rest_url r)); cbn [andb]; [|exact I].
    destruct ((health_status r =? "healthy")%string
              || ((health_status r =? "degraded")%string
                  || (health_status r =? "unknown")%string)) eqn:Hh;
      [|exact I].
    repeat split; auto; discriminate.
Qed.

End EffectiveMethod.

(** ** The cache of decisions *)
Section DecisionCache.
Import Runtime.

Lemma live_after c v ttl elapsed :
  Redis.live (c + elapsed)%nat (Some (v, (c + ttl)%nat))
  = if (elapsed <=? ttl)%nat then Some v else None.
Proof.
  unfold Redis.live.
  destruct (Nat.leb_spec (c + elapsed) (c + ttl)),
    (Nat.leb_spec elapsed ttl); try reflexivity; lia.
Qed.

(** X3: a decision written to the cache is read back unchanged up to and
    including the 300th second after the write, the time at which the
    entry is set to expire, and not at all once the clock has passed
    it. *)
Theorem cached_method_round_trip
    (s : string) (m : Registry.ConnectionMethod) (w : World) (elapsed : nat) :
  redis_up w = true ->
  let w1 := snd (CachedRegistry._cache_connection_method s m w) in
  fst (CachedRegistry._get_cached_connection_method s
         (environment elapsed true w1))
  = Return (if (elapsed <=? CachedRegistry.CACHE_TTL)%nat then Some m
            else None).
Proof.
  intros Hup. unfold_lookup. rewrite Hup.
  cbn -[Nat.leb Redis.live CachedRegistry.CACHE_TTL].
  rewrite lookup_insert_eq, live_after.
  destruct (elapsed <=? CachedRegistry.CACHE_TTL)%nat; [|reflexivity].
  rewrite truthy_value, of_value_value. reflexivity.
Qed.

Lemma cached_method_round_trip_witness :
  let w1 := snd (CachedRegistry._cache_connection_method "ai_svc"
                   Registry.REST
                   (world true (TransportError "unreachable"))) in
  fst (CachedRegistry._get_cached_connection_method "ai_svc"
         (environment 300 true w1)) = Return (Some Registry.REST)
  /\ fst (CachedRegistry._get_cached_connection_method "ai_svc"
            (environment 301 true w1)) = Return None.
Proof.
  cbv zeta. split.
  - apply (cached_method_round_trip "ai_svc" Registry.REST
             (world true (TransportError "unreachable")) 300).
    reflexivity.
  - apply (cached_method_round_trip "ai_svc" Registry.REST
             (world true (TransportError "unreachable")) 301).
    reflexivity.
Defined.

(** X4: for a non-empty name, with the registry at hand, a lookup returns
    the decision of the live cache entry if the process sees one, and
    otherwise the decision computed from the registry (REST for a name
    the registry does not know).  It never writes the registry, and when
    the cache is switched off or the store does not answer it leaves the
    store as it is. *)
Theorem lookup_prefers_live_cache_entry
    (s : string) (w : World)
    (table : gmap string Registry.RegisteredService) :
  s <> EmptyString -> db w = Some table ->
  let r := CachedRegistry.get_effective_connection_method s w in
  fst r = Return (default (registry_decision table s) (cached_decision w s))
  /\ db (snd r) = Some table
  /\ (redis_available w = false \/ redis_up w = false ->
      cached_decision w s = None /\ redis (snd r) = redis w).
Proof.
  intros Hne Hdb r. subst r.
  assert (Hs : truthy s = true) by (destruct s; [congruence|reflexivity]).
  split; [apply (get_effective_fst s w table Hs Hdb)|].
  split.
  - rewrite <- Hdb. apply get_effective_frame.
  - intros Hoff. split; [|apply get_effective_redis_untouched, Hoff].
    unfold cached_decision.
    destruct Hoff as [-> | ->]; [reflexivity|].
    rewrite andb_false_r. reflexivity.
Qed.

Lemma lookup_prefers_live_cache_entry_witness :
  fst (CachedRegistry.get_effective_connection_method "ai_svc"
         (world false (TransportError "unreachable")))
  = Return Registry.ROUTER.
Proof.
  destruct (lookup_prefers_live_cache_entry "ai_svc"
              (world false (TransportError "unreachable"))
              {[ "ai_svc" := ai_svc ]}) as (Hr & _).
  - discriminate.
  - reflexivity.
  - rewrite Hr. vm_compute. reflexivity.
Defined.

Lemma lookup_caches_registry_decision s w table service :
  truthy s = true -> db w = Some table -> table !! s = Some service ->
  redis_available w = true -> redis_up w = true ->
  cached_decision w s = None ->
  redis (snd (CachedRegistry.get_effective_connection_method s w))
    !! CachedRegistry.method_key s
  = Some (Registry.value (Registry.get_effective_connection_method service),
          (clock w + CachedRegistry.CACHE_TTL)%nat).
Proof.
  intros Hs Hdb Hsvc Ha Hu. unfold cached_decision. unfold_lookup.
  rewrite Hs.
  destruct w as [d r a u c rc im h t]. cbn in *. subst d a u. cbn.
  destruct (Redis.live c (r !! CachedRegistry.method_key s)) as [bytes|];
    cbn.
  - destruct (truthy bytes); cbn.
    + destruct (Registry.of_value bytes); cbn; [discriminate|].
      intros _. rewrite Hsvc. cbn. apply lookup_insert_eq.
    + intros _. rewrite Hsvc. cbn. apply lookup_insert_eq.
  - intros _. rewrite Hsvc. cbn. apply lookup_insert_eq.
Qed.

(** X5: the staleness bound.  Once a lookup has computed the decision of
    a registered service and cached it, every lookup up to and including
    the 300th second after it returns that decision whatever the registry
    has become in the meantime; a lookup after that time follows the
    registry again. *)
Theorem cached_decision_outlives_registry_change
    (s : string) (w : World)
    (table table' : gmap string Registry.RegisteredService)
    (service : Registry.RegisteredService) (elapsed : nat) :
  s <> EmptyString -> db w = Some table -> table !! s = Some service ->
  redis_available w = true -> redis_up w = true ->
  cached_decision w s = None ->
  let w1 := snd (CachedRegistry.get_effective_connection_method s w) in
  fst (CachedRegistry.get_effective_connection_method s w)
  = Return (Registry.get_effective_connection_method service)
  /\ fst (CachedRegistry.get_effective_connection_method s
            (environment elapsed true (set_db (Some table') w1)))
     = Return (if (elapsed <=? CachedRegistry.CACHE_TTL)%nat
               then Registry.get_effective_connection_method service
               else registry_decision table' s).
Proof.
  intros Hne Hdb Hsvc Ha Hu Hnone w1.
  assert (Hs : truthy s = true) by (destruct s; [congruence|reflexivity]).
  split.
  - rewrite (get_effective_fst s w table Hs Hdb).
    unfold decision, registry_decision. rewrite Hnone, Hsvc. reflexivity.
  - pose proof (lookup_caches_registry_decision s w table service
                  Hs Hdb Hsvc Ha Hu Hnone) as Hkey.
    pose proof (get_effective_frame s w) as [_ Fa _ Fc _ _ _].
    fold w1 in Hkey, Fa, Fc.
    rewrite (get_effective_fst s
               (environment elapsed true (set_db (Some table') w1))
               table' Hs eq_refl).
    unfold decision, cached_decision.
    cbn -[Nat.leb Redis.live CachedRegistry.CACHE_TTL].
    rewrite Fa, Ha, Hkey, Fc.
    cbn -[Nat.leb Redis.live CachedRegistry.CACHE_TTL].
    rewrite live_after.
    destruct (elapsed <=? CachedRegistry.CACHE_TTL)%nat; [|reflexivity].
    rewrite truthy_value, of_value_value. reflexivity.
Qed.

Lemma cached_decision_outlives_registry_change_witness :
  let w := set_redis ∅ (world true (TransportError "unreachable")) in
  let w1 := snd (CachedRegistry.get_effective_connection_method "ai_svc" w) in
  fst (CachedRegistry.get_effective_connection_method "ai_svc"
         (environment 300 true (set_db (Some ∅) w1)))
  = Return Registry.ROUTER.
Proof.
  cbv zeta.
  destruct (cached_decision_outlives_registry_change "ai_svc"
              (set_redis ∅ (world true (TransportError "unreachable")))
              {[ "ai_svc" := ai_svc ]} ∅ ai_svc 300) as (_ & H).
  - discriminate.
  - reflexivity.
  - vm_compute. reflexivity.
  - reflexivity.
  - reflexivity.
  - vm_compute. reflexivity.
  - exact H.
Defined.

End DecisionCache.

(** ** Health writes *)
Section HealthWrites.
Import Runtime.

(** X6: [update_health_status] of a registered service returns True and
    changes the health status and the time of the last check of that
    service, and nothing else: its other fields (among them the mark
    [auto_discovered]), the other services and the cache store are as
    before. *)
Theorem health_update_changes_only_health
    (s status : string) (timestamp : option nat) (w : World)
    (table : gmap string Registry.RegisteredService)
    (service : Registry.RegisteredService) :
  db w = Some table -> table !! s = Some service ->
  let r := RegistryManager.update_health_status s status timestamp w in
  fst r = Return true
  /\ exists table' service',
       db (snd r) = Some table' /\ table' !! s = Some service'
       /\ Registry.health_status service' = status
       /\ Registry.last_health_check service'
          = Some (default (clock w) timestamp)
       /\ Registry.name service' = Registry.name service
       /\ Registry.connection_method service'
          = Registry.connection_method service
       /\ Registry.rest_url service' = Registry.rest_url service
       /\ Registry.is_active service' = Registry.is_active service
       /\ Registry.auto_discovered service'
          = Registry.auto_discovered service
       /\ Registry.priority service' = Registry.priority service
       /\ Registry.has_router service' = Registry.has_router service
       /\ Registry.router_path service' = Registry.router_path service
       /\ (forall other, other <> s -> table' !! other = table !! other)
       /\ redis (snd r) = redis w.
Proof.
  intros Hdb Hs r. subst r.
  unfold RegistryManager.update_health_status, RegistryManager._get_session.
  unfold_monad. rewrite Hdb, Hs. cbn.
  split; [reflexivity|].
  eexists _, _. split; [reflexivity|]. split; [apply lookup_insert_eq|].
  cbn. repeat split.
  intros other Hne. apply lookup_insert_ne. congruence.
Qed.

Lemma health_update_changes_only_health_witness :
  let r := RegistryManager.update_health_status "ai_svc" "degraded" (Some 42)
             (world true (TransportError "unreachable")) in
  fst r = Return true
  /\ registered_health (snd r) "ai_svc" = Some "degraded".
Proof.
  cbv zeta.
  destruct (health_update_changes_only_health "ai_svc" "degraded" (Some 42)
              (world true (TransportError "unreachable"))
              {[ "ai_svc" := ai_svc ]} ai_svc)
    as (Hr & table' & service' & Hdb & Hs & Hh & _).
  - reflexivity.
  - vm_compute. reflexivity.
  - split; [exact Hr|].
    unfold registered_health. rewrite Hdb, Hs. cbn. rewrite Hh. reflexivity.
Defined.

(** X7: a health write for a name the registry does not know.
    [update_health_status] returns False and leaves the world as it is;
    the write through the cache layer does not raise either, leaves the
    registry as it is, and still, where the cache store is in use and
    answers, stores a health snapshot for the unknown name and removes
    its cached decision. *)
Theorem health_write_for_unknown_service
    (s status : string) (timestamp : option nat) (w : World)
    (table : gmap string Registry.RegisteredService) :
  db w = Some table -> table !! s = None ->
  RegistryManager.update_health_status s status timestamp w
  = (Return false, w)
  /\ let r := CachedRegistry.update_service_health_cached
                s status timestamp w in
     fst r = Return tt
     /\ db (snd r) = Some table
     /\ (redis_available w = true -> redis_up w = true ->
         redis (snd r) !! CachedRegistry.health_key s
         = Some (CachedRegistry.health_data status
                   (default (clock w) timestamp),
                 (clock w + CachedRegistry.HEALTH_CACHE_TTL)%nat)
         /\ redis (snd r) !! CachedRegistry.method_key s = None).
Proof.
  intros Hdb Hs. split.
  - unfold RegistryManager.update_health_status,
      RegistryManager._get_session.
    unfold_monad. rewrite Hdb, Hs. reflexivity.
  - destruct (update_service_health_cached_spec s status timestamp w table
                Hdb) as (Hok & Hd & Hr & _).
    cbv zeta. split; [exact Hok|]. split.
    + rewrite Hd, Hs. reflexivity.
    + intros Ha Hu. rewrite Hr, Ha, Hu. cbn [andb]. split.
      * rewrite lookup_delete_ne by apply method_key_ne_health_key.
        apply lookup_insert_eq.
      * apply lookup_delete_eq.
Qed.

Lemma health_write_for_unknown_service_witness :
  RegistryManager.update_health_status "ghost_svc" "healthy" None
    (world true (TransportError "unreachable"))
  = (Return false, world true (TransportError "unreachable")).
Proof.
  apply (health_write_for_unknown_service "ghost_svc" "healthy" None
           (world true (TransportError "unreachable"))
           {[ "ai_svc" := ai_svc ]}).
  - reflexivity.
  - vm_compute. reflexivity.
Defined.

End HealthWrites.

(** ** The call scheduler *)
Section SchedulerFacts.
Import Scheduler.

Lemma gather_loop_all_succeed coros : forall completion states,
  (forall j, j ∈ completion -> succeeded coros j) ->
  gather_loop coros completion states = (None, mark_all completion states).
Proof.
  induction completion as [|i completion IH]; intros states Hok;
    [reflexivity|].
  destruct (Hok i) as [v Hv]; [left|].
  cbn. rewrite Hv. apply IH.
  intros j Hj. apply Hok. right. assumption.
Qed.

Lemma mark_all_covering n (completion : list nat) :
  completion ≡ₚ seq 0 n ->
  mark_all completion (replicate n Pending) = replicate n Finished.
Proof.
  intros Hperm. apply list_eq. intros i.
  destruct (decide (i < n)%nat) as [Hlt|Hge].
  - rewrite mark_all_lookup_in.
    + symmetry. apply lookup_replicate. split; [reflexivity|assumption].
    + rewrite Hperm. apply elem_of_seq. lia.
    + rewrite length_replicate. assumption.
  - rewrite !lookup_ge_None_2; [reflexivity| |].
    + rewrite length_replicate. lia.
    + rewrite mark_all_length, length_replicate. lia.
Qed.

Lemma omap_lookup_seq {A B} (g : A -> B) (l : list A) : forall pre : list A,
  omap (fun i => g <$> (pre ++ l)%list !! i) (seq (length pre) (length l))
  = g <$> l.
Proof.
  induction l as [|x l IH]; intros pre; [reflexivity|].
  cbn [length seq]. simpl omap.
  rewrite lookup_app_r, Nat.sub_diag by lia. cbn.
  f_equal.
  specialize (IH (pre ++ [x])%list).
  rewrite length_app, <- app_assoc in IH. cbn in IH.
  rewrite Nat.add_1_r in IH. exact IH.
Qed.

(** X8: under PARTIAL_OK, with room for at least one operation at a
    time, the call does not raise: it returns one entry per operation,
    the wrapped outcomes of the operations in some order (a result for an
    operation that returned, a dict with the error text for one that
    raised). *)
Theorem partial_ok_returns_every_outcome
    (coros : list (Evox.Outcome string)) (priority : Priority)
    (concurrency : Z) (completion : list nat) :
  (1 <= concurrency)%Z ->
  completion ≡ₚ seq 0 (length coros) ->
  exists items,
    fst (parallel coros priority PARTIAL_OK concurrency completion)
    = Evox.Done items
    /\ items ≡ₚ map wrapped coros.
Proof.
  intros Hc Hperm.
  destruct (partial_ok_follows_completion coros priority concurrency
              completion Hc Hperm) as [Hr _].
  eexists. split; [exact Hr|].
  unfold in_completion_order. rewrite Hperm.
  change (map wrapped coros) with (wrapped <$> coros).
  rewrite <- (omap_lookup_seq wrapped coros []). reflexivity.
Qed.

Lemma partial_ok_returns_every_outcome_witness :
  exists items,
    fst (parallel [Evox.Return "a"; Evox.Raise (Evox.Failure "boom")]
           LOW PARTIAL_OK 1 [1; 0]%nat)
    = Evox.Done items
    /\ items ≡ₚ [Evox.ItemResult "a"; Evox.ItemErrorDict "boom"].
Proof.
  apply (partial_ok_returns_every_outcome
           [Evox.Return "a"; Evox.Raise (Evox.Failure "boom")] LOW 1
           [1; 0]%nat).
  - lia.
  - apply Permutation_swap.
Defined.

(** X9: under ALL_OR_NOTHING, when every operation returns, the call
    returns the results in the order of the operations, whatever the
    order in which they finished, and leaves every task finished. *)
Theorem all_or_nothing_returns_in_order
    (coros : list (Evox.Outcome string)) (priority : Priority)
    (concurrency : Z) (completion : list nat) :
  (1 <= concurrency)%Z ->
  completion ≡ₚ seq 0 (length coros) ->
  (forall i c, coros !! i = Some c -> exists v, c = Evox.Return v) ->
  exists items,
    parallel coros priority ALL_OR_NOTHING concurrency completion
    = (Evox.Done items, replicate (length coros) Finished)
    /\ length items = length coros
    /\ forall i v, coros !! i = Some (Evox.Return v) ->
         items !! i = Some (Evox.ItemResult v).
Proof.
  intros Hc Hperm Hall.
  exists (results_in_order coros). split; [|split].
  - unfold parallel.
    destruct (Z.ltb_spec concurrency 0); [lia|].
    destruct (Z.eqb_spec concurrency 0); [lia|]. cbn [andb].
    rewrite gather_loop_all_succeed.
    + rewrite (mark_all_covering _ _ Hperm).
      replace (forallb is_finished (replicate (length coros) Finished))
        with true; [reflexivity|].
      symmetry. apply forallb_forall. intros st Hst.
      apply list_elem_of_In, elem_of_replicate in Hst as [-> _].
      reflexivity.
    + intros j Hj. rewrite Hperm in Hj. apply elem_of_seq in Hj.
      destruct (lookup_lt_is_Some_2 coros j) as [c Hcj]; [lia|].
      destruct (Hall j c Hcj) as [v ->]. exists v. exact Hcj.
  - apply length_map.
  - intros i v Hi. unfold results_in_order.
    rewrite list_lookup_fmap, Hi. reflexivity.
Qed.

Lemma all_or_nothing_returns_in_order_witness :
  exists items,
    parallel [Evox.Return "a"; Evox.Return "b"] HIGH ALL_OR_NOTHING 2
      [1; 0]%nat
    = (Evox.Done items, [Finished; Finished])
    /\ items !! 0%nat = Some (Evox.ItemResult "a").
Proof.
  destruct (all_or_nothing_returns_in_order
              [Evox.Return "a"; Evox.Return "b"] HIGH 2 [1; 0]%nat)
    as (items & Hr & _ & Hi).
  - lia.
  - apply Permutation_swap.
  - intros [|[|i]] c H; inversion H; eauto.
  - exists items. split; [exact Hr|]. apply Hi. reflexivity.
Defined.

End SchedulerFacts.

(** ** The admission queue over its whole life *)
Section QueueInvariants.
Import Evox.

Lemma priority_eqb_eq a b : priority_eqb a b = true <-> a = b.
Proof. destruct a, b; cbn; split; congruence. Qed.

Lemma lane_set_lane {X} p p' (x : X) d :
  lane (set_lane p x d) p' = if priority_eqb p p' then x else lane d p'.
Proof. destruct p, p'; reflexivity. Qed.

Lemma waiting_at_app p l r :
  waiting_at p (l ++ [r])%list
  = (waiting_at p l + if priority_eqb (priority r) p then 1 else 0)%Z.
Proof.
  unfold waiting_at. rewrite List.filter_app, length_app. cbn.
  destruct (priority_eqb (priority r) p); cbn; lia.
Qed.

Lemma filter_delete_length {A} (f : A -> bool) : forall (l : list A) i r,
  l !! i = Some r ->
  length (List.filter f l)
  = (length (List.filter f (delete i l)) + if f r then 1 else 0)%nat.
Proof.
  induction l as [|x l IH]; intros i r Hi; [inversion Hi|].
  destruct i as [|i]; simpl in Hi.
  - injection Hi as ->. simpl. destruct (f r); simpl; lia.
  - specialize (IH i r Hi). simpl.
    destruct (f x); simpl; lia.
Qed.

Lemma waiting_at_delete p (l : list QueuedRequest) i r :
  l !! i = Some r ->
  waiting_at p l
  = (waiting_at p (delete i l)
     + if priority_eqb (priority r) p then 1 else 0)%Z.
Proof.
  intros Hi. unfold waiting_at.
  rewrite (filter_delete_length _ l i r Hi).
  destruct (priority_eqb (priority r) p); lia.
Qed.

Lemma waiting_at_nonneg p l : (0 <= waiting_at p l)%Z.
Proof. unfold waiting_at. lia. Qed.

Lemma add_error_bounded now p e context s :
  (length (errors s) <= 100)%nat ->
  (length (errors (add_error now p e context s)) <= 100)%nat.
Proof.
  intros H. unfold add_error.
  cbn -[Nat.ltb]. rewrite length_app. cbn -[Nat.ltb].
  destruct (Nat.ltb_spec 100 (length (errors s) + 1)) as [Hgt|Hle].
  - destruct (errors s ++ _)%list eqn:Happ.
    + cbn. lia.
    + apply (f_equal length) in Happ. rewrite length_app in Happ.
      cbn in *. lia.
  - rewrite length_app. cbn. lia.
Qed.

Lemma start_invariant now cfg : queue_invariant (start now cfg).
Proof.
  split.
  - intros p. destruct p; reflexivity.
  - intros p. destruct p; reflexivity.
  - intros p. destruct p; reflexivity.
  - intros p. destruct p; unfold waiting_at, qsize; cbn; lia.
  - intros p. destruct p; unfold qsize; cbn; lia.
  - intros p. destruct p; reflexivity.
  - cbn. lia.
Qed.

Lemma step_invariant now a s :
  queue_invariant s -> queue_invariant (step now a s).
Proof.
  intros [Hql Haw Hpc Hw Hlim Hmax Herr].
  destruct a as [p0 timeout|index elapsed result].
  - unfold step, enqueue, _generate_request_id, put_nowait. cbn.
    destruct (full (lane (queues (queue s)) p0)) eqn:Hfull; cbn.
    + split; cbn; assumption.
    + assert (Hroom : forall p, priority_eqb p0 p = true ->
                (0 < maxsize (lane (queues (queue s)) p))%Z ->
                (qsize (lane (queues (queue s)) p) + 1
                 <= maxsize (lane (queues (queue s)) p))%Z).
      { intros p Hp Hpos. apply priority_eqb_eq in Hp. subst p.
        unfold full in Hfull.
        destruct (Z.leb_spec (maxsize (lane (queues (queue s)) p0)) 0);
          [lia|].
        apply Z.leb_gt in Hfull. lia. }
      split; cbn.
      * intros p. rewrite lane_set_lane, waiting_at_app. cbn.
        destruct (priority_eqb p0 p) eqn:Hp.
        -- apply priority_eqb_eq in Hp. subst p. rewrite Hql. reflexivity.
        -- rewrite Hql. lia.
      * intros p. rewrite lane_set_lane, waiting_at_app. cbn.
        destruct (priority_eqb p0 p) eqn:Hp.
        -- apply priority_eqb_eq in Hp. subst p. rewrite Haw. reflexivity.
        -- rewrite Haw. lia.
      * intros p. rewrite !lane_set_lane.
        destruct (priority_eqb p0 p) eqn:Hp; [|apply Hpc].
        apply priority_eqb_eq in Hp. subst p. rewrite Hpc.
        unfold qsize. cbn. rewrite length_app. cbn. lia.
      * intros p. rewrite lane_set_lane, waiting_at_app. cbn.
        destruct (priority_eqb p0 p) eqn:Hp.
        -- pose proof Hp as Hp'. apply priority_eqb_eq in Hp'. subst p.
           specialize (Hw p0). unfold qsize in *. cbn.
           rewrite length_app. cbn. lia.
        -- specialize (Hw p). lia.
      * intros p. rewrite lane_set_lane.
        destruct (priority_eqb p0 p) eqn:Hp; [|apply Hlim].
        pose proof Hp as Hp'. apply priority_eqb_eq in Hp'. subst p.
        cbn. intros Hpos. specialize (Hroom p0 Hp Hpos).
        unfold qsize in *. cbn. rewrite length_app. cbn. lia.
      * intros p. rewrite lane_set_lane.
        destruct (priority_eqb p0 p) eqn:Hp; [|apply Hmax].
        apply priority_eqb_eq in Hp. subst p. cbn. apply Hmax.
      * assumption.
  - unfold step.
    destruct (suspended s !! index) as [request|] eqn:Hreq;
      [|split; assumption].
    pose proof (fun p => waiting_at_delete p _ _ _ Hreq) as Hdel.
    unfold finish_execute.
    destruct (awaited request elapsed result) as [v|e];
      (split; cbn;
       [ intros p; rewrite lane_set_lane; specialize (Hdel p);
         pose proof (waiting_at_nonneg p (delete index (suspended s)));
         destruct (priority_eqb (priority request) p) eqn:Hp;
         [apply priority_eqb_eq in Hp; rewrite Hp|]; rewrite Hql; lia
       | intros p; rewrite lane_set_lane; specialize (Hdel p);
         pose proof (waiting_at_nonneg p (delete index (suspended s)));
         destruct (priority_eqb (priority request) p) eqn:Hp;
         [apply priority_eqb_eq in Hp; rewrite Hp|]; rewrite Haw; lia
       | exact Hpc
       | intros p; specialize (Hdel p); specialize (Hw p);
         destruct (priority_eqb (priority request) p); lia
       | exact Hlim
       | exact Hmax
       | first [ exact Herr | apply add_error_bounded; exact Herr ] ]).
Qed.

Lemma steps_invariant l : forall now s,
  queue_invariant s -> queue_invariant (steps now l s).
Proof.
  induction l as [|a l IH]; intros now s Hs; [exact Hs|].
  cbn. apply IH, step_invariant, Hs.
Qed.

Lemma reached_invariant now cfg l : queue_invariant (reached now cfg l).
Proof. apply steps_invariant, start_invariant. Qed.

End QueueInvariants.

Section QueueLife.
Import Evox.

Lemma step_config now a s : config (queue (step now a s)) = config (queue s).
Proof.
  destruct a as [p timeout|index elapsed result]; unfold step.
  - unfold enqueue, _generate_request_id, put_nowait. cbn.
    destruct (full (lane (queues (queue s)) p)); reflexivity.
  - destruct (suspended s !! index); [|reflexivity].
    unfold finish_execute.
    destruct (awaited q elapsed result); reflexivity.
Qed.

Lemma steps_config l : forall now s,
  config (queue (steps now l s)) = config (queue s).
Proof.
  induction l as [|a l IH]; intros now s; [reflexivity|].
  cbn. rewrite IH. apply step_config.
Qed.

Lemma step_full now a s p :
  full (lane (queues (queue s)) p) = true ->
  full (lane (queues (queue (step now a s))) p) = true.
Proof.
  intros Hfull.
  destruct a as [p0 timeout|index elapsed result]; unfold step.
  - unfold enqueue, _generate_request_id, put_nowait. cbn.
    destruct (full (lane (queues (queue s)) p0)) eqn:Hp0; cbn;
      [exact Hfull|].
    rewrite lane_set_lane.
    destruct (priority_eqb p0 p) eqn:Hp; [|exact Hfull].
    apply priority_eqb_eq in Hp. congruence.
  - destruct (suspended s !! index); [|exact Hfull].
    unfold finish_execute.
    destruct (awaited q elapsed result); exact Hfull.
Qed.

Lemma steps_full l : forall now s p,
  full (lane (queues (queue s)) p) = true ->
  full (lane (queues (queue (steps now l s))) p) = true.
Proof.
  induction l as [|a l IH]; intros now s p Hfull; [exact Hfull|].
  cbn. apply IH, step_full, Hfull.
Qed.

(** X10: in every state a fresh queue can reach, the running count of a
    lane ([active_workers]) and its reported depth ([queue_lengths]) are
    both the number of callers of that lane waiting for their function:
    the two counters never differ, and neither counts requests that are
    queued but not running. *)
Theorem counters_count_waiting_callers
    (now : nat) (cfg : Config) (l : list Step) (p : PriorityLevel) :
  let s := reached now cfg l in
  running s p = waiting_at p (suspended s)
  /\ lane (queue_lengths (stats (queue s))) p = waiting_at p (suspended s).
Proof.
  destruct (reached_invariant now cfg l) as [Hql Haw _ _ _ _ _].
  split; [apply Haw|apply Hql].
Qed.

(** X11: a lane with a positive queue limit admits at most that many
    requests over the whole life of the queue, because a request put on
    the lane's queue is never taken off it: in every reachable state the
    processed count is the size of the lane's queue and at most the
    limit, and so is the running count. *)
Theorem lane_admits_at_most_its_limit
    (now : nat) (cfg : Config) (l : list Step) (p : PriorityLevel) :
  (0 < lane (queue_limits_cfg cfg) p)%Z ->
  let s := reached now cfg l in
  lane (processed_count (stats (queue s))) p
  = qsize (lane (queues (queue s)) p)
  /\ (lane (processed_count (stats (queue s))) p
      <= lane (queue_limits_cfg cfg) p)%Z
  /\ (running s p <= lane (queue_limits_cfg cfg) p)%Z.
Proof.
  intros Hpos s.
  destruct (reached_invariant now cfg l) as [_ Haw Hpc Hw Hlim Hmax _].
  fold s in Haw, Hpc, Hw, Hlim, Hmax.
  assert (Hcfg : config (queue s) = cfg) by apply steps_config.
  specialize (Hmax p). rewrite Hcfg in Hmax.
  specialize (Hlim p). rewrite Hmax in Hlim. specialize (Hlim Hpos).
  specialize (Hw p). unfold running. rewrite Haw, Hpc.
  repeat split; lia.
Qed.

Lemma lane_admits_at_most_its_limit_witness :
  (running (reached 0 default_config
              [Submit LOW None; Submit LOW None; Submit LOW None]) LOW
   <= 200)%Z.
Proof.
  apply (lane_admits_at_most_its_limit 0 default_config
           [Submit LOW None; Submit LOW None; Submit LOW None] LOW).
  reflexivity.
Defined.

(** X12: a lane that is full stays full: whatever happens afterwards,
    also when every admitted call has completed, each later submit on
    that lane is rejected with the queue-full error and starts nothing. *)
Theorem full_lane_rejects_for_good
    (s : System) (p : PriorityLevel) (now now' : nat) (l : list Step)
    (timeout : option nat) :
  full (lane (queues (queue s)) p) = true ->
  let s' := steps now l s in
  let s'' := step now' (Submit p timeout) s' in
  rejected s''
  = (rejected s'
     ++ [RuntimeError ("Queue full for priority " ++ value p
                       ++ ", request rejected")])%list
  /\ suspended s'' = suspended s'
  /\ active_workers (queue s'') = active_workers (queue s')
  /\ full (lane (queues (queue s'')) p) = true.
Proof.
  intros Hfull s' s''.
  pose proof (steps_full l now s p Hfull) as Hfull'. fold s' in Hfull'.
  pose proof (step_full now' (Submit p timeout) s' p Hfull') as Hfull''.
  fold s'' in Hfull''.
  subst s''. unfold step, enqueue, _generate_request_id, put_nowait in *.
  cbn in *. rewrite Hfull' in *. cbn in *.
  repeat split. exact Hfull''.
Qed.

Lemma full_lane_rejects_for_good_witness :
  let cfg := {| concurrency_limits_cfg := {| high := 1; medium := 1; low := 1 |};
                queue_limits_cfg := {| high := 1; medium := 1; low := 1 |} |}%Z in
  let s := reached 0 cfg [Submit HIGH None] in
  let s' := steps 1 [Complete 0 0 (Return "done")] s in
  running s' HIGH = 0%Z
  /\ rejected (step 2 (Submit HIGH None) s')
     = [RuntimeError "Queue full for priority high, request rejected"].
Proof.
  cbv zeta. split; [reflexivity|].
  apply (full_lane_rejects_for_good
           (reached 0
              {| concurrency_limits_cfg :=
                   {| high := 1; medium := 1; low := 1 |};
                 queue_limits_cfg :=
                   {| high := 1; medium := 1; low := 1 |} |}%Z
              [Submit HIGH None])
           HIGH 1 2 [Complete 0 0 (Return "done")] None).
  reflexivity.
Defined.

(** X13: the error log never holds more than 100 entries, in any state a
    fresh queue can reach. *)
Theorem error_log_is_bounded (now : nat) (cfg : Config) (l : list Step) :
  (length (errors (stats (queue (reached now cfg l)))) <= 100)%nat.
Proof. apply reached_invariant. Qed.

(** X14: a submit that is not interleaved with another call, on a lane
    that is not full and whose counters are not negative: it returns
    what awaiting the function gives ([TimeoutError] when the function
    overruns a non-zero timeout), leaves the running count and the
    reported depth of every lane as they were, counts one more processed
    request, and leaves the request on the lane's queue. *)
Theorem submit_runs_and_restores_counters
    (now : nat) (p : PriorityLevel) (timeout : option nat) (elapsed : nat)
    (result : Outcome string) (self : PriorityAwareQueue) :
  full (lane (queues self) p) = false ->
  (0 <= lane (active_workers self) p)%Z ->
  (0 <= lane (queue_lengths (stats self)) p)%Z ->
  let r := submit now p timeout elapsed result self in
  fst r = match timeout with
          | Some (S t) =>
              if (S t <? elapsed)%nat then Raise TimeoutError else result
          | _ => result
          end
  /\ (forall p', lane (active_workers (snd r)) p'
                 = lane (active_workers self) p')
  /\ (forall p', lane (queue_lengths (stats (snd r))) p'
                 = lane (queue_lengths (stats self)) p')
  /\ lane (processed_count (stats (snd r))) p
     = (lane (processed_count (stats self)) p + 1)%Z
  /\ qsize (lane (queues (snd r)) p) = (qsize (lane (queues self) p) + 1)%Z.
Proof.
  intros Hfull Ha Hq r. subst r.
  unfold submit, enqueue, _generate_request_id, put_nowait.
  cbn -[Nat.ltb]. rewrite Hfull. cbn -[Nat.ltb].
  unfold finish_execute, awaited, begin_execute. cbn -[Nat.ltb].
  set (outcome := match timeout with
                  | Some (S t) =>
                      if (S t <? elapsed)%nat then Raise TimeoutError
                      else result
                  | _ => result
                  end).
  destruct outcome as [v|e]; cbn -[Nat.ltb];
    (split; [reflexivity|]); rewrite !lane_set_lane;
    rewrite (proj2 (priority_eqb_eq p p) eq_refl);
    (split; [|split; [|split]]).
  all: try (intros p'; rewrite !lane_set_lane;
            destruct (priority_eqb p p') eqn:Hp;
            [apply priority_eqb_eq in Hp; subst p'; lia|reflexivity]).
  all: try reflexivity.
  all: unfold qsize; cbn; rewrite length_app; cbn; lia.
Qed.

Lemma submit_runs_and_restores_counters_witness :
  fst (submit 0 MEDIUM (Some 5%nat) 9 (Return "late")
         (init 0 default_config))
  = Raise TimeoutError.
Proof.
  apply (submit_runs_and_restores_counters 0 MEDIUM (Some 5%nat) 9
           (Return "late") (init 0 default_config));
    vm_compute; congruence.
Defined.

End QueueLife.

(** ** Calls that the cached decision does not send to the router *)
Section OtherBranches.
Import Runtime.

Lemma get_effective_returns s w table method :
  db w = Some table ->
  fst (CachedRegistry.get_effective_connection_method s w) = Return method ->
  truthy s = true /\ decision w table s = method.
Proof.
  intros Hdb H. destruct (truthy s) eqn:Hs.
  - split; [reflexivity|].
    rewrite (get_effective_fst s w table Hs Hdb) in H. congruence.
  - unfold CachedRegistry.get_effective_connection_method in H.
    rewrite Hs in H. discriminate.
Qed.

Variables (s m : string) (args : list Value) (w : World).
Variable table : gmap string Registry.RegisteredService.
Variable service : Registry.RegisteredService.
Variable method : Registry.ConnectionMethod.

Hypothesis registry_configured : db w = Some table.
Hypothesis registered : table !! s = Some service.
Hypothesis active : Registry.is_active service = true.
Hypothesis decided :
  fst (CachedRegistry.get_effective_connection_method s w) = Return method.
Hypothesis not_routed :
  Registry.ConnectionMethod_eqb method Registry.ROUTER
  && Registry.has_router service = false.

Let w2 : World := after_lookup s (after_lookup s w).

Lemma other_lookups_frame : frame w w2.
Proof.
  apply (frame_trans _ (after_lookup s w)); apply after_lookup_frame.
Qed.

Lemma other_lookups_trace :
  exists lookups, trace w2 = (trace w ++ lookups)%list /\ Forall quiet lookups.
Proof.
  destruct (get_effective_trace s w) as (n1 & Ht1 & Hq1).
  destruct (get_effective_trace s (after_lookup s w)) as (n2 & Ht2 & Hq2).
  exists (n1 ++ n2)%list. split.
  - unfold w2. unfold after_lookup at 1. rewrite Ht2.
    unfold after_lookup. rewrite Ht1, <- app_assoc. reflexivity.
  - apply Forall_app. split; assumption.
Qed.

(** [_execute_service_call] from the REST attempt on. *)
Lemma execute_not_via_router :
  ServiceProxy._execute_service_call s m args w
  = if truthy_opt (Registry.rest_url service)
       && negb (Registry.ConnectionMethod_eqb method Registry.DISABLED) then
      match ServiceProxy._call_via_rest service m args w2 with
      | (Return v, w5) => (Return v, w5)
      | (Raise e', w5) =>
          (Raise (ServiceUnavailableError s ["rest"]),
           after_failure s "down" (rest_failed_message s m e') w5)
      end
    else (Raise (ServiceUnavailableError s []), w2).
Proof.
  destruct (get_effective_returns s w table method registry_configured
              decided) as [Hname Hdec].
  unfold ServiceProxy._execute_service_call.
  unfold bind at 1.
  rewrite (get_service_by_name_eq s w table registry_configured),
    registered, active.
  cbn [negb].
  unfold bind at 1. rewrite should_use_router_eq.
  rewrite (get_effective_eq s w table Hname registry_configured), Hdec.
  unfold bind at 1.
  assert (Hdb1 : db (after_lookup s w) = Some table)
    by (rewrite after_lookup_db; exact registry_configured).
  rewrite (get_effective_eq s _ table Hname Hdb1).
  unfold after_lookup at 1.
  rewrite (get_effective_stable s w table Hname registry_configured), Hdec.
  fold (after_lookup s w). fold w2.
  rewrite not_routed.
  unfold bind at 1. unfold ret at 1.
  assert (Hdb2 : db w2 = Some table)
    by (unfold w2; rewrite !after_lookup_db; exact registry_configured).
  destruct (truthy_opt (Registry.rest_url service)
            && negb (Registry.ConnectionMethod_eqb method Registry.DISABLED)).
  - unfold bind at 1. unfold try_except at 1. unfold bind at 1.
    pose proof (call_via_rest_db service m args w2) as Hrest.
    destruct (ServiceProxy._call_via_rest service m args w2) as [[v|e'] w5];
      cbn in Hrest.
    + reflexivity.
    + unfold ret at 1.
      unfold bind at 1, log at 1, modify at 1.
      unfold bind at 1, get at 1.
      unfold bind at 1.
      set (w5' := emit (Log "print"
                          ("REST call failed for " ++ s ++ "." ++ m ++ ": "
                           ++ str_exn e')) w5).
      assert (Hdb5 : db w5' = Some table) by (subst w5'; cbn; congruence).
      destruct (update_service_health_cached_spec s "down"
                  (Some (clock w5')) w5' _ Hdb5) as (Hok5 & _).
      unfold after_failure, rest_failed_message. fold w5'.
      destruct (CachedRegistry.update_service_health_cached s "down"
                  (Some (clock w5')) w5') as [r6 w6].
      cbn in Hok5. subst r6. reflexivity.
  - reflexivity.
Qed.

End OtherBranches.

Section OtherBranchesFacts.
Import Runtime.

Lemma disabled_decision_call s m args w table service :
  db w = Some table -> table !! s = Some service ->
  Registry.is_active service = true ->
  fst (CachedRegistry.get_effective_connection_method s w)
  = Return Registry.DISABLED ->
  let r := ServiceProxy._execute_service_call s m args w in
  fst r = Raise (ServiceUnavailableError s [])
  /\ db (snd r) = Some table
  /\ exists new, trace (snd r) = (trace w ++ new)%list /\ Forall quiet new.
Proof.
  intros Hdb Hs Hactive Hdec r. subst r.
  rewrite (execute_not_via_router s m args w table service Registry.DISABLED)
    by (assumption || reflexivity).
  rewrite andb_false_r. cbn [fst snd].
  split; [reflexivity|]. split.
  - rewrite !after_lookup_db. exact Hdb.
  - apply other_lookups_trace.
Qed.

Lemma effective_when_down service timestamp :
  Registry.get_effective_connection_method
    (Registry.with_health "down" timestamp service)
  = Registry.DISABLED.
Proof.
  unfold Registry.get_effective_connection_method. cbn.
  destruct (Registry.is_active service); cbn; [|reflexivity].
  destruct (Registry.connection_method service); cbn;
    rewrite ?andb_false_r; reflexivity.
Qed.

End OtherBranchesFacts.

(** X15: a call to a service whose decision is DISABLED is refused without
    being tried: the proxy raises [ServiceUnavailableError] with an empty
    list of attempted methods, calls neither the router nor the REST
    endpoint, and writes nothing to the registry. *)
Theorem disabled_service_is_never_called
    (s m : string) (args : list Runtime.Value) (w : Runtime.World)
    (table : gmap string Registry.RegisteredService)
    (service : Registry.RegisteredService) :
  Runtime.db w = Some table -> table !! s = Some service ->
  Registry.is_active service = true ->
  fst (CachedRegistry.get_effective_connection_method s w)
  = Runtime.Return Registry.DISABLED ->
  let r := ServiceProxy._execute_service_call s m args w in
  fst r = Runtime.Raise (Runtime.ServiceUnavailableError s [])
  /\ Runtime.db (snd r) = Some table
  /\ exists new,
       Runtime.trace (snd r) = (Runtime.trace w ++ new)%list
       /\ forall e, e ∈ new ->
            match e with
            | Runtime.RouterCall _ _ | Runtime.RestPost _
            | Runtime.DbCommit _ _ => False
            | _ => True
            end.
Proof.
  intros Hdb Hs Hactive Hdec r.
  destruct (disabled_decision_call s m args w table service Hdb Hs Hactive
              Hdec) as (Hr & Hd & new & Ht & Hq).
  split; [exact Hr|]. split; [exact Hd|].
  exists new. split; [exact Ht|].
  intros e He. rewrite Forall_forall in Hq. specialize (Hq e He).
  destruct e; cbn in Hq; tauto.
Qed.

Lemma disabled_service_is_never_called_witness :
  let w := Runtime.set_redis ∅
             (Runtime.set_db
                (Some {[ "ai_svc" := Registry.with_health "down" 3 ai_svc ]})
                (world true (Runtime.Response 200
                               (Some (Runtime.VData "a summary"))))) in
  fst (ServiceProxy._execute_service_call "ai_svc" "summarize" [] w)
  = Runtime.Raise (Runtime.ServiceUnavailableError "ai_svc" []).
Proof.
  cbv zeta.
  apply disabled_service_is_never_called
    with (table := {[ "ai_svc" := Registry.with_health "down" 3 ai_svc ]})
         (service := Registry.with_health "down" 3 ai_svc);
    vm_compute; reflexivity.
Defined.

(** X16: a call whose decision is REST, to an active service with a REST
    address, goes to the REST endpoint only.  It returns what the REST
    attempt returns and then leaves the registry as it was; when the
    attempt raises, the call raises [ServiceUnavailableError] with the
    attempted methods "rest" and the registry holds the health "down".
    The router is not called, also when the service has one. *)
Theorem rest_decision_goes_to_rest_only
    (s m : string) (args : list Runtime.Value) (w : Runtime.World)
    (table : gmap string Registry.RegisteredService)
    (service : Registry.RegisteredService) (rest_url : string) :
  Runtime.db w = Some table -> table !! s = Some service ->
  Registry.is_active service = true ->
  fst (CachedRegistry.get_effective_connection_method s w)
  = Runtime.Return Registry.REST ->
  Registry.rest_url service = Some rest_url -> truthy rest_url = true ->
  let r := ServiceProxy._execute_service_call s m args w in
  match fst (ServiceProxy._call_via_rest service m args w) with
  | Runtime.Return v =>
      fst r = Runtime.Return v /\ Runtime.db (snd r) = Some table
  | Runtime.Raise _ =>
      fst r = Runtime.Raise (Runtime.ServiceUnavailableError s ["rest"])
      /\ registered_health (snd r) s = Some "down"
  end
  /\ exists new,
       Runtime.trace (snd r) = (Runtime.trace w ++ new)%list
       /\ Runtime.RestPost (endpoint rest_url m) ∈ new
       /\ forall n mm, Runtime.RouterCall n mm ∉ new.
Proof.
  intros Hdb Hs Hactive Hdec Hurl Hset r. subst r.
  rewrite (execute_not_via_router s m args w table service Registry.REST)
    by (assumption || reflexivity).
  rewrite Hurl. cbn [truthy_opt]. rewrite Hset. cbn [andb negb
    Registry.ConnectionMethod_eqb].
  set (w2 := after_lookup s (after_lookup s w)).
  pose proof (other_lookups_frame s w) as [Fd _ _ _ _ _ Fh]. fold w2 in Fd, Fh.
  destruct (other_lookups_trace s w) as (lookups & Ht2 & Hquiet).
  fold w2 in Ht2.
  rewrite <- (call_via_rest_fst service m args w w2 Fh).
  pose proof (call_via_rest_world service m args w2 rest_url Hurl) as Hw5.
  destruct (ServiceProxy._call_via_rest service m args w2) as [[v|e'] w5];
    cbn [fst snd] in *; subst w5.
  - split; [split; [reflexivity|cbn; congruence]|].
    exists (lookups ++ [Runtime.RestPost (endpoint rest_url m)])%list.
    split; [cbn; rewrite Ht2, <- app_assoc; reflexivity|]. split.
    + rewrite elem_of_app. right. left.
    + intros n mm. rewrite elem_of_app. intros [H|H].
      * rewrite Forall_forall in Hquiet. apply (Hquiet _ H).
      * apply list_elem_of_singleton in H. discriminate.
  - set (w5 := Runtime.emit (Runtime.RestPost (endpoint rest_url m)) w2).
    assert (Hdb5 : Runtime.db w5 = Some table) by (cbn; congruence).
    destruct (after_failure_spec s "down" (rest_failed_message s m e') w5
                table Hdb5) as (Hd6 & _ & _ & _ & _ & _ & Ht6).
    split.
    + split; [reflexivity|].
      unfold registered_health. rewrite Hd6, Hs, lookup_insert_eq.
      reflexivity.
    + exists (lookups ++ Runtime.RestPost (endpoint rest_url m)
              :: Runtime.Log "print" (rest_failed_message s m e')
              :: health_write_events w5 table s "down" (Runtime.clock w5))%list.
      split; [|split].
      * rewrite Ht6. subst w5. cbn. rewrite Ht2, <- !app_assoc. reflexivity.
      * rewrite elem_of_app. right. left.
      * intros n mm. rewrite elem_of_app. intros [H|H].
        -- rewrite Forall_forall in Hquiet. apply (Hquiet _ H).
        -- apply elem_of_cons in H as [H|H]; [discriminate|].
           apply elem_of_cons in H as [H|H]; [discriminate|].
           unfold health_write_events, cache_write_events in H.
           rewrite Hs in H.
           destruct (Runtime.redis_available w5), (Runtime.redis_up w5);
             cbn in H;
             repeat (apply elem_of_cons in H as [H|H]; [discriminate|]);
             inversion H.
Qed.

Lemma rest_decision_goes_to_rest_only_witness :
  let w := Runtime.set_redis
             {[ CachedRegistry.method_key "ai_svc" := ("rest", 300%nat) ]}
             (world true (Runtime.TransportError "connection refused")) in
  let r := ServiceProxy._execute_service_call "ai_svc" "summarize" [] w in
  fst r = Runtime.Raise (Runtime.ServiceUnavailableError "ai_svc" ["rest"])
  /\ registered_health (snd r) "ai_svc" = Some "down".
Proof.
  cbv zeta.
  destruct (rest_decision_goes_to_rest_only "ai_svc" "summarize" []
              (Runtime.set_redis
                 {[ CachedRegistry.method_key "ai_svc" := ("rest", 300%nat) ]}
                 (world true (Runtime.TransportError "connection refused")))
              {[ "ai_svc" := ai_svc ]} ai_svc "http://localhost:8005/")
    as [H _]; try (vm_compute; reflexivity).
  exact H.
Defined.

(** X17: a call to a service that the registry does not know, or that is
    inactive, is refused before any decision is looked up: the proxy
    raises [ServiceUnavailableError] with the attempted methods
    "registry_lookup" and leaves the world exactly as it was. *)
Theorem unregistered_or_inactive_service_is_refused
    (s m : string) (args : list Runtime.Value) (w : Runtime.World)
    (table : gmap string Registry.RegisteredService) :
  Runtime.db w = Some table ->
  match table !! s with
  | None => True
  | Some service => Registry.is_active service = false
  end ->
  ServiceProxy._execute_service_call s m args w
  = (Runtime.Raise (Runtime.ServiceUnavailableError s ["registry_lookup"]),
     w).
Proof.
  intros Hdb Hs. unfold ServiceProxy._execute_service_call.
  unfold Runtime.bind at 1.
  rewrite (get_service_by_name_eq s w table Hdb).
  destruct (table !! s) as [service|]; [|reflexivity].
  rewrite Hs. reflexivity.
Qed.

Lemma unregistered_or_inactive_service_is_refused_witness :
  fst (ServiceProxy._execute_service_call "ghost_svc" "ping" []
         (world true (Runtime.TransportError "unreachable")))
  = Runtime.Raise
      (Runtime.ServiceUnavailableError "ghost_svc" ["registry_lookup"]).
Proof.
  rewrite (unregistered_or_inactive_service_is_refused "ghost_svc" "ping" []
             (world true (Runtime.TransportError "unreachable"))
             {[ "ai_svc" := ai_svc ]}).
  - reflexivity.
  - reflexivity.
  - vm_compute. exact I.
Defined.

(** X18: a failed REST attempt locks the service out.  After a call whose
    decision was REST and whose REST attempt raised (the cache store
    answering during the call, or the cache being switched off), every
    later call to the service, at any time and for any method, is refused
    with an empty list of attempted methods and without the router or the
    REST endpoint being tried: the health "down" makes the decision
    DISABLED, and the proxy never tries a DISABLED service again. *)
Theorem failed_rest_call_locks_the_service_out
    (s m m' : string) (args args' : list Runtime.Value) (w : Runtime.World)
    (table : gmap string Registry.RegisteredService)
    (service : Registry.RegisteredService) (rest_url : string)
    (e : Runtime.Exn) (elapsed : nat) (up : bool) :
  Runtime.db w = Some table -> table !! s = Some service ->
  Registry.is_active service = true ->
  fst (CachedRegistry.get_effective_connection_method s w)
  = Runtime.Return Registry.REST ->
  Registry.rest_url service = Some rest_url -> truthy rest_url = true ->
  fst (ServiceProxy._call_via_rest service m args w) = Runtime.Raise e ->
  Runtime.redis_available w = false \/ Runtime.redis_up w = true ->
  let w' := snd (ServiceProxy._execute_service_call s m args w) in
  let later := Runtime.environment elapsed up w' in
  let r := ServiceProxy._execute_service_call s m' args' later in
  fst r = Runtime.Raise (Runtime.ServiceUnavailableError s [])
  /\ exists new,
       Runtime.trace (snd r) = (Runtime.trace later ++ new)%list
       /\ Forall quiet new.
Proof.
  intros Hdb Hs Hactive Hdec Hurl Hset Hfail Hcache w' later r.
  destruct (get_effective_returns s w table _ Hdb Hdec) as [Hname _].
  assert (Hw' : exists w5,
            w' = after_failure s "down" (rest_failed_message s m e) w5
            /\ Runtime.db w5 = Some table
            /\ Runtime.redis_available w5 = Runtime.redis_available w
            /\ Runtime.redis_up w5 = Runtime.redis_up w
            /\ Runtime.clock w5 = Runtime.clock w).
  { subst w'.
    rewrite (execute_not_via_router s m args w table service Registry.REST)
      by (assumption || reflexivity).
    rewrite Hurl. cbn [truthy_opt]. rewrite Hset.
    cbn [andb negb Registry.ConnectionMethod_eqb].
    set (w2 := after_lookup s (after_lookup s w)).
    pose proof (other_lookups_frame s w) as [Fd Fa Fu Fc _ _ Fh].
    fold w2 in Fd, Fa, Fu, Fc, Fh.
    rewrite <- (call_via_rest_fst service m args w w2 Fh) in Hfail.
    pose proof (call_via_rest_world service m args w2 rest_url Hurl) as Hw5.
    destruct (ServiceProxy._call_via_rest service m args w2)
      as [[v|e'] w5]; cbn [fst snd] in *; [discriminate|].
    injection Hfail as ->. subst w5.
    eexists. split; [reflexivity|]. cbn.
    repeat split; congruence. }
  destruct Hw' as (w5 & Hw' & Hdb5 & Fa5 & Fu5 & Fc5).
  destruct (after_failure_spec s "down" (rest_failed_message s m e) w5 table
              Hdb5) as (Hd & Hr & Ha & _).
  rewrite <- Hw' in Hd, Hr, Ha. rewrite Hs in Hd.
  set (service' := Registry.with_health "down" (Runtime.clock w5) service)
    in Hd.
  assert (Hnone : cached_decision later s = None).
  { unfold cached_decision, later. cbn. rewrite Ha, Fa5.
    destruct (Runtime.redis_available w) eqn:Hav; [|reflexivity].
    destruct Hcache as [Hoff|Hup]; [discriminate|].
    rewrite Hr, Fa5, Fu5, Hup. cbn [andb].
    rewrite lookup_delete_eq. cbn. destruct up; reflexivity. }
  destruct (disabled_decision_call s m' args' later
              (<[s := service']> table) service') as (Hres & _ & Htrace);
    [| | | |split; assumption].
  - exact Hd.
  - apply lookup_insert_eq.
  - exact Hactive.
  - rewrite (get_effective_fst s later (<[s := service']> table) Hname Hd).
    unfold decision, registry_decision.
    rewrite Hnone, lookup_insert_eq. cbn [default].
    f_equal. apply effective_when_down.
Qed.

Lemma failed_rest_call_locks_the_service_out_witness :
  let w := Runtime.set_redis
             {[ CachedRegistry.method_key "ai_svc" := ("rest", 300%nat) ]}
             (world true (Runtime.TransportError "connection refused")) in
  let w' := snd (ServiceProxy._execute_service_call "ai_svc" "summarize"
                   [] w) in
  fst (ServiceProxy._execute_service_call "ai_svc" "translate" []
         (Runtime.environment 3600 true w'))
  = Runtime.Raise (Runtime.ServiceUnavailableError "ai_svc" []).
Proof.
  cbv zeta.
  refine (proj1 (failed_rest_call_locks_the_service_out "ai_svc" "summarize"
              "translate" [] []
              (Runtime.set_redis
                 {[ CachedRegistry.method_key "ai_svc" := ("rest", 300%nat) ]}
                 (world true (Runtime.TransportError "connection refused")))
              {[ "ai_svc" := ai_svc ]} ai_svc "http://localhost:8005/"
              (Runtime.ConnectionError "connection refused") 3600 true
              _ _ _ _ _ _ _ _));
    try (vm_compute; reflexivity).
  right. reflexivity.
Defined.

(** ** The health checker *)
Section HealthCheckerFacts.
Import Runtime.

Lemma effective_rest_has_url (service : Registry.RegisteredService) :
  Registry.get_effective_connection_method service = Registry.REST ->
  truthy_opt (Registry.rest_url service) = true.
Proof.
  unfold Registry.get_effective_connection_method.
  repeat match goal with
         | |- context [if ?b then _ else _] => destruct b eqn:?
         end; try discriminate.
  intros _. apply andb_true_iff in Heqb2. tauto.
Qed.

Lemma check_service_health_returns (network : string -> HealthChecker.Probe)
    (now : nat) (service : Registry.RegisteredService) :
  exists result,
    HealthChecker.check_service_health network now service = inl result
    /\ HealthChecker.timestamp result = now
    /\ HealthChecker.service_name result = Registry.name service
    /\ str_in (HealthChecker.status result) ["healthy"; "degraded"; "down"]
       = true.
Proof.
  unfold HealthChecker.check_service_health.
  destruct (Registry.get_effective_connection_method service) eqn:Heff;
    cbn [Registry.ConnectionMethod_eqb].
  - eexists. split; [reflexivity|]. cbn. auto.
  - apply effective_rest_has_url in Heff.
    unfold HealthChecker._check_rest_health.
    destruct (Registry.rest_url service) as [[|c u]|]; try discriminate.
    destruct (network _) as [|msg|code [[reported|]|]];
      try (eexists; split; [reflexivity|]; cbn; auto; fail).
    + destruct (code =? 200)%Z; [destruct (String.eqb reported "healthy")|];
        eexists; (split; [reflexivity|]); cbn; auto.
    + destruct (code =? 200)%Z;
        eexists; (split; [reflexivity|]); cbn; auto.
    + destruct (code =? 200)%Z;
        eexists; (split; [reflexivity|]); cbn; auto.
  - eexists. split; [reflexivity|]. cbn. auto.
Qed.

Lemma update_health_status_found (table : gmap string Registry.RegisteredService)
    (n st : string) (ts : nat) (row : Registry.RegisteredService) (w : World) :
  db w = Some table -> table !! n = Some row ->
  RegistryManager.update_health_status n st (Some ts) w
  = (Return true,
     emit (DbCommit n st)
          (set_db (Some (<[n := Registry.with_health st ts row]> table)) w)).
Proof.
  intros Hdb Hrow.
  unfold RegistryManager.update_health_status, RegistryManager._get_session,
    bind, get, modify, ret.
  rewrite Hdb. cbn. rewrite Hrow. reflexivity.
Qed.

(** One turn of the loop, for a check that returned. *)
Lemma record_result_spec (table : gmap string Registry.RegisteredService)
    (service row : Registry.RegisteredService)
    (result : HealthChecker.HealthStatus) (w : World) :
  db w = Some table -> table !! Registry.name service = Some row ->
  exists w',
    HealthChecker.record_result service (inl result) w = (Return result, w')
    /\ db w'
       = Some (<[Registry.name service :=
                   Registry.with_health (HealthChecker.status result)
                     (HealthChecker.timestamp result) row]> table)
    /\ beside_registry w w'
    /\ exists new,
         trace w' = (trace w ++ new)%list /\ Forall registry_event new.
Proof.
  intros Hdb Hrow.
  unfold HealthChecker.record_result.
  unfold bind at 1. unfold ret at 1.
  unfold bind at 1.
  rewrite (update_health_status_found table _ _ _ row w Hdb Hrow).
  unfold bind at 1.
  destruct (negb _); unfold log, modify, ret; cbn;
    (eexists; split; [reflexivity|]; cbn; split; [reflexivity|];
     split; [constructor; reflexivity|]).
  - eexists. split; [rewrite <- app_assoc; reflexivity|].
    repeat constructor.
  - eexists. split; [reflexivity|]. repeat constructor.
Qed.

Lemma beside_registry_refl (w : World) : beside_registry w w.
Proof. constructor; reflexivity. Qed.

Lemma beside_registry_trans (w1 w2 w3 : World) :
  beside_registry w1 w2 -> beside_registry w2 w3 -> beside_registry w1 w3.
Proof. intros [] []. constructor; congruence. Qed.

(** The loop over the services and their results. *)
Lemma record_results_spec (network : string -> HealthChecker.Probe)
    (now : nat) (l : list Registry.RegisteredService) :
  forall (table : gmap string Registry.RegisteredService)
         (results : gmap string HealthChecker.HealthStatus) (w : World),
  db w = Some table ->
  NoDup (map Registry.name l) ->
  (forall s, s ∈ l -> table !! Registry.name s = Some s) ->
  exists results' w' table',
    HealthChecker.record_results
      (zip l (map (HealthChecker.check_service_health network now) l))
      results w
    = (Return results', w')
    /\ db w' = Some table'
    /\ (forall k,
          table' !! k
          = (fun row =>
               if decide (k ∈ map Registry.name l)
               then Registry.with_health (verdict network now row) now row
               else row) <$> table !! k)
    /\ (forall k,
          HealthChecker.status <$> results' !! k
          = if decide (k ∈ map Registry.name l)
            then verdict network now <$> table !! k
            else HealthChecker.status <$> results !! k)
    /\ beside_registry w w'
    /\ exists new,
         trace w' = (trace w ++ new)%list /\ Forall registry_event new.
Proof.
  induction l as [|s l IH]; intros table results w Hdb Hnodup Hrows.
  - exists results, w, table. cbn.
    split; [reflexivity|]. split; [assumption|].
    split; [intros k; destruct (table !! k); reflexivity|].
    split; [reflexivity|].
    split; [apply beside_registry_refl|].
    exists []. split; [symmetry; apply app_nil_r|constructor].
  - cbn [map zip zip_with HealthChecker.record_results].
    cbn [map] in Hnodup. apply NoDup_cons in Hnodup as [Hfresh Hnodup].
    assert (Hs : table !! Registry.name s = Some s)
      by (apply Hrows; left).
    destruct (check_service_health_returns network now s)
      as (result & Hcheck & Hts & _ & _).
    assert (Hverdict : HealthChecker.status result = verdict network now s)
      by (unfold verdict; rewrite Hcheck; reflexivity).
    rewrite Hcheck.
    destruct (record_result_spec table s s result w Hdb Hs)
      as (w1 & Hrun & Hdb1 & Hframe1 & new1 & Htrace1 & Hquiet1).
    unfold bind at 1. rewrite Hrun.
    rewrite Hts, Hverdict in Hdb1.
    set (row' := Registry.with_health (verdict network now s) now s) in Hdb1.
    destruct (IH (<[Registry.name s := row']> table)
                 (<[Registry.name s := result]> results) w1 Hdb1 Hnodup)
      as (results' & w' & table' & Hrest & Hdb' & Htable' & Hresults'
          & Hframe' & new' & Htrace' & Hquiet').
    { intros s' Hin. rewrite lookup_insert_ne; [apply Hrows; now right|].
      intros Heq. apply Hfresh. rewrite Heq.
      apply list_elem_of_fmap. exists s'. split; [reflexivity|assumption]. }
    exists results', w', table'. split; [exact Hrest|].
    split; [exact Hdb'|].
    split; [|split; [|split]].
    + intros k. rewrite Htable'.
      destruct (decide (k = Registry.name s)) as [->|Hne].
      * rewrite lookup_insert_eq, Hs. cbn.
        destruct (decide (Registry.name s ∈ map Registry.name l));
          [contradiction|].
        destruct (decide (Registry.name s
                          ∈ Registry.name s :: map Registry.name l))
          as [_|Hout]; [reflexivity|].
        exfalso. apply Hout. left.
      * rewrite lookup_insert_ne by congruence.
        destruct (table !! k) as [row|]; [|reflexivity]. cbn.
        destruct (decide (k ∈ map Registry.name l)) as [Hin|Hout];
          destruct (decide (k ∈ Registry.name s :: map Registry.name l))
            as [Hin'|Hout']; try reflexivity.
        -- exfalso. apply Hout'. now right.
        -- apply elem_of_cons in Hin' as [?|?]; [congruence|contradiction].
    + intros k. rewrite Hresults'.
      destruct (decide (k = Registry.name s)) as [->|Hne].
      * destruct (decide (Registry.name s ∈ map Registry.name l));
          [contradiction|].
        destruct (decide (Registry.name s
                          ∈ Registry.name s :: map Registry.name l))
          as [_|Hout]; [|exfalso; apply Hout; left].
        rewrite lookup_insert_eq, Hs. cbn. congruence.
      * destruct (decide (k ∈ map Registry.name l)) as [Hin|Hout];
          destruct (decide (k ∈ Registry.name s :: map Registry.name l))
            as [Hin'|Hout'].
        -- rewrite lookup_insert_ne by congruence. reflexivity.
        -- exfalso. apply Hout'. now right.
        -- apply elem_of_cons in Hin' as [?|?]; [congruence|contradiction].
        -- rewrite lookup_insert_ne by congruence. reflexivity.
    + exact (beside_registry_trans _ _ _ Hframe1 Hframe').
    + exists (new1 ++ new')%list. split.
      * rewrite Htrace', Htrace1. symmetry. apply app_assoc.
      * apply Forall_app. split; assumption.
Qed.

Lemma active_rows_elem (table : gmap string Registry.RegisteredService)
    (s : Registry.RegisteredService) :
  s ∈ ActiveServices.active_rows table
  <-> Registry.is_active s = true /\ exists k, table !! k = Some s.
Proof.
  unfold ActiveServices.active_rows.
  rewrite list_elem_of_filter. apply and_iff_compat_l.
  change (map snd (map_to_list table)) with ((map_to_list table).*2).
  rewrite list_elem_of_fmap. split.
  - intros ([k row] & -> & Hin). exists k.
    apply elem_of_map_to_list in Hin. exact Hin.
  - intros [k Hk]. exists (k, s). split; [reflexivity|].
    apply elem_of_map_to_list. exact Hk.
Qed.

Lemma active_rows_names (table : gmap string Registry.RegisteredService) :
  well_keyed table ->
  NoDup (map Registry.name (ActiveServices.active_rows table)).
Proof.
  intros Hkeyed. unfold ActiveServices.active_rows.
  apply (sublist_NoDup _ (map Registry.name (map snd (map_to_list table)))).
  - replace (map Registry.name (map snd (map_to_list table)))
      with ((map_to_list table).*1); [apply NoDup_fst_map_to_list|].
    rewrite map_map. symmetry. apply map_ext_in.
    intros [k row] Hin. cbn. apply Hkeyed.
    apply elem_of_map_to_list, list_elem_of_In. exact Hin.
  - apply fmap_sublist, sublist_filter.
Qed.

(** The services a round of checks goes through. *)
Lemma get_active_services_spec
    (table : gmap string Registry.RegisteredService) (w : World) :
  db w = Some table -> well_keyed table ->
  exists services,
    ActiveServices.get_active_services w = (Return services, w)
    /\ NoDup (map Registry.name services)
    /\ (forall s, s ∈ services -> table !! Registry.name s = Some s)
    /\ (forall k,
          k ∈ map Registry.name services
          <-> exists row, table !! k = Some row
                          /\ Registry.is_active row = true).
Proof.
  intros Hdb Hkeyed.
  unfold ActiveServices.get_active_services, RegistryManager._get_session,
    bind, ret.
  rewrite Hdb. eexists. split; [reflexivity|].
  set (services := merge_sort _ _).
  assert (Hperm : services ≡ₚ ActiveServices.active_rows table)
    by apply merge_sort_Permutation.
  assert (Helem : forall s, s ∈ services
            <-> Registry.is_active s = true /\ exists k, table !! k = Some s).
  { intros s. rewrite Hperm. apply active_rows_elem. }
  split; [|split].
  - rewrite Hperm. apply active_rows_names. exact Hkeyed.
  - intros s [_ [k Hk]]%Helem. rewrite (Hkeyed k s Hk). exact Hk.
  - intros k. rewrite list_elem_of_fmap. split.
    + intros (s & -> & [Hactive [k' Hk]]%Helem).
      exists s. rewrite (Hkeyed k' s Hk). split; assumption.
    + intros (row & Hrow & Hactive). exists row.
      split; [symmetry; apply (Hkeyed k row Hrow)|].
      apply Helem. split; [assumption|]. exists k. exact Hrow.
Qed.

(** A round of checks: what it returns and what it leaves. *)
Lemma check_all_services_spec (network : string -> HealthChecker.Probe)
    (table : gmap string Registry.RegisteredService) (w : World) :
  db w = Some table -> well_keyed table ->
  exists results w',
    HealthChecker.check_all_services network w = (Return results, w')
    /\ db w' = Some (checked network (clock w) <$> table)
    /\ (forall k,
          HealthChecker.status <$> results !! k
          = match table !! k with
            | Some row =>
                if Registry.is_active row
                then Some (verdict network (clock w) row)
                else None
            | None => None
            end)
    /\ beside_registry w w'
    /\ exists new,
         trace w' = (trace w ++ new)%list /\ Forall registry_event new.
Proof.
  intros Hdb Hkeyed.
  destruct (get_active_services_spec table w Hdb Hkeyed)
    as (services & Hget & Hnodup & Hrows & Hnames).
  unfold HealthChecker.check_all_services. unfold bind at 1. rewrite Hget.
  assert (Hactive : forall k row, table !! k = Some row ->
            (if decide (k ∈ map Registry.name services)
             then true else false) = Registry.is_active row).
  { intros k row Hrow. destruct (decide _) as [Hin|Hout].
    - apply Hnames in Hin as (row' & Hrow' & Hactive). congruence.
    - destruct (Registry.is_active row) eqn:Hactive; [|reflexivity].
      exfalso. apply Hout, Hnames. eauto. }
  set (w0 := emit (Log "print"
                     ("Checking health of " ++ pretty (length services)
                      ++ " services...")) w).
  destruct (record_results_spec network (clock w) services table ∅ w0
              Hdb Hnodup Hrows)
    as (results & w' & table' & Hrun & Hdb' & Htable' & Hresults'
        & Hframe & new & Htrace & Hquiet).
  assert (Hmap : table' = checked network (clock w) <$> table).
  { apply map_eq. intros k. rewrite Htable', lookup_fmap.
    destruct (table !! k) as [row|] eqn:Hrow; [|reflexivity]. cbn.
    unfold checked. rewrite <- (Hactive k row Hrow).
    destruct (decide _); reflexivity. }
  assert (Hstatus : forall k,
            HealthChecker.status <$> results !! k
            = match table !! k with
              | Some row =>
                  if Registry.is_active row
                  then Some (verdict network (clock w) row)
                  else None
              | None => None
              end).
  { intros k. rewrite Hresults'.
    destruct (table !! k) as [row|] eqn:Hrow.
    - rewrite <- (Hactive k row Hrow).
      destruct (decide _); [reflexivity|]. rewrite lookup_empty. reflexivity.
    - destruct (decide _) as [Hin|]; [reflexivity|].
      rewrite lookup_empty. reflexivity. }
  destruct services as [|s rest] eqn:Hservices.
  - cbn in Hrun. unfold ret in Hrun. injection Hrun as <- <-.
    exists ∅, w. split; [reflexivity|].
    split; [rewrite <- Hmap; exact Hdb'|].
    split; [exact Hstatus|].
    split; [apply beside_registry_refl|].
    exists []. split; [symmetry; apply app_nil_r|constructor].
  - exists results, w'. split.
    + unfold bind at 1. unfold log, modify. fold w0.
      unfold bind at 1. unfold get. exact Hrun.
    + split; [rewrite <- Hmap; exact Hdb'|].
      split; [exact Hstatus|].
      split.
      * destruct Hframe. constructor; assumption.
      * eexists. split; [rewrite Htrace; cbn; rewrite <- app_assoc;
                         reflexivity|].
        constructor; [exact I|exact Hquiet].
Qed.

End HealthCheckerFacts.

Lemma down_is_disabled (row : Registry.RegisteredService) :
  Registry.health_status row = "down" ->
  Registry.get_effective_connection_method row = Registry.DISABLED.
Proof.
  intros Hdown. unfold Registry.get_effective_connection_method.
  rewrite Hdown. cbn.
  destruct (Registry.is_active row); cbn; [|reflexivity].
  destruct (Registry.connection_method row); cbn;
    rewrite ?andb_false_r; reflexivity.
Qed.

Lemma disabled_verdict (network : string -> HealthChecker.Probe) (now : nat)
    (row : Registry.RegisteredService) :
  Registry.get_effective_connection_method row = Registry.DISABLED ->
  verdict network now row = "down".
Proof.
  intros Heff. unfold verdict, HealthChecker.check_service_health.
  rewrite Heff. reflexivity.
Qed.

Lemma router_verdict (network : string -> HealthChecker.Probe) (now : nat)
    (row : Registry.RegisteredService) :
  Registry.get_effective_connection_method row = Registry.ROUTER ->
  verdict network now row = "healthy".
Proof.
  intros Heff. unfold verdict, HealthChecker.check_service_health.
  rewrite Heff. reflexivity.
Qed.

Lemma verdict_is_a_status (network : string -> HealthChecker.Probe)
    (now : nat) (row : Registry.RegisteredService) :
  str_in (verdict network now row) ["healthy"; "degraded"; "down"] = true.
Proof.
  unfold verdict.
  destruct (check_service_health_returns network now row)
    as (result & -> & _ & _ & Hstatus).
  exact Hstatus.
Qed.

Lemma health_after_round (network : string -> HealthChecker.Probe)
    (table : gmap string Registry.RegisteredService) (w : Runtime.World)
    (s : string) :
  Runtime.db w = Some table -> well_keyed table ->
  registered_health (snd (HealthChecker.check_all_services network w)) s
  = (fun row => Registry.health_status (checked network (Runtime.clock w) row))
    <$> table !! s.
Proof.
  intros Hdb Hkeyed.
  destruct (check_all_services_spec network table w Hdb Hkeyed)
    as (results & w' & Hrun & Hdb' & _).
  rewrite Hrun. cbn [snd]. unfold registered_health.
  rewrite Hdb', lookup_fmap. destruct (table !! s); reflexivity.
Qed.

(** A service for the examples: [ai_svc] after a failed REST call. *)
Lemma ai_svc_down_keyed :
  well_keyed {[ "ai_svc" := Registry.with_health "down" 5 ai_svc ]}.
Proof.
  intros k row Hrow. apply lookup_singleton_Some in Hrow as [<- <-].
  reflexivity.
Qed.

Lemma ai_svc_keyed : well_keyed {[ "ai_svc" := ai_svc ]}.
Proof.
  intros k row Hrow. apply lookup_singleton_Some in Hrow as [<- <-].
  reflexivity.
Qed.

(** X19: the health checker never revives a service that is down.  A
    registered service whose health is "down" still has the health "down"
    after a round of checks, whatever the network answers: the round
    skips an inactive row, and for an active one the effective method is
    DISABLED, for which the check reports "down" without asking. *)
Theorem health_checker_never_revives_a_down_service
    (network : string -> HealthChecker.Probe)
    (table : gmap string Registry.RegisteredService) (w : Runtime.World)
    (s : string) (row : Registry.RegisteredService) :
  Runtime.db w = Some table -> well_keyed table ->
  table !! s = Some row -> Registry.health_status row = "down" ->
  registered_health (snd (HealthChecker.check_all_services network w)) s
  = Some "down".
Proof.
  intros Hdb Hkeyed Hrow Hdown.
  rewrite (health_after_round network table w s Hdb Hkeyed), Hrow. cbn.
  f_equal. unfold checked.
  destruct (Registry.is_active row); [|exact Hdown]. cbn.
  apply disabled_verdict, down_is_disabled, Hdown.
Qed.

Lemma health_checker_never_revives_a_down_service_witness :
  registered_health
    (snd (HealthChecker.check_all_services all_healthy
            (Runtime.set_db
               (Some {[ "ai_svc" := Registry.with_health "down" 5 ai_svc ]})
               (world true (Runtime.TransportError "connection refused")))))
    "ai_svc"
  = Some "down".
Proof.
  apply (health_checker_never_revives_a_down_service all_healthy
           {[ "ai_svc" := Registry.with_health "down" 5 ai_svc ]} _
           "ai_svc" (Registry.with_health "down" 5 ai_svc)).
  - reflexivity.
  - exact ai_svc_down_keyed.
  - vm_compute. reflexivity.
  - reflexivity.
Defined.

(** X20: a health check of one service never raises, and the status it
    reports is "healthy", "degraded" or "down", stamped with the time of
    the check and with the name of the service; so the branch of the round
    that turns an exception into "down" is never taken, and a round never
    writes "unknown" back. *)
Theorem check_service_health_never_raises
    (network : string -> HealthChecker.Probe) (now : nat)
    (service : Registry.RegisteredService) :
  exists result,
    HealthChecker.check_service_health network now service = inl result
    /\ HealthChecker.service_name result = Registry.name service
    /\ HealthChecker.timestamp result = now
    /\ (HealthChecker.status result = "healthy"
        \/ HealthChecker.status result = "degraded"
        \/ HealthChecker.status result = "down").
Proof.
  destruct (check_service_health_returns network now service)
    as (result & Hcheck & Hts & Hname & Hstatus).
  exists result. repeat split; try assumption.
  cbn in Hstatus.
  destruct (String.eqb_spec (HealthChecker.status result) "healthy");
    [now left|].
  destruct (String.eqb_spec (HealthChecker.status result) "degraded");
    [now right; left|].
  destruct (String.eqb_spec (HealthChecker.status result) "down");
    [now right; right|discriminate].
Qed.

(** X21: a round of checks returns and changes nothing but the health of
    the active rows.  With a session factory configured, the round
    returns a report; it adds and removes no row, leaves every inactive
    row as it was, and gives every active row one of the three statuses
    and the time of the round, all other columns unchanged; the report
    holds exactly the active services, each with the status written. *)
Theorem health_round_rewrites_only_active_health
    (network : string -> HealthChecker.Probe)
    (table : gmap string Registry.RegisteredService) (w : Runtime.World) :
  Runtime.db w = Some table -> well_keyed table ->
  exists results table',
    fst (HealthChecker.check_all_services network w) = Runtime.Return results
    /\ Runtime.db (snd (HealthChecker.check_all_services network w))
       = Some table'
    /\ forall k,
         match table !! k with
         | None => table' !! k = None /\ results !! k = None
         | Some row =>
             if Registry.is_active row then
               exists status,
                 table' !! k
                 = Some (Registry.with_health status (Runtime.clock w) row)
                 /\ HealthChecker.status <$> results !! k = Some status
                 /\ str_in status ["healthy"; "degraded"; "down"] = true
             else table' !! k = Some row /\ results !! k = None
         end.
Proof.
  intros Hdb Hkeyed.
  destruct (check_all_services_spec network table w Hdb Hkeyed)
    as (results & w' & Hrun & Hdb' & Hresults & _).
  rewrite Hrun. cbn [fst snd].
  exists results, (checked network (Runtime.clock w) <$> table).
  split; [reflexivity|]. split; [exact Hdb'|].
  intros k. specialize (Hresults k). rewrite lookup_fmap.
  destruct (table !! k) as [row|]; cbn.
  - unfold checked. destruct (Registry.is_active row).
    + eexists. split; [reflexivity|]. split; [exact Hresults|].
      apply verdict_is_a_status.
    + split; [reflexivity|].
      destruct (results !! k); [discriminate|reflexivity].
  - split; [reflexivity|].
    destruct (results !! k); [discriminate|reflexivity].
Qed.

Lemma health_round_rewrites_only_active_health_witness :
  exists results table',
    fst (HealthChecker.check_all_services all_healthy
           (world true (Runtime.TransportError "connection refused")))
    = Runtime.Return results
    /\ Runtime.db
         (snd (HealthChecker.check_all_services all_healthy
                 (world true (Runtime.TransportError "connection refused"))))
       = Some table'
    /\ forall k,
         match ({[ "ai_svc" := ai_svc ]}
                  : gmap string Registry.RegisteredService) !! k with
         | None => table' !! k = None /\ results !! k = None
         | Some row =>
             if Registry.is_active row then
               exists status,
                 table' !! k = Some (Registry.with_health status 10 row)
                 /\ HealthChecker.status <$> results !! k = Some status
                 /\ str_in status ["healthy"; "degraded"; "down"] = true
             else table' !! k = Some row /\ results !! k = None
         end.
Proof.
  apply (health_round_rewrites_only_active_health all_healthy
           {[ "ai_svc" := ai_svc ]}
           (world true (Runtime.TransportError "connection refused"))).
  - reflexivity.
  - exact ai_svc_keyed.
Defined.

(** X22: the health checker writes past the cache.  A round of checks
    leaves the cache store as it was, so a decision that is cached for a
    service when the round starts is still the answer of the next lookup,
    whatever the round has found about the service. *)
Theorem health_round_leaves_cached_decision
    (network : string -> HealthChecker.Probe)
    (table : gmap string Registry.RegisteredService) (w : Runtime.World)
    (s : string) (method : Registry.ConnectionMethod) :
  Runtime.db w = Some table -> well_keyed table ->
  truthy s = true -> cached_decision w s = Some method ->
  let w' := snd (HealthChecker.check_all_services network w) in
  Runtime.redis w' = Runtime.redis w
  /\ fst (CachedRegistry.get_effective_connection_method s w')
     = Runtime.Return method.
Proof.
  intros Hdb Hkeyed Hname Hcached w'.
  destruct (check_all_services_spec network table w Hdb Hkeyed)
    as (results & w1 & Hrun & Hdb' & _ & [Hr Ha Hu Hc _ _ _] & _).
  subst w'. rewrite Hrun. cbn [snd]. split; [exact Hr|].
  rewrite (get_effective_fst s w1 _ Hname Hdb').
  unfold decision.
  replace (cached_decision w1 s) with (cached_decision w s);
    [rewrite Hcached; reflexivity|].
  unfold cached_decision. rewrite Hr, Ha, Hu, Hc. reflexivity.
Qed.

Lemma health_round_leaves_cached_decision_witness :
  let w := Runtime.set_db
             (Some {[ "ai_svc" := Registry.with_health "down" 5 ai_svc ]})
             (world true (Runtime.TransportError "connection refused")) in
  let w' := snd (HealthChecker.check_all_services all_healthy w) in
  Runtime.redis w' = Runtime.redis w
  /\ fst (CachedRegistry.get_effective_connection_method "ai_svc" w')
     = Runtime.Return Registry.ROUTER.
Proof.
  apply (health_round_leaves_cached_decision all_healthy
           {[ "ai_svc" := Registry.with_health "down" 5 ai_svc ]} _
           "ai_svc" Registry.ROUTER).
  - reflexivity.
  - exact ai_svc_down_keyed.
  - reflexivity.
  - vm_compute. reflexivity.
Defined.

(** X23: a service that is routed in process is reported healthy whatever
    the network answers.  For an active service whose effective method is
    ROUTER, a round of checks writes "healthy": the router check asks
    nobody. *)
Theorem router_service_is_always_reported_healthy
    (network : string -> HealthChecker.Probe)
    (table : gmap string Registry.RegisteredService) (w : Runtime.World)
    (s : string) (row : Registry.RegisteredService) :
  Runtime.db w = Some table -> well_keyed table ->
  table !! s = Some row ->
  Registry.get_effective_connection_method row = Registry.ROUTER ->
  registered_health (snd (HealthChecker.check_all_services network w)) s
  = Some "healthy".
Proof.
  intros Hdb Hkeyed Hrow Heff.
  rewrite (health_after_round network table w s Hdb Hkeyed), Hrow. cbn.
  f_equal. unfold checked.
  assert (Hactive : Registry.is_active row = true).
  { unfold Registry.get_effective_connection_method in Heff.
    destruct (Registry.is_active row); [reflexivity|discriminate]. }
  rewrite Hactive. cbn. apply router_verdict, Heff.
Qed.

Lemma router_service_is_always_reported_healthy_witness :
  registered_health
    (snd (HealthChecker.check_all_services
            (fun _ => HealthChecker.Failed "connection refused")
            (world true (Runtime.TransportError "connection refused"))))
    "ai_svc"
  = Some "healthy".
Proof.
  apply (router_service_is_always_reported_healthy
           (fun _ => HealthChecker.Failed "connection refused")
           {[ "ai_svc" := ai_svc ]} _ "ai_svc" ai_svc).
  - reflexivity.
  - exact ai_svc_keyed.
  - vm_compute. reflexivity.
  - reflexivity.
Defined.

(** ** The sync with the scanner *)
Section SyncFacts.
Import RegistrySync.

Variable config : Config.Config.

Lemma info_for_name k d i :
  info_for k d = Some i -> Scanner.name i = k /\ i ∈ d.
Proof.
  unfold info_for. intros H. apply find_some in H as [Hin Heq].
  apply String.eqb_eq in Heq. split; [exact Heq|].
  apply list_elem_of_In. exact Hin.
Qed.

Lemma info_for_none k d :
  info_for k d = None <-> k ∉ map Scanner.name d.
Proof.
  unfold info_for. induction d as [|i d IH]; cbn.
  - split; [intros _; apply not_elem_of_nil|reflexivity].
  - rewrite not_elem_of_cons.
    destruct (String.eqb_spec (Scanner.name i) k) as [Heq|Hne].
    + split; [discriminate|]. intros [Hne _]. congruence.
    + rewrite IH. split; [intros H; split; [congruence|exact H]|tauto].
Qed.

Lemma info_for_in d i :
  NoDup (map Scanner.name d) -> i ∈ d ->
  info_for (Scanner.name i) d = Some i.
Proof.
  unfold info_for. induction d as [|j d IH]; cbn; intros Hnodup Hin.
  - apply elem_of_nil in Hin as [].
  - apply NoDup_cons in Hnodup as [Hfresh Hnodup].
    apply elem_of_cons in Hin as [->|Hin].
    + rewrite String.eqb_refl. reflexivity.
    + destruct (String.eqb_spec (Scanner.name j) (Scanner.name i))
        as [Heq|Hne]; [|apply IH; assumption].
      exfalso. apply Hfresh. rewrite Heq.
      apply list_elem_of_fmap. exists i. split; [reflexivity|assumption].
Qed.

Lemma session_eta (session : Session) :
  {| existing_services := existing_services session;
     added := added session |} = session.
Proof. destruct session. reflexivity. Qed.

(** The first loop. *)
Lemma process_discovered_spec now d :
  forall session created updated,
  NoDup (map Scanner.name d) ->
  exists session' updated',
    process_discovered config now d session created updated
    = (session',
       (created
        ++ map Scanner.name
             (filter (fun i => existing_services session !! Scanner.name i
                               = None) d))%list,
       updated')
    /\ added session'
       = (added session
          ++ map (_create_service_from_discovery config now)
               (filter (fun i => existing_services session !! Scanner.name i
                                 = None) d))%list
    /\ forall k,
         existing_services session' !! k
         = (fun row => match info_for k d with
                       | Some i => refreshed config now row i
                       | None => row
                       end) <$> existing_services session !! k.
Proof.
  induction d as [|i d IH]; intros session created updated Hnodup.
  - exists session, updated. cbn. rewrite !app_nil_r.
    repeat split. intros k. destruct (_ !! k); reflexivity.
  - cbn [map] in Hnodup. apply NoDup_cons in Hnodup as [Hfresh Hnodup].
    cbn [process_discovered]. rewrite filter_cons.
    destruct (existing_services session !! Scanner.name i)
      as [row|] eqn:Hrow.
    + destruct (decide (Some row = None)) as [?|_]; [discriminate|].
      assert (Hstep : exists updated1,
                process_discovered config now (i :: d) session created updated
                = process_discovered config now d
                    {| existing_services :=
                         <[Scanner.name i := refreshed config now row i]>
                           (existing_services session);
                       added := added session |}
                    created updated1).
      { cbn [process_discovered]. rewrite Hrow. unfold refreshed.
        destruct (_update_service_from_discovery config row i)
          as [row' [|f fields]]; eexists; reflexivity. }
      destruct Hstep as [updated1 Hstep].
      cbn [process_discovered] in Hstep. rewrite Hrow in Hstep.
      rewrite Hstep.
      destruct (IH {| existing_services :=
                        <[Scanner.name i := refreshed config now row i]>
                          (existing_services session);
                      added := added session |} created updated1 Hnodup)
        as (session' & updated' & Hrun & Hadded & Hrows).
      cbn [existing_services added] in Hrun, Hadded, Hrows.
      assert (Hfilter :
                filter (fun j => <[Scanner.name i := refreshed config now row i]>
                                   (existing_services session)
                                 !! Scanner.name j = None) d
                = filter (fun j => existing_services session !! Scanner.name j
                                   = None) d).
      { apply list_filter_iff. intros j.
        destruct (decide (Scanner.name i = Scanner.name j)) as [Heq|Hne].
        - rewrite <- Heq, lookup_insert_eq, Hrow. split; discriminate.
        - rewrite lookup_insert_ne by exact Hne. reflexivity. }
      rewrite Hfilter in Hrun, Hadded.
      exists session', updated'. split; [exact Hrun|].
      split; [exact Hadded|].
      intros k. rewrite Hrows. unfold info_for. cbn [find].
      destruct (String.eqb_spec (Scanner.name i) k) as [<-|Hne].
      * rewrite lookup_insert_eq, Hrow. cbn.
        assert (Hnone : info_for (Scanner.name i) d = None)
          by (apply info_for_none; exact Hfresh).
        unfold info_for in Hnone. rewrite Hnone. reflexivity.
      * rewrite lookup_insert_ne by exact Hne. reflexivity.
    + destruct (decide (None = None)) as [_|?]; [|contradiction].
      destruct (IH {| existing_services := existing_services session;
                      added := (added session
                                ++ [_create_service_from_discovery config now
                                      i])%list |}
                   (created ++ [Scanner.name i])%list updated Hnodup)
        as (session' & updated' & Hrun & Hadded & Hrows).
      cbn [existing_services added] in Hrun, Hadded, Hrows.
      exists session', updated'. split.
      * rewrite Hrun. cbn [map]. rewrite <- app_assoc. reflexivity.
      * split; [rewrite Hadded; cbn [map]; rewrite <- app_assoc;
                reflexivity|].
        intros k. rewrite Hrows.
        destruct (existing_services session !! k) as [rowk|] eqn:Hk;
          [|reflexivity].
        cbn. unfold info_for. cbn [find].
        destruct (String.eqb_spec (Scanner.name i) k) as [Heq|Hne];
          [congruence|reflexivity].
Qed.

(** The second loop. *)
Lemma mark_missing_spec now l :
  forall existing marked,
  NoDup l ->
  exists existing' marked',
    mark_missing now l existing marked = (existing', marked')
    /\ forall k,
         existing' !! k
         = (fun row => if decide (k ∈ l) then retired now row else row)
           <$> existing !! k.
Proof.
  induction l as [|n l IH]; intros existing marked Hnodup.
  - exists existing, marked. split; [reflexivity|].
    intros k. destruct (existing !! k); reflexivity.
  - apply NoDup_cons in Hnodup as [Hfresh Hnodup].
    assert (Hstep : exists marked1,
              mark_missing now (n :: l) existing marked
              = mark_missing now l
                  (match existing !! n with
                   | Some row => <[n := retired now row]> existing
                   | None => existing
                   end) marked1).
    { cbn [mark_missing]. unfold retired.
      destruct (existing !! n) as [row|] eqn:Hrow; [|eexists; reflexivity].
      destruct (Registry.is_active (columns row)
                && Registry.auto_discovered (columns row));
        [eexists; reflexivity|].
      rewrite insert_id by exact Hrow. eexists; reflexivity. }
    destruct Hstep as [marked1 ->].
    destruct (IH (match existing !! n with
                  | Some row => <[n := retired now row]> existing
                  | None => existing
                  end) marked1 Hnodup)
      as (existing' & marked' & -> & Hrows).
    exists existing', marked'. split; [reflexivity|].
    intros k. rewrite Hrows.
    destruct (decide (k = n)) as [->|Hne].
    + destruct (decide (n ∈ l)); [contradiction|].
      destruct (decide (n ∈ n :: l)) as [_|Hout];
        [|exfalso; apply Hout; left].
      destruct (existing !! n) as [row|] eqn:Hrow.
      * rewrite lookup_insert_eq. reflexivity.
      * rewrite Hrow. reflexivity.
    + assert (Hk : match existing !! n with
                   | Some row => <[n := retired now row]> existing
                   | None => existing
                   end !! k = existing !! k).
      { destruct (existing !! n); [|reflexivity].
        apply lookup_insert_ne. congruence. }
      rewrite Hk. destruct (existing !! k) as [row|]; [|reflexivity]. cbn.
      destruct (decide (k ∈ l)) as [Hin|Hout];
        destruct (decide (k ∈ n :: l)) as [Hin'|Hout']; try reflexivity.
      * exfalso. apply Hout'. now right.
      * apply elem_of_cons in Hin' as [?|?]; [congruence|contradiction].
Qed.

(** The third loop. *)
Lemma reactivate_spec now d :
  forall existing reactivated,
  NoDup (map Scanner.name d) ->
  exists existing' reactivated',
    reactivate now d existing reactivated = (existing', reactivated')
    /\ forall k,
         existing' !! k
         = (fun row => match info_for k d with
                       | Some _ => revived now row
                       | None => row
                       end) <$> existing !! k.
Proof.
  induction d as [|i d IH]; intros existing reactivated Hnodup.
  - exists existing, reactivated. split; [reflexivity|].
    intros k. destruct (existing !! k); reflexivity.
  - cbn [map] in Hnodup. apply NoDup_cons in Hnodup as [Hfresh Hnodup].
    assert (Hstep : exists reactivated1,
              reactivate now (i :: d) existing reactivated
              = reactivate now d
                  (match existing !! Scanner.name i with
                   | Some row => <[Scanner.name i := revived now row]> existing
                   | None => existing
                   end) reactivated1).
    { cbn [reactivate]. unfold revived.
      destruct (existing !! Scanner.name i) as [row|] eqn:Hrow;
        [|eexists; reflexivity].
      destruct (negb (Registry.is_active (columns row))
                && Registry.auto_discovered (columns row));
        [eexists; reflexivity|].
      rewrite insert_id by exact Hrow. eexists; reflexivity. }
    destruct Hstep as [reactivated1 ->].
    destruct (IH (match existing !! Scanner.name i with
                  | Some row => <[Scanner.name i := revived now row]> existing
                  | None => existing
                  end) reactivated1 Hnodup)
      as (existing' & reactivated' & -> & Hrows).
    exists existing', reactivated'. split; [reflexivity|].
    intros k. rewrite Hrows. unfold info_for. cbn [find].
    destruct (String.eqb_spec (Scanner.name i) k) as [<-|Hne].
    + assert (Hnone : info_for (Scanner.name i) d = None)
        by (apply info_for_none; exact Hfresh).
      unfold info_for in Hnone. rewrite Hnone.
      destruct (existing !! Scanner.name i) as [row|] eqn:Hrow.
      * rewrite lookup_insert_eq. reflexivity.
      * rewrite Hrow. reflexivity.
    + assert (Hk : match existing !! Scanner.name i with
                   | Some row => <[Scanner.name i := revived now row]> existing
                   | None => existing
                   end !! k = existing !! k).
      { destruct (existing !! Scanner.name i); [|reflexivity].
        apply lookup_insert_ne. exact Hne. }
      rewrite Hk. reflexivity.
Qed.

(** The rows added, once inserted. *)
Lemma insert_created_lookup now d :
  forall (table : gmap string Row) k,
  NoDup (map Scanner.name d) ->
  foldl (fun table row => <[Registry.name (columns row) := row]> table)
        table (map (_create_service_from_discovery config now) d) !! k
  = match info_for k d with
    | Some i => Some (_create_service_from_discovery config now i)
    | None => table !! k
    end.
Proof.
  induction d as [|i d IH]; intros table k Hnodup; [reflexivity|].
  cbn [map] in Hnodup. apply NoDup_cons in Hnodup as [Hfresh Hnodup].
  cbn [map foldl]. rewrite IH by exact Hnodup.
  unfold info_for. cbn [find].
  destruct (String.eqb_spec (Scanner.name i) k) as [<-|Hne].
  - assert (Hnone : info_for (Scanner.name i) d = None)
      by (apply info_for_none; exact Hfresh).
    unfold info_for in Hnone. rewrite Hnone. cbn.
    apply lookup_insert_eq.
  - destruct (find _ d); [reflexivity|].
    apply lookup_insert_ne. exact Hne.
Qed.

Lemma created_names now d :
  map (fun row => Registry.name (columns row))
      (map (_create_service_from_discovery config now) d)
  = map Scanner.name d.
Proof. rewrite map_map. reflexivity. Qed.

Lemma info_for_new (table : gmap string Row) k d :
  info_for k (filter (fun i => table !! Scanner.name i = None) d)
  = match table !! k with
    | None => info_for k d
    | Some _ => None
    end.
Proof.
  unfold info_for. induction d as [|i d IH].
  - cbn. destruct (table !! k); reflexivity.
  - rewrite filter_cons.
    destruct (decide (table !! Scanner.name i = None)) as [Hnew|Hold];
      cbn [find];
      destruct (String.eqb_spec (Scanner.name i) k) as [Heq|Hne];
      try exact IH.
    + rewrite <- Heq, Hnew. reflexivity.
    + rewrite IH. rewrite <- Heq.
      destruct (table !! Scanner.name i); [reflexivity|contradiction].
Qed.

Lemma missing_elem (table : gmap string Row) d k :
  k ∈ filter (fun name => name ∉ (list_to_set (map Scanner.name d)
                                   : gset string))
             (map fst (map_to_list table))
  <-> info_for k d = None /\ is_Some (table !! k).
Proof.
  rewrite list_elem_of_filter, elem_of_list_to_set, info_for_none.
  apply and_iff_compat_l.
  change (map fst (map_to_list table)) with ((map_to_list table).*1).
  rewrite list_elem_of_fmap. split.
  - intros ([k' row] & -> & Hin). exists row.
    apply elem_of_map_to_list. exact Hin.
  - intros [row Hrow]. exists (k, row). split; [reflexivity|].
    apply elem_of_map_to_list. exact Hrow.
Qed.

(** A sync of a list without a repeated name, row by row. *)
Lemma sync_spec now (table : gmap string Row) d :
  NoDup (map Scanner.name d) ->
  exists table' sync_results,
    sync_discovered_services config now (Some table) d
    = Synced table' sync_results
    /\ (forall k, table' !! k = synced_row config now d k (table !! k))
    /\ total_discovered sync_results = length d
    /\ created sync_results
       = map Scanner.name
           (filter (fun i => table !! Scanner.name i = None) d).
Proof.
  intros Hnodup.
  unfold sync_discovered_services, _sync_with_database.
  destruct (process_discovered_spec now d
              {| existing_services := table; added := [] |} [] [] Hnodup)
    as (session1 & updated1 & -> & Hadded & Hrows1).
  cbn [existing_services added app] in Hadded, Hrows1.
  set (missing := filter _ (map fst (map_to_list table))).
  assert (Hmissing : NoDup missing)
    by (apply NoDup_filter, NoDup_fst_map_to_list).
  destruct (mark_missing_spec now missing (existing_services session1) []
              Hmissing)
    as (existing2 & marked & -> & Hrows2).
  destruct (reactivate_spec now d existing2 [] Hnodup)
    as (existing3 & reactivated & -> & Hrows3).
  unfold commit. cbn [existing_services added].
  rewrite Hadded, created_names.
  assert (Hnew : NoDup (map Scanner.name
                          (filter (fun i => table !! Scanner.name i = None)
                                  d))).
  { apply (sublist_NoDup _ (map Scanner.name d)); [exact Hnodup|].
    apply fmap_sublist, sublist_filter. }
  rewrite (bool_decide_eq_true_2 _ Hnew).
  eexists _, _. split; [reflexivity|].
  cbn [total_discovered created app]. split; [|split; reflexivity].
  intros k. rewrite (insert_created_lookup now _ existing3 k Hnew).
  rewrite info_for_new, Hrows3, Hrows2, Hrows1.
  unfold synced_row.
  destruct (table !! k) as [row|] eqn:Hrow; cbn.
  - f_equal. destruct (info_for k d) as [i|] eqn:Hinfo.
    + destruct (decide (k ∈ missing)) as [Hin|_]; [|reflexivity].
      apply missing_elem in Hin as [Hnone _]. congruence.
    + destruct (decide (k ∈ missing)) as [_|Hout]; [reflexivity|].
      exfalso. apply Hout, missing_elem. split; [exact Hinfo|].
      exists row. exact Hrow.
  - destruct (info_for k d); reflexivity.
Qed.

Lemma update_in_step (row : Row) i :
  in_step config row i ->
  _update_service_from_discovery config row i = (row, []).
Proof.
  destruct row as [[n cm url act lhc hs auto pr hr rp] dn desc pt ca ua].
  unfold in_step. cbn. intros (-> & -> & -> & Hauto).
  unfold _update_service_from_discovery.
  destruct auto; cbn.
  - destruct (Hauto eq_refl) as (-> & -> & ->).
    repeat (first [ rewrite String.eqb_refl
                  | rewrite bool_decide_eq_true_2 by reflexivity
                  | rewrite Bool.eqb_reflx ]; cbn).
    reflexivity.
  - repeat (first [ rewrite bool_decide_eq_true_2 by reflexivity
                  | rewrite Bool.eqb_reflx ]; cbn).
    reflexivity.
Qed.

Lemma refreshed_fields now (row : Row) i :
  let row' := refreshed config now row i in
  in_step config row' i
  /\ Registry.name (columns row') = Registry.name (columns row)
  /\ Registry.connection_method (columns row')
     = Registry.connection_method (columns row)
  /\ Registry.is_active (columns row') = Registry.is_active (columns row)
  /\ Registry.priority (columns row') = Registry.priority (columns row)
  /\ Registry.health_status (columns row')
     = Registry.health_status (columns row)
  /\ Registry.last_health_check (columns row')
     = Registry.last_health_check (columns row)
  /\ Registry.auto_discovered (columns row')
     = Registry.auto_discovered (columns row)
  /\ created_at row' = created_at row
  /\ (Registry.auto_discovered (columns row) = false ->
      display_name row' = display_name row
      /\ port row' = port row
      /\ Registry.rest_url (columns row') = Registry.rest_url (columns row)).
Proof.
  destruct row as [[n cm url act lhc hs auto pr hr rp] dn desc pt ca ua].
  unfold refreshed, _update_service_from_discovery, in_step. cbn.
  destruct auto; cbn;
    repeat match goal with
           | |- context [bool_decide ?P] =>
               destruct (bool_decide_reflect P); cbn
           | |- context [String.eqb ?a ?b] =>
               destruct (String.eqb_spec a b); cbn
           | |- context [Bool.eqb ?a ?b] =>
               destruct (Bool.eqb_spec a b); cbn
           end;
    repeat split; try congruence; intros; repeat split; congruence.
Qed.

Lemma revived_fields now (row : Row) :
  let row' := revived now row in
  (negb (Registry.is_active (columns row'))
   && Registry.auto_discovered (columns row') = false)
  /\ (forall i, in_step config row i -> in_step config row' i)
  /\ Registry.name (columns row') = Registry.name (columns row)
  /\ Registry.connection_method (columns row')
     = Registry.connection_method (columns row)
  /\ Registry.priority (columns row') = Registry.priority (columns row)
  /\ Registry.health_status (columns row')
     = Registry.health_status (columns row)
  /\ Registry.last_health_check (columns row')
     = Registry.last_health_check (columns row)
  /\ Registry.auto_discovered (columns row')
     = Registry.auto_discovered (columns row)
  /\ Registry.rest_url (columns row') = Registry.rest_url (columns row)
  /\ Registry.has_router (columns row') = Registry.has_router (columns row)
  /\ Registry.router_path (columns row')
     = Registry.router_path (columns row)
  /\ display_name row' = display_name row
  /\ description row' = description row
  /\ port row' = port row
  /\ created_at row' = created_at row
  /\ Registry.is_active (columns row')
     = Registry.is_active (columns row)
       || Registry.auto_discovered (columns row).
Proof.
  destruct row as [[n cm url act lhc hs auto pr hr rp] dn desc pt ca ua].
  unfold revived, in_step. cbn.
  destruct act, auto; cbn; repeat split; auto; intros; tauto.
Qed.

Lemma retired_fields now (row : Row) :
  let row' := retired now row in
  (Registry.is_active (columns row')
   && Registry.auto_discovered (columns row') = false)
  /\ Registry.name (columns row') = Registry.name (columns row)
  /\ Registry.connection_method (columns row')
     = Registry.connection_method (columns row)
  /\ Registry.priority (columns row') = Registry.priority (columns row)
  /\ Registry.health_status (columns row')
     = Registry.health_status (columns row)
  /\ Registry.last_health_check (columns row')
     = Registry.last_health_check (columns row)
  /\ Registry.auto_discovered (columns row')
     = Registry.auto_discovered (columns row)
  /\ Registry.rest_url (columns row') = Registry.rest_url (columns row)
  /\ Registry.has_router (columns row') = Registry.has_router (columns row)
  /\ Registry.router_path (columns row')
     = Registry.router_path (columns row)
  /\ display_name row' = display_name row
  /\ description row' = description row
  /\ port row' = port row
  /\ created_at row' = created_at row
  /\ Registry.is_active (columns row')
     = Registry.is_active (columns row)
       && negb (Registry.auto_discovered (columns row)).
Proof.
  destruct row as [[n cm url act lhc hs auto pr hr rp] dn desc pt ca ua].
  unfold retired. cbn.
  destruct act, auto; cbn; repeat split; auto.
Qed.

Lemma created_in_step now i :
  in_step config (_create_service_from_discovery config now i) i.
Proof. unfold in_step. cbn. repeat split. Qed.

(** The loops on a table that agrees with the scanner. *)
Lemma process_discovered_in_step now d :
  forall session created updated,
  (forall i, i ∈ d ->
     exists row, existing_services session !! Scanner.name i = Some row
                 /\ in_step config row i) ->
  process_discovered config now d session created updated
  = (session, created, updated).
Proof.
  induction d as [|i d IH]; intros session created updated Hrows;
    [reflexivity|].
  cbn [process_discovered].
  destruct (Hrows i) as (row & Hrow & Hstep); [left|].
  rewrite Hrow, (update_in_step row i Hstep).
  rewrite insert_id by exact Hrow. rewrite session_eta.
  apply IH. intros j Hj. apply Hrows. now right.
Qed.

Lemma mark_missing_settled now l :
  forall existing marked,
  (forall k row, k ∈ l -> existing !! k = Some row ->
     Registry.is_active (columns row)
     && Registry.auto_discovered (columns row) = false) ->
  mark_missing now l existing marked = (existing, marked).
Proof.
  induction l as [|n l IH]; intros existing marked Hrows; [reflexivity|].
  cbn [mark_missing].
  destruct (existing !! n) as [row|] eqn:Hrow.
  - rewrite (Hrows n row) by (left || exact Hrow).
    apply IH. intros k r Hk. apply Hrows. now right.
  - apply IH. intros k r Hk. apply Hrows. now right.
Qed.

Lemma reactivate_settled now d :
  forall existing reactivated,
  (forall i row, i ∈ d -> existing !! Scanner.name i = Some row ->
     negb (Registry.is_active (columns row))
     && Registry.auto_discovered (columns row) = false) ->
  reactivate now d existing reactivated = (existing, reactivated).
Proof.
  induction d as [|i d IH]; intros existing reactivated Hrows;
    [reflexivity|].
  cbn [reactivate].
  destruct (existing !! Scanner.name i) as [row|] eqn:Hrow.
  - rewrite (Hrows i row) by (left || exact Hrow).
    apply IH. intros j r Hj. apply Hrows. now right.
  - apply IH. intros j r Hj. apply Hrows. now right.
Qed.

(** What a sync leaves, seen from the next sync. *)
Lemma synced_row_settled now d k before row :
  synced_row config now d k before = Some row ->
  match info_for k d with
  | Some i =>
      in_step config row i
      /\ negb (Registry.is_active (columns row))
         && Registry.auto_discovered (columns row) = false
  | None =>
      Registry.is_active (columns row)
      && Registry.auto_discovered (columns row) = false
  end.
Proof.
  unfold synced_row. destruct before as [old|].
  - intros [= <-]. destruct (info_for k d) as [i|].
    + destruct (revived_fields now (refreshed config now old i))
        as (Hactive & Hstep & _).
      split; [|exact Hactive].
      apply Hstep. apply (refreshed_fields now old i).
    + apply (retired_fields now old).
  - destruct (info_for k d) as [i|]; [|discriminate].
    intros [= <-]. split; [apply created_in_step|reflexivity].
Qed.

End SyncFacts.

Lemma sync_settled (config : Config.Config) (now : nat)
    (table table1 : gmap string RegistrySync.Row)
    (d : list Scanner.ServiceInfo) :
  NoDup (map Scanner.name d) ->
  (forall k, table1 !! k = synced_row config now d k (table !! k)) ->
  (forall i, i ∈ d ->
     exists row,
       table1 !! Scanner.name i = Some row
       /\ in_step config row i
       /\ negb (Registry.is_active (RegistrySync.columns row))
          && Registry.auto_discovered (RegistrySync.columns row) = false)
  /\ (forall k row, info_for k d = None -> table1 !! k = Some row ->
        Registry.is_active (RegistrySync.columns row)
        && Registry.auto_discovered (RegistrySync.columns row) = false).
Proof.
  intros Hnodup Hrows. split.
  - intros i Hi. pose proof (info_for_in d i Hnodup Hi) as Hinfo.
    destruct (table1 !! Scanner.name i) as [row|] eqn:Hrow.
    + exists row. split; [reflexivity|].
      rewrite Hrows in Hrow.
      pose proof (synced_row_settled config now d _ _ row Hrow) as H.
      rewrite Hinfo in H. exact H.
    + rewrite Hrows in Hrow. unfold synced_row in Hrow.
      rewrite Hinfo in Hrow.
      destruct (table !! Scanner.name i); discriminate.
  - intros k row Hnone Hrow. rewrite Hrows in Hrow.
    pose proof (synced_row_settled config now d _ _ row Hrow) as H.
    rewrite Hnone in H. exact H.
Qed.

(** X24: a sync is idempotent.  For a list of discovered services in
    which no name is repeated, a sync returns, and a second sync of the
    same list, at any time, leaves the table exactly as the first left it
    and reports nothing created, updated, marked inactive or
    reactivated. *)
Theorem sync_is_idempotent (config : Config.Config) (now later : nat)
    (table : gmap string RegistrySync.Row) (d : list Scanner.ServiceInfo) :
  NoDup (map Scanner.name d) ->
  exists table1 sync_results,
    RegistrySync.sync_discovered_services config now (Some table) d
    = RegistrySync.Synced table1 sync_results
    /\ RegistrySync.sync_discovered_services config later (Some table1) d
       = RegistrySync.Synced table1
           {| RegistrySync.total_discovered := length d;
              RegistrySync.created := [];
              RegistrySync.updated := [];
              RegistrySync.marked_inactive := [];
              RegistrySync.reactivated := [];
              RegistrySync.total_registered := size (dom table1) |}.
Proof.
  intros Hnodup.
  destruct (sync_spec config now table d Hnodup)
    as (table1 & results1 & Hsync & Hrows & _).
  exists table1, results1. split; [exact Hsync|].
  destruct (sync_settled config now table table1 d Hnodup Hrows)
    as [Hd Hrest].
  unfold RegistrySync.sync_discovered_services,
    RegistrySync._sync_with_database.
  rewrite (process_discovered_in_step config later d
             {| RegistrySync.existing_services := table1;
                RegistrySync.added := [] |} [] []).
  2: { intros i Hi. destruct (Hd i Hi) as (row & Hrow & Hstep & _).
       exists row. split; assumption. }
  cbn [RegistrySync.existing_services RegistrySync.added].
  rewrite mark_missing_settled.
  2: { intros k row Hk Hrow. apply missing_elem in Hk as [Hnone _].
       exact (Hrest k row Hnone Hrow). }
  rewrite reactivate_settled.
  2: { intros i row Hi Hrow. destruct (Hd i Hi) as (row' & Hrow' & _ & Hact).
       congruence. }
  unfold RegistrySync.commit.
  cbn [RegistrySync.existing_services RegistrySync.added map foldl].
  rewrite bool_decide_eq_true_2 by constructor.
  do 2 f_equal.
  assert (Hsub : (list_to_set (map Scanner.name d) : gset string)
                 ⊆ dom table1).
  { intros k Hk. apply elem_of_list_to_set, list_elem_of_fmap in Hk
      as (i & -> & Hi).
    destruct (Hd i Hi) as (row & Hrow & _).
    apply elem_of_dom. exists row. exact Hrow. }
  rewrite (subseteq_union_1_L _ _ Hsub). reflexivity.
Qed.

Lemma sync_is_idempotent_witness :
  exists table1 sync_results,
    RegistrySync.sync_discovered_services Config.defaults 20
      (Some {[ "user_svc" := user_row ]}) [ai_info; bot_info]
    = RegistrySync.Synced table1 sync_results
    /\ RegistrySync.sync_discovered_services Config.defaults 50
         (Some table1) [ai_info; bot_info]
       = RegistrySync.Synced table1
           {| RegistrySync.total_discovered := 2;
              RegistrySync.created := [];
              RegistrySync.updated := [];
              RegistrySync.marked_inactive := [];
              RegistrySync.reactivated := [];
              RegistrySync.total_registered := size (dom table1) |}.
Proof.
  apply (sync_is_idempotent Config.defaults 20 50
           {[ "user_svc" := user_row ]} [ai_info; bot_info]).
  apply (bool_decide_eq_true_1 (NoDup _)). vm_compute. reflexivity.
Defined.

(** What a sync keeps of a row it finds. *)
Lemma synced_row_keeps (config : Config.Config) (now : nat)
    (d : list Scanner.ServiceInfo) (k : string)
    (row row1 : RegistrySync.Row) :
  synced_row config now d k (Some row) = Some row1 ->
  let c := RegistrySync.columns row in
  let c1 := RegistrySync.columns row1 in
  (Registry.name c1 = Registry.name c
   /\ Registry.connection_method c1 = Registry.connection_method c
   /\ Registry.priority c1 = Registry.priority c
   /\ Registry.health_status c1 = Registry.health_status c
   /\ Registry.last_health_check c1 = Registry.last_health_check c
   /\ Registry.auto_discovered c1 = Registry.auto_discovered c
   /\ RegistrySync.created_at row1 = RegistrySync.created_at row)
  /\ (Registry.auto_discovered c = false ->
      Registry.rest_url c1 = Registry.rest_url c
      /\ Registry.is_active c1 = Registry.is_active c
      /\ RegistrySync.port row1 = RegistrySync.port row
      /\ RegistrySync.display_name row1 = RegistrySync.display_name row).
Proof.
  unfold synced_row. intros [= <-].
  destruct (info_for k d) as [i|].
  - pose proof (refreshed_fields config now row i) as Hf.
    destruct (revived_fields config now (refreshed config now row i))
      as (_ & _ & Hn & Hcm & Hp & Hh & Hl & Ha & Hu & _ & _ & Hdn & _ & Hpt
          & Hca & Hact).
    cbv zeta in Hf.
    destruct Hf as (_ & Hn' & Hcm' & Hact' & Hp' & Hh' & Hl' & Ha' & Hca'
                    & Hmanual).
    split.
    + repeat split; congruence.
    + intros Hoff. destruct (Hmanual Hoff) as (Hdn' & Hpt' & Hu').
      repeat split; try congruence.
      rewrite Hact, Ha', Hoff, Hact'. apply orb_false_r.
  - destruct (retired_fields now row)
      as (_ & Hn & Hcm & Hp & Hh & Hl & Ha & Hu & _ & _ & Hdn & _ & Hpt
          & Hca & Hact).
    split.
    + repeat split; congruence.
    + intros Hoff. repeat split; try congruence.
      rewrite Hact, Hoff. apply andb_true_r.
Qed.

Lemma two_services_distinct :
  NoDup (map Scanner.name [ai_info; bot_info]).
Proof. apply (bool_decide_eq_true_1 (NoDup _)). vm_compute. reflexivity. Qed.

(** X25: a sync deletes no row and keeps what it does not own.  For a
    list of discovered services without a repeated name, every row of
    the table is still there after the sync with its name, connection
    method, priority, health, time of the last health check, discovery
    flag and creation time; and a row that is not marked as
    auto-discovered also keeps its REST address, its activity flag, its
    port and its display name, whether the scanner has found the service
    or not. *)
Theorem sync_keeps_operator_settings (config : Config.Config) (now : nat)
    (table : gmap string RegistrySync.Row) (d : list Scanner.ServiceInfo)
    (k : string) (row : RegistrySync.Row) :
  NoDup (map Scanner.name d) -> table !! k = Some row ->
  exists table1 sync_results row1,
    RegistrySync.sync_discovered_services config now (Some table) d
    = RegistrySync.Synced table1 sync_results
    /\ table1 !! k = Some row1
    /\ (Registry.name (RegistrySync.columns row1)
        = Registry.name (RegistrySync.columns row)
        /\ Registry.connection_method (RegistrySync.columns row1)
           = Registry.connection_method (RegistrySync.columns row)
        /\ Registry.priority (RegistrySync.columns row1)
           = Registry.priority (RegistrySync.columns row)
        /\ Registry.health_status (RegistrySync.columns row1)
           = Registry.health_status (RegistrySync.columns row)
        /\ Registry.last_health_check (RegistrySync.columns row1)
           = Registry.last_health_check (RegistrySync.columns row)
        /\ Registry.auto_discovered (RegistrySync.columns row1)
           = Registry.auto_discovered (RegistrySync.columns row)
        /\ RegistrySync.created_at row1 = RegistrySync.created_at row)
    /\ (Registry.auto_discovered (RegistrySync.columns row) = false ->
        Registry.rest_url (RegistrySync.columns row1)
        = Registry.rest_url (RegistrySync.columns row)
        /\ Registry.is_active (RegistrySync.columns row1)
           = Registry.is_active (RegistrySync.columns row)
        /\ RegistrySync.port row1 = RegistrySync.port row
        /\ RegistrySync.display_name row1 = RegistrySync.display_name row).
Proof.
  intros Hnodup Hrow.
  destruct (sync_spec config now table d Hnodup)
    as (table1 & results1 & Hsync & Hrows & _).
  specialize (Hrows k). rewrite Hrow in Hrows.
  destruct (synced_row config now d k (Some row)) as [row1|] eqn:Hsynced;
    [|discriminate].
  exists table1, results1, row1.
  split; [exact Hsync|]. split; [exact Hrows|].
  exact (synced_row_keeps config now d k row row1 Hsynced).
Qed.

Lemma sync_keeps_operator_settings_witness :
  exists table1 sync_results row1,
    RegistrySync.sync_discovered_services Config.defaults 20
      (Some {[ "user_svc" := user_row ]}) [ai_info; bot_info]
    = RegistrySync.Synced table1 sync_results
    /\ table1 !! "user_svc" = Some row1
    /\ (Registry.name (RegistrySync.columns row1)
        = Registry.name (RegistrySync.columns user_row)
        /\ Registry.connection_method (RegistrySync.columns row1)
           = Registry.connection_method (RegistrySync.columns user_row)
        /\ Registry.priority (RegistrySync.columns row1)
           = Registry.priority (RegistrySync.columns user_row)
        /\ Registry.health_status (RegistrySync.columns row1)
           = Registry.health_status (RegistrySync.columns user_row)
        /\ Registry.last_health_check (RegistrySync.columns row1)
           = Registry.last_health_check (RegistrySync.columns user_row)
        /\ Registry.auto_discovered (RegistrySync.columns row1)
           = Registry.auto_discovered (RegistrySync.columns user_row)
        /\ RegistrySync.created_at row1 = RegistrySync.created_at user_row)
    /\ (Registry.auto_discovered (RegistrySync.columns user_row) = false ->
        Registry.rest_url (RegistrySync.columns row1)
        = Registry.rest_url (RegistrySync.columns user_row)
        /\ Registry.is_active (RegistrySync.columns row1)
           = Registry.is_active (RegistrySync.columns user_row)
        /\ RegistrySync.port row1 = RegistrySync.port user_row
        /\ RegistrySync.display_name row1
           = RegistrySync.display_name user_row).
Proof.
  apply (sync_keeps_operator_settings Config.defaults 20
           {[ "user_svc" := user_row ]} [ai_info; bot_info]
           "user_svc" user_row).
  - exact two_services_distinct.
  - vm_compute. reflexivity.
Defined.

(** X26: a sync brings the rows of the discovered services in step with
    the scanner.  After a sync of a list without a repeated name, the row
    of every discovered service that was registered before has the
    description, the router flag and the router path the scanner reports,
    also when the row is configured by hand; if the row is auto-discovered
    it has the scanner's display name and port and the REST address of the
    configuration as well, and it is active. *)
Theorem sync_brings_discovered_rows_in_step (config : Config.Config)
    (now : nat) (table : gmap string RegistrySync.Row)
    (d : list Scanner.ServiceInfo) (i : Scanner.ServiceInfo)
    (row : RegistrySync.Row) :
  NoDup (map Scanner.name d) -> i ∈ d ->
  table !! Scanner.name i = Some row ->
  exists table1 sync_results row1,
    RegistrySync.sync_discovered_services config now (Some table) d
    = RegistrySync.Synced table1 sync_results
    /\ table1 !! Scanner.name i = Some row1
    /\ RegistrySync.description row1 = Scanner.description i
    /\ Registry.has_router (RegistrySync.columns row1) = Scanner.has_router i
    /\ Registry.router_path (RegistrySync.columns row1)
       = Scanner.router_path i
    /\ (Registry.auto_discovered (RegistrySync.columns row) = true ->
        RegistrySync.display_name row1 = Scanner.display_name i
        /\ RegistrySync.port row1 = Some (Scanner.port i)
        /\ Registry.rest_url (RegistrySync.columns row1)
           = Some (Config.get_service_url config (Scanner.name i)
                     "localhost")
        /\ Registry.is_active (RegistrySync.columns row1) = true).
Proof.
  intros Hnodup Hi Hrow.
  destruct (sync_spec config now table d Hnodup)
    as (table1 & results1 & Hsync & Hrows & _).
  specialize (Hrows (Scanner.name i)). rewrite Hrow in Hrows.
  unfold synced_row in Hrows. rewrite (info_for_in d i Hnodup Hi) in Hrows.
  eexists table1, results1, _. split; [exact Hsync|].
  split; [exact Hrows|].
  destruct (revived_fields config now (refreshed config now row i))
    as (_ & _ & _ & _ & _ & _ & _ & Ha & Hu & Hhr & Hrp & Hdn & Hdesc & Hpt
        & _ & Hact).
  destruct (refreshed_fields config now row i)
    as ((Hd1 & Hhr1 & Hrp1 & Hauto1) & _ & _ & _ & _ & _ & _ & Ha1 & _).
  split; [congruence|]. split; [congruence|]. split; [congruence|].
  intros Hauto.
  destruct Hauto1 as (Hdn1 & Hpt1 & Hu1); [congruence|].
  split; [congruence|]. split; [congruence|]. split; [congruence|].
  rewrite Hact, Ha1, Hauto. apply orb_true_r.
Qed.

Lemma sync_brings_discovered_rows_in_step_witness :
  exists table1 sync_results row1,
    RegistrySync.sync_discovered_services Config.defaults 20
      (Some {[ "ai_svc" := ai_row ]}) [ai_info; bot_info]
    = RegistrySync.Synced table1 sync_results
    /\ table1 !! "ai_svc" = Some row1
    /\ RegistrySync.description row1 = Some "Summaries and translations"
    /\ Registry.has_router (RegistrySync.columns row1) = true
    /\ Registry.router_path (RegistrySync.columns row1)
       = Some "services.ai_svc.router"
    /\ (Registry.auto_discovered (RegistrySync.columns ai_row) = true ->
        RegistrySync.display_name row1 = "AI Service"
        /\ RegistrySync.port row1 = Some 8005%Z
        /\ Registry.rest_url (RegistrySync.columns row1)
           = Some (Config.get_service_url Config.defaults "ai_svc"
                     "localhost")
        /\ Registry.is_active (RegistrySync.columns row1) = true).
Proof.
  apply (sync_brings_discovered_rows_in_step Config.defaults 20
           {[ "ai_svc" := ai_row ]} [ai_info; bot_info] ai_info ai_row).
  - exact two_services_distinct.
  - left.
  - vm_compute. reflexivity.
Defined.

(** X27: a service the scanner finds for the first time is registered
    and can be called at once.  After a sync of a list without a repeated
    name, a discovered service that was not registered has a row, is
    listed as created, and its effective connection method is ROUTER if
    it has a router and REST if not; it is never DISABLED. *)
Theorem new_service_is_registered_and_routable (config : Config.Config)
    (now : nat) (table : gmap string RegistrySync.Row)
    (d : list Scanner.ServiceInfo) (i : Scanner.ServiceInfo) :
  NoDup (map Scanner.name d) -> i ∈ d ->
  table !! Scanner.name i = None ->
  exists table1 sync_results service,
    RegistrySync.sync_discovered_services config now (Some table) d
    = RegistrySync.Synced table1 sync_results
    /\ Scanner.name i ∈ RegistrySync.created sync_results
    /\ routing_view table1 !! Scanner.name i = Some service
    /\ Registry.health_status service = "unknown"
    /\ Registry.get_effective_connection_method service
       = if Scanner.has_router i then Registry.ROUTER else Registry.REST.
Proof.
  intros Hnodup Hi Hnew.
  destruct (sync_spec config now table d Hnodup)
    as (table1 & results1 & Hsync & Hrows & _ & Hcreated).
  specialize (Hrows (Scanner.name i)). rewrite Hnew in Hrows.
  unfold synced_row in Hrows. rewrite (info_for_in d i Hnodup Hi) in Hrows.
  cbn in Hrows.
  eexists table1, results1, _. split; [exact Hsync|].
  split; [|split].
  - rewrite Hcreated. apply list_elem_of_fmap. exists i.
    split; [reflexivity|]. apply list_elem_of_filter. split; assumption.
  - unfold routing_view. rewrite lookup_fmap, Hrows. reflexivity.
  - split; [reflexivity|].
    unfold Registry.get_effective_connection_method. cbn.
    destruct (Scanner.has_router i); reflexivity.
Qed.

Lemma new_service_is_registered_and_routable_witness :
  exists table1 sync_results service,
    RegistrySync.sync_discovered_services Config.defaults 20
      (Some {[ "user_svc" := user_row ]}) [ai_info; bot_info]
    = RegistrySync.Synced table1 sync_results
    /\ "bot_svc" ∈ RegistrySync.created sync_results
    /\ routing_view table1 !! "bot_svc" = Some service
    /\ Registry.health_status service = "unknown"
    /\ Registry.get_effective_connection_method service = Registry.REST.
Proof.
  apply (new_service_is_registered_and_routable Config.defaults 20
           {[ "user_svc" := user_row ]} [ai_info; bot_info] bot_info).
  - exact two_services_distinct.
  - right. left.
  - vm_compute. reflexivity.
Defined.

(** X28: a service that vanishes is switched off, not deleted, and comes
    back as it was.  An active auto-discovered row whose service is
    missing from a sync stays in the table, inactive, so that its
    effective connection method is DISABLED; a later sync that finds the
    service again makes the row active again, with the connection method,
    the priority and the health it had before it vanished. *)
Theorem vanished_service_is_retired_then_revived (config : Config.Config)
    (now later : nat) (table : gmap string RegistrySync.Row)
    (d1 d2 : list Scanner.ServiceInfo) (i : Scanner.ServiceInfo)
    (row : RegistrySync.Row) :
  NoDup (map Scanner.name d1) -> NoDup (map Scanner.name d2) ->
  Scanner.name i ∉ map Scanner.name d1 -> i ∈ d2 ->
  table !! Scanner.name i = Some row ->
  Registry.is_active (RegistrySync.columns row) = true ->
  Registry.auto_discovered (RegistrySync.columns row) = true ->
  exists table1 results1 row1 table2 results2 row2,
    RegistrySync.sync_discovered_services config now (Some table) d1
    = RegistrySync.Synced table1 results1
    /\ table1 !! Scanner.name i = Some row1
    /\ Registry.is_active (RegistrySync.columns row1) = false
    /\ Registry.get_effective_connection_method (RegistrySync.columns row1)
       = Registry.DISABLED
    /\ RegistrySync.sync_discovered_services config later (Some table1) d2
       = RegistrySync.Synced table2 results2
    /\ table2 !! Scanner.name i = Some row2
    /\ Registry.is_active (RegistrySync.columns row2) = true
    /\ Registry.connection_method (RegistrySync.columns row2)
       = Registry.connection_method (RegistrySync.columns row)
    /\ Registry.priority (RegistrySync.columns row2)
       = Registry.priority (RegistrySync.columns row)
    /\ Registry.health_status (RegistrySync.columns row2)
       = Registry.health_status (RegistrySync.columns row).
Proof.
  intros Hnodup1 Hnodup2 Hgone Hback Hrow Hactive Hauto.
  destruct (sync_spec config now table d1 Hnodup1)
    as (table1 & results1 & Hsync1 & Hrows1 & _).
  destruct (sync_spec config later table1 d2 Hnodup2)
    as (table2 & results2 & Hsync2 & Hrows2 & _).
  specialize (Hrows1 (Scanner.name i)). rewrite Hrow in Hrows1.
  unfold synced_row in Hrows1.
  rewrite (proj2 (info_for_none _ _) Hgone) in Hrows1.
  specialize (Hrows2 (Scanner.name i)). rewrite Hrows1 in Hrows2.
  unfold synced_row in Hrows2.
  rewrite (info_for_in d2 i Hnodup2 Hback) in Hrows2.
  eexists table1, results1, _, table2, results2, _.
  split; [exact Hsync1|]. split; [exact Hrows1|].
  destruct (retired_fields now row)
    as (_ & _ & Hcm1 & Hp1 & Hh1 & _ & Ha1 & _ & _ & _ & _ & _ & _ & _
        & Hact1).
  rewrite Hactive, Hauto in Hact1. cbn in Hact1.
  split; [exact Hact1|].
  split.
  { unfold Registry.get_effective_connection_method. rewrite Hact1.
    reflexivity. }
  split; [exact Hsync2|]. split; [exact Hrows2|].
  destruct (refreshed_fields config later (retired now row) i)
    as (_ & _ & Hcm2 & Hact2 & Hp2 & Hh2 & _ & Ha2 & _).
  destruct (revived_fields config later
              (refreshed config later (retired now row) i))
    as (_ & _ & _ & Hcm3 & Hp3 & Hh3 & _ & _ & _ & _ & _ & _ & _ & _ & _
        & Hact3).
  split.
  { rewrite Hact3, Ha2, Ha1, Hauto. apply orb_true_r. }
  repeat split; congruence.
Qed.

Lemma vanished_service_is_retired_then_revived_witness :
  exists table1 results1 row1 table2 results2 row2,
    RegistrySync.sync_discovered_services Config.defaults 20
      (Some {[ "ai_svc" := ai_row ]}) [bot_info]
    = RegistrySync.Synced table1 results1
    /\ table1 !! "ai_svc" = Some row1
    /\ Registry.is_active (RegistrySync.columns row1) = false
    /\ Registry.get_effective_connection_method (RegistrySync.columns row1)
       = Registry.DISABLED
    /\ RegistrySync.sync_discovered_services Config.defaults 50
         (Some table1) [ai_info; bot_info]
       = RegistrySync.Synced table2 results2
    /\ table2 !! "ai_svc" = Some row2
    /\ Registry.is_active (RegistrySync.columns row2) = true
    /\ Registry.connection_method (RegistrySync.columns row2)
       = Registry.connection_method (RegistrySync.columns ai_row)
    /\ Registry.priority (RegistrySync.columns row2)
       = Registry.priority (RegistrySync.columns ai_row)
    /\ Registry.health_status (RegistrySync.columns row2)
       = Registry.health_status (RegistrySync.columns ai_row).
Proof.
  apply (vanished_service_is_retired_then_revived Config.defaults 20 50
           {[ "ai_svc" := ai_row ]} [bot_info] [ai_info; bot_info]
           ai_info ai_row).
  - apply (bool_decide_eq_true_1 (NoDup _)). vm_compute. reflexivity.
  - exact two_services_distinct.
  - apply (bool_decide_eq_true_1 (_ ∉ _)). vm_compute. reflexivity.
  - left.
  - vm_compute. reflexivity.
  - reflexivity.
  - reflexivity.
Defined.

(** X29: a service configured by hand is exempt from the sync.  A call of
    [update_service_config] that gives at least one of the allowed fields
    for a registered service, with a priority (if one is given) that fits
    the 64-bit integer column, returns True and marks the row as not
    auto-discovered; a later sync, whatever the scanner has found (no name
    twice), leaves the connection method, the REST address, the activity
    flag, the priority and the display name at the values the call has
    left.  A priority that does not fit makes the call raise
    [OverflowError] instead, with nothing written. *)
Theorem configured_service_is_exempt_from_sync (config : Config.Config)
    (now later : nat) (table : gmap string RegistrySync.Row)
    (d : list Scanner.ServiceInfo) (k : string) (row : RegistrySync.Row)
    (kwargs : RegistrySync.Kwargs) :
  NoDup (map Scanner.name d) -> table !! k = Some row ->
  (RegistrySync.given (RegistrySync.kw_connection_method kwargs)
   || RegistrySync.given (RegistrySync.kw_rest_url kwargs)
   || RegistrySync.given (RegistrySync.kw_is_active kwargs)
   || RegistrySync.given (RegistrySync.kw_priority kwargs)
   || RegistrySync.given (RegistrySync.kw_display_name kwargs)
   || RegistrySync.given (RegistrySync.kw_description kwargs)) = true ->
  (forall priority,
     RegistrySync.kw_priority kwargs = Some priority ->
     ~ (- 2 ^ 63 <= priority < 2 ^ 63)%Z ->
     exists msg,
       RegistrySync.update_service_config now k kwargs (Some table)
       = RegistrySync.OverflowError msg)
  /\ ((forall priority,
         RegistrySync.kw_priority kwargs = Some priority ->
         (- 2 ^ 63 <= priority < 2 ^ 63)%Z) ->
      exists table1 table2 sync_results row2,
        RegistrySync.update_service_config now k kwargs (Some table)
        = RegistrySync.Configured table1 true
        /\ RegistrySync.sync_discovered_services config later (Some table1) d
           = RegistrySync.Synced table2 sync_results
        /\ table2 !! k = Some row2
        /\ Registry.auto_discovered (RegistrySync.columns row2) = false
        /\ Registry.connection_method (RegistrySync.columns row2)
           = default (Registry.connection_method (RegistrySync.columns row))
               (RegistrySync.kw_connection_method kwargs)
        /\ Registry.rest_url (RegistrySync.columns row2)
           = default (Registry.rest_url (RegistrySync.columns row))
               (RegistrySync.kw_rest_url kwargs)
        /\ Registry.is_active (RegistrySync.columns row2)
           = default (Registry.is_active (RegistrySync.columns row))
               (RegistrySync.kw_is_active kwargs)
        /\ Registry.priority (RegistrySync.columns row2)
           = default (Registry.priority (RegistrySync.columns row))
               (RegistrySync.kw_priority kwargs)
        /\ RegistrySync.display_name row2
           = default (RegistrySync.display_name row)
               (RegistrySync.kw_display_name kwargs)).
Proof.
  intros Hnodup Hrow Hgiven. split.
  - intros priority Hp Hout.
    assert (Hfits : RegistrySync.fits_integer priority = false).
    { unfold RegistrySync.fits_integer. apply andb_false_iff.
      destruct (Z.leb_spec (- 2 ^ 63) priority); [right|left; reflexivity].
      apply Z.ltb_ge. lia. }
    unfold RegistrySync.update_service_config.
    rewrite Hrow, Hgiven, Hp, Hfits. eexists. reflexivity.
  - intros Hrange.
    assert (Hfits : match RegistrySync.kw_priority kwargs with
                    | Some priority => RegistrySync.fits_integer priority
                    | None => true
                    end = true).
    { destruct (RegistrySync.kw_priority kwargs) as [priority|];
        [|reflexivity].
      specialize (Hrange priority eq_refl).
      unfold RegistrySync.fits_integer.
      apply andb_true_iff. split; [apply Z.leb_le|apply Z.ltb_lt]; lia. }
    unfold RegistrySync.update_service_config. rewrite Hrow, Hgiven, Hfits.
    match goal with
    | |- context [<[k := ?r]> table] => set (row1 := r)
    end.
    destruct (sync_spec config later (<[k := row1]> table) d Hnodup)
      as (table2 & results2 & Hsync & Hrows & _).
    specialize (Hrows k). rewrite lookup_insert_eq in Hrows.
    destruct (synced_row config later d k (Some row1)) as [row2|] eqn:Hsynced;
      [|discriminate].
    exists (<[k := row1]> table), table2, results2, row2.
    split; [reflexivity|]. split; [exact Hsync|]. split; [exact Hrows|].
    destruct (synced_row_keeps config later d k row1 row2 Hsynced)
      as ((_ & Hcm & Hpr & _ & _ & Ha & _) & Hmanual).
    destruct Hmanual as (Hu & Hact & _ & Hdn); [reflexivity|].
    rewrite Ha, Hcm, Hu, Hact, Hpr, Hdn. subst row1.
    destruct kwargs as [[cm|] [u|] [a|] [p|] [dn|] [ds|] others];
      cbn; repeat split; reflexivity.
Qed.

Lemma configured_service_is_exempt_from_sync_witness :
  (exists msg,
     RegistrySync.update_service_config 10 "ai_svc"
       {| RegistrySync.kw_connection_method := None;
          RegistrySync.kw_rest_url := None;
          RegistrySync.kw_is_active := None;
          RegistrySync.kw_priority := Some (2 ^ 63)%Z;
          RegistrySync.kw_display_name := None;
          RegistrySync.kw_description := None;
          RegistrySync.kw_others := [] |}
       (Some {[ "ai_svc" := ai_row ]})
     = RegistrySync.OverflowError msg)
  /\ exists table1 table2 sync_results row2,
       RegistrySync.update_service_config 10 "ai_svc"
         {| RegistrySync.kw_connection_method := Some Registry.DISABLED;
            RegistrySync.kw_rest_url := None;
            RegistrySync.kw_is_active := None;
            RegistrySync.kw_priority := Some 5%Z;
            RegistrySync.kw_display_name := None;
            RegistrySync.kw_description := None;
            RegistrySync.kw_others := ["owner"] |}
         (Some {[ "ai_svc" := ai_row ]})
       = RegistrySync.Configured table1 true
       /\ RegistrySync.sync_discovered_services Config.defaults 50
            (Some table1) [ai_info; bot_info]
          = RegistrySync.Synced table2 sync_results
       /\ table2 !! "ai_svc" = Some row2
       /\ Registry.auto_discovered (RegistrySync.columns row2) = false
       /\ Registry.connection_method (RegistrySync.columns row2)
          = Registry.DISABLED
       /\ Registry.rest_url (RegistrySync.columns row2)
          = Registry.rest_url (RegistrySync.columns ai_row)
       /\ Registry.is_active (RegistrySync.columns row2) = true
       /\ Registry.priority (RegistrySync.columns row2) = 5%Z
       /\ RegistrySync.display_name row2 = "AI".
Proof.
  split.
  - refine (proj1 (configured_service_is_exempt_from_sync Config.defaults
                     10 50 {[ "ai_svc" := ai_row ]} [ai_info; bot_info]
                     "ai_svc" ai_row
                     {| RegistrySync.kw_connection_method := None;
                        RegistrySync.kw_rest_url := None;
                        RegistrySync.kw_is_active := None;
                        RegistrySync.kw_priority := Some (2 ^ 63)%Z;
                        RegistrySync.kw_display_name := None;
                        RegistrySync.kw_description := None;
                        RegistrySync.kw_others := [] |} _ _ _)
                (2 ^ 63)%Z _ _).
    + exact two_services_distinct.
    + vm_compute. reflexivity.
    + reflexivity.
    + reflexivity.
    + lia.
  - refine (proj2 (configured_service_is_exempt_from_sync Config.defaults
                     10 50 {[ "ai_svc" := ai_row ]} [ai_info; bot_info]
                     "ai_svc" ai_row
                     {| RegistrySync.kw_connection_method :=
                          Some Registry.DISABLED;
                        RegistrySync.kw_rest_url := None;
                        RegistrySync.kw_is_active := None;
                        RegistrySync.kw_priority := Some 5%Z;
                        RegistrySync.kw_display_name := None;
                        RegistrySync.kw_description := None;
                        RegistrySync.kw_others := ["owner"] |} _ _ _) _).
    + exact two_services_distinct.
    + vm_compute. reflexivity.
    + reflexivity.
    + intros priority [= <-]. lia.
Defined.
